(** * PySLM support structures: a shallow embedding of [pyslm/support/support.py]

    Python floats are modelled as rationals ([Q]); the transcendental numpy
    functions ([np.tan], [np.arcsin], [np.sqrt], [np.deg2rad], ...) are
    modelled by their real counterparts ([R]).  The geometry libraries the
    module calls (trimesh, shapely, scikit-image, scipy, the CSG backend and
    the OpenGL rasteriser) are collected in the interface [Geometry]; the
    control flow, constants and arithmetic of [support.py] are written out
    over that interface. *)

From Stdlib Require Import String.
From Stdlib Require Import List Bool Arith ZArith QArith Qround Qabs.
From Stdlib Require Import Reals Qreals Lra Lia.
Import ListNotations.

Local Open Scope Q_scope.

(** ** Exceptions and the error monad *)

Inductive exn : Type :=
| IndexError
| TypeError
| AttributeError
| UnboundLocalError (var : string)
| Exception (msg : string).

Inductive result (A : Type) : Type :=
| Ok (a : A)
| Raise (e : exn).

Arguments Ok {A} a.
Arguments Raise {A} e.

Definition bind {A B : Type} (m : result A) (k : A -> result B) : result B :=
  match m with
  | Ok a => k a
  | Raise e => Raise e
  end.

Notation "x <- m ;; k" := (bind m (fun x => k))
  (at level 61, m at next level, right associativity).

(** A [for] loop whose body may raise and whose state is threaded through. *)
Fixpoint for_each {S A : Type} (body : S -> A -> result S) (xs : list A) (s : S)
  : result S :=
  match xs with
  | [] => Ok s
  | x :: xs' => s' <- body s x ;; for_each body xs' s'
  end.

(** ** Plain data *)

Definition Pt2 : Type := (Q * Q)%type.
Definition Pt3 : Type := (Q * Q * Q)%type.
Definition BBox : Type := (Pt3 * Pt3)%type.
Definition Image : Type := list (list Q).
Definition Mask : Type := list (list bool).
Definition Face : Type := (nat * nat * nat)%type.
Definition Edge : Type := (nat * nat)%type.

Definition px (p : Pt3) : Q := fst (fst p).
Definition py (p : Pt3) : Q := snd (fst p).
Definition pz (p : Pt3) : Q := snd p.

(** ** numpy *)

Module np.

Definition lt (x y : Q) : bool := negb (Qle_bool y x).
Definition gt (x y : Q) : bool := lt y x.

Definition ceil (x : Q) : Q := inject_Z (Qceiling x).

(** [np.arange(start, stop, step)]: [ceil((stop - start) / step)] values
    [start + i * step]. *)
Definition arange (start stop step : Q) : list Q :=
  map (fun i : nat => start + inject_Z (Z.of_nat i) * step)
      (seq 0 (Z.to_nat (Qceiling ((stop - start) / step)))).

Definition flipud {A : Type} (img : list (list A)) : list (list A) := rev img.

Definition shape {A : Type} (img : list (list A)) : nat * nat :=
  (length img, length (hd [] img)).

Definition same_shape {A B : Type} (a : list (list A)) (b : list (list B)) : bool :=
  Nat.eqb (fst (shape a)) (fst (shape b)) && Nat.eqb (snd (shape a)) (snd (shape b)).

Definition get (img : Image) (i j : nat) : Q := nth j (nth i img []) 0.

(** [img.T] *)
Definition T (img : Image) : Image :=
  map (fun j => map (fun row => nth j row 0) img) (seq 0 (snd (shape img))).

(** [img > c] *)
Definition gt_scalar (img : Image) (c : Q) : Mask :=
  map (map (fun v => gt v c)) img.

Fixpoint assign_row (dst : list Q) (mask : list bool) (src : list Q) : list Q :=
  match dst, mask, src with
  | d :: dst', m :: mask', s :: src' =>
      (if m then s else d) :: assign_row dst' mask' src'
  | _, _, _ => dst
  end.

Fixpoint assign_rows (dst : Image) (mask : Mask) (src : Image) : Image :=
  match dst, mask, src with
  | d :: dst', m :: mask', s :: src' =>
      assign_row d m s :: assign_rows dst' mask' src'
  | _, _, _ => dst
  end.

(** [dst[mask] = src[mask]] on a copy of [dst]; a boolean index of another
    shape raises [IndexError]. *)
Definition assign_masked (dst : Image) (mask : Mask) (src : Image) : result Image :=
  if same_shape mask dst && same_shape mask src
  then Ok (assign_rows dst mask src)
  else Raise IndexError.

(** [np.pad(img, ((2, 2), (2, 2)), 'constant', constant_values=c)] *)
Definition pad2 (img : Image) (c : Q) : Image :=
  let w := (snd (shape img) + 4)%nat in
  let border := repeat c w in
  [border; border]
    ++ map (fun row => [c; c] ++ row ++ [c; c]) img
    ++ [border; border].

Definition deg2rad (x : R) : R := (x * (PI / 180))%R.
Definition rad2deg (x : R) : R := (x * (180 / PI))%R.

(** [a[idx, 2] = z] for one index; an index past the end raises. *)
Fixpoint set_z (i : nat) (z : Q) (a : list Pt3) : result (list Pt3) :=
  match a, i with
  | [], _ => Raise IndexError
  | (x, y, _) :: a', O => Ok ((x, y, z) :: a')
  | p :: a', S i' => a'' <- set_z i' z a' ;; Ok (p :: a'')
  end.

(** [a[index, 2] = values], element by element. *)
Fixpoint set_z_all (hits : list (nat * Q)) (a : list Pt3) : result (list Pt3) :=
  match hits with
  | [] => Ok a
  | (i, z) :: hits' => a' <- set_z i z a ;; set_z_all hits' a'
  end.

(** [a[i]] with Python's bounds check (indices here are never negative). *)
Definition index {A : Type} (a : list A) (i : nat) : result A :=
  match nth_error a i with
  | Some v => Ok v
  | None => Raise IndexError
  end.

End np.

(** ** The geometry libraries used by [support.py]

    Each field stands for a call into trimesh, shapely, scikit-image, scipy,
    [pyslm.support.geometry], [pyslm.support.render], [pyslm.support.utils]
    or [pyslm.hatching.utils]; fields named after several calls stand for
    that fixed sequence of calls in the source. *)

Inductive Shape (P : Type) : Type :=
| Polygon (p : P)
| MultiPolygon (geoms : list P).

Arguments Polygon {P} p.
Arguments MultiPolygon {P} geoms.

Class Geometry : Type := {
  Part : Type;       (* pyslm.core.Part *)
  Mesh : Type;       (* trimesh.Trimesh *)
  Poly : Type;       (* shapely.geometry.Polygon *)
  Path : Type;       (* trimesh.path.Path2D *)
  Field : Type;      (* a float image derived from a height map *)

  geometry : Part -> Mesh;                       (* part.geometry *)

  (* trimesh.Trimesh *)
  volume : Mesh -> Q;
  area : Mesh -> Q;
  bounds : Mesh -> BBox;
  vertices : Mesh -> list Pt3;
  edges_unique : Mesh -> list Edge;
  face_adjacency : Mesh -> list (nat * nat);
  face_adjacency_angles : Mesh -> list Q;        (* radians *)
  face_normal_angles : Mesh -> list Q;
    (* degrees(arccos(clip(dot([0,0,1], face_normals.T), -1, 1))) *)
  update_faces : Mesh -> list bool -> Mesh;      (* copy, update_faces,
                                                    remove_unreferenced_vertices *)
  Trimesh : list Pt3 -> list Face -> Mesh;
  ray_intersects_location : Mesh -> list Pt3 -> Pt3 -> list (nat * Pt3);
    (* ray.intersects_location(origins, directions, multiple_hits=False):
       the pairs (index_ray, location) *)
  section_multiplane : Mesh -> Pt3 -> Pt3 -> list Q -> list (option Path);

  (* region.copy().outline(); z := 0; to_planar; process; apply_translation;
     polygons_full -- [None] when one of the calls raises *)
  outline_polygons_full : Mesh -> option (list Poly);

  (* lines 793-799: the prism under an overhang region, from z = 0 up to
     the region lowered by 0.01 *)
  extrude_region : Mesh -> Mesh;
  (* lines 990-1001, 1015-1016: extrude_triangulation of the surface, caps
     moved to the two coordinate arrays, fix_normals, merge_vertices *)
  extrude_between : Mesh -> list Pt3 -> list Pt3 -> Mesh;

  (* shapely *)
  poly_area : Poly -> Q;
  simplify : Poly -> Q -> Poly;
  buffer : Poly -> Q -> Shape Poly;

  (* trimesh.path *)
  load_path : Poly -> Path;
  is_closed : Path -> bool;
  path_area : Path -> Q;
  path_add : Path -> Path -> Path;
  (* load_path(outline); merge_vertices(1); simplify_spline(smooth) *)
  spline_path : list Pt2 -> Q -> Path;
  polygons_full : Path -> option (list (option Poly));   (* [None]: raises *)
  triangulate_polygon : Poly -> Q -> list Pt2 * list Face;

  (* pyslm.support.utils / geometry / render, pyslm.hatching.utils *)
  getOverhangMesh : Part -> Q -> bool -> list Mesh;
  getSupportAngles : Part -> Pt3 -> list Q;      (* degrees *)
  boolIntersect : Mesh -> Mesh -> Mesh;
  boolDiff : Mesh -> Mesh -> Mesh;
  projectHeightMap : Mesh -> Q -> bool -> BBox -> Image;
  pathsToClosedPolygons : list (list Pt2) -> list (list Pt2);

  (* numpy / scipy / skimage on the height map *)
  gradient_magnitude : Image -> Field;           (* sqrt(vx**2 + vy**2) of np.gradient *)
  gaussian_filter : Field -> Q -> Field;
  find_contours : Field -> R -> Mask -> list (list Pt2)
}.

Definition shape_area `{Geometry} (s : Shape Poly) : Q :=
  match s with
  | Polygon p => poly_area p
  | MultiPolygon geoms => fold_right (fun p acc => poly_area p + acc) 0 geoms
  end.

(** ** class SupportStructure / BlockSupportBase *)

Module SupportStructure.
Section WithGeometry.
Context `{Geometry}.

Record t : Type := init {
  _supportVolume : option Mesh;
  _supportObject : option Part;
  _supportSurface : option Mesh;
  _intersectsPart : bool;
  _upperSurface : option Mesh     (* attribute added by the generator *)
}.

(** [flattenSupportRegion]: the first polygon of the flattened outline. *)
Definition flattenSupportRegion (region : Mesh) : result Poly :=
  match outline_polygons_full region with
  | None => Raise (Exception "outline")
  | Some [] => Raise IndexError
  | Some (polygon :: _) => Ok polygon
  end.



Definition intersectsPart (self : t) : bool := _intersectsPart self.
Definition supportSurface (self : t) : option Mesh := _supportSurface self.
Definition supportObject (self : t) : option Part := _supportObject self.
Definition supportVolume (self : t) : option Mesh := _supportVolume self.

(** [BlockSupportBase(supportObject, supportVolume, supportSurface,
    intersectsPart=False)] *)
Definition BlockSupportBase (supportObject : Part) (supportVolume : Mesh)
           (supportSurface : Mesh) (intersectsPart : bool) : t :=
  init (Some supportVolume) (Some supportObject) (Some supportSurface)
       intersectsPart None.

Definition set_upperSurface (self : t) (surf : Mesh) : t :=
  init (_supportVolume self) (_supportObject self) (_supportSurface self)
       (_intersectsPart self) (Some surf).

End WithGeometry.
End SupportStructure.

(** ** class BaseSupportGenerator *)

Module BaseSupportGenerator.
Section WithGeometry.
Context `{Geometry}.

Definition PYCLIPPER_SCALEFACTOR : Q := 10000.
Definition POINT_OVERHANG_TOLERANCE : Q := 5 # 100.

Definition Rltb (x y : R) : bool := if Rlt_dec x y then true else false.

(** [np.rad2deg(np.arcsin(delta[2] / mag))] for [delta = edge[0] - edge[1]];
    [None] is numpy's [nan], obtained for an edge of length zero. *)
Definition edge_vertical_angle (v0 v1 : Pt3) : option R :=
  let dx := px v0 - px v1 in
  let dy := py v0 - py v1 in
  let dz := pz v0 - pz v1 in
  let sumsq := dx * dx + dy * dy + dz * dz in
  if Qeq_bool sumsq 0 then None
  else Some (np.rad2deg (asin (Q2R dz / sqrt (Q2R sumsq)))).

(** [np.abs(ang) < edgeOverhangAngle]; a comparison with [nan] is false. *)
Definition abs_lt (ang : option R) (bound : Q) : bool :=
  match ang with
  | Some a => Rltb (Rabs a) (Q2R bound)
  | None => false
  end.

(** [mesh.vertices[edges]] *)
Fixpoint edge_vertices (verts : list Pt3) (edges : list Edge)
  : result (list (Pt3 * Pt3)) :=
  match edges with
  | [] => Ok []
  | (a, b) :: edges' =>
      v0 <- np.index verts a ;;
      v1 <- np.index verts b ;;
      rest <- edge_vertices verts edges' ;;
      Ok ((v0, v1) :: rest)
  end.

(** The body of the loop over the edge index [i]. *)
Definition edge_step (part : Part) (overhangAngle edgeOverhangAngle : Q)
           (theta : list Q) (overhangEdges : list Edge)
           (item : nat * (Edge * (Pt3 * Pt3))) : result (list Edge) :=
  let '(i, (edge, (v0, v1))) := item in
  let mesh := geometry part in
  if abs_lt (edge_vertical_angle v0 v1) edgeOverhangAngle then
    adjacentFaces <- np.index (face_adjacency mesh) i ;;
    adjacentFaceAngle <- np.index (face_adjacency_angles mesh) i ;;
    if Rltb (Q2R overhangAngle) (np.rad2deg (Q2R adjacentFaceAngle)) then
      t0 <- np.index theta (fst adjacentFaces) ;;
      t1 <- np.index theta (snd adjacentFaces) ;;
      if np.gt t0 89 && np.gt t1 89
      then Ok (overhangEdges ++ [edge])
      else Ok overhangEdges
    else Ok overhangEdges
  else Ok overhangEdges.

Definition findOverhangEdges (part : Part) (overhangAngle edgeOverhangAngle : Q)
  : result (list Edge) :=
  let mesh := geometry part in
  let edges := edges_unique mesh in
  edgeVerts <- edge_vertices (vertices mesh) edges ;;
  let theta := getSupportAngles part (0, 0, 1) in
  for_each (edge_step part overhangAngle edgeOverhangAngle theta)
           (combine (seq 0 (length edgeVerts)) (combine edges edgeVerts))
           [].

End WithGeometry.
End BaseSupportGenerator.

(** ** class BlockSupportGenerator *)

Module BlockSupportGenerator.
Section WithGeometry.
Context `{Geometry}.

Definition _supportSkinSideTolerance : Q := 1 - (1 # 1000).
Definition _intersectionVolumeTolerance : Q := 50.
Definition _gaussian_blur_sigma : Q := 1.

Record t : Type := init {
  _minimumAreaThreshold : Q;
  _rayProjectionResolution : Q;
  _lowerProjectionOffset : Q;
  _upperProjectionOffset : Q;
  _innerSupportEdgeGap : Q;
  _outerSupportEdgeGap : Q;
  _triangulationSpacing : Q;
  _simplifyPolygonFactor : Q;
  _overhangAngle : Q;
  _useApproxBasePlateSupport : bool;
  _splineSimplificationFactor : Q
}.

(** [BlockSupportGenerator()] *)
Definition new : t :=
  init 5 (2 # 10) (5 # 100) (5 # 100) (2 # 10) (5 # 10) 2 (5 # 10) 45 false 20.

Definition gradThreshold (rayProjectionDistance overhangAngle : Q) : R :=
  (5 * tan (np.deg2rad (Q2R overhangAngle)) * Q2R rayProjectionDistance)%R.

Definition _identifySelfIntersectionHeightMap (self : t) (subregion : Mesh)
           (offsetPoly : Path) (cutMesh : Mesh) (bbox : BBox)
  : result (Image * Image * Image) :=
  let '((x0, y0, z0), (x1, y1, z1)) := bbox in
  let bboxCpy : BBox := ((x0, y0, z0 - 1), (x1, y1, z1 + 1)) in
  let upperImg := projectHeightMap subregion (_rayProjectionResolution self) false bboxCpy in
  let lowerImg := projectHeightMap cutMesh (_rayProjectionResolution self) true bboxCpy in
  let lowerImg := np.flipud lowerImg in
  let mask := np.gt_scalar lowerImg (101 # 100) in
  heightMap2 <- np.assign_masked upperImg mask lowerImg ;;
  Ok (np.T heightMap2, upperImg, lowerImg).

(** Lines 859-874: the outlines of the padded height map. *)
Definition heightMapOutlines (self : t) (heightMap : Image) : list (list Pt2) :=
  let heightMap := np.pad2 heightMap 1 in
  let grads := gradient_magnitude heightMap in
  let grads := gaussian_filter grads _gaussian_blur_sigma in
  find_contours grads
                (gradThreshold (_rayProjectionResolution self) (_overhangAngle self))
                (np.gt_scalar heightMap 2).

(** The variables that live across iterations of the loop over the
    overhang regions. *)
Record locals : Type := mkLocals {
  offsetPoly : option Path;
  supportBlockRegions : list SupportStructure.t
}.

(** [for poly in offsetPolyList[1:]: offsetPoly += poly] *)
Fixpoint add_paths (offsetPoly : option Path) (rest : list Path)
  : result (option Path) :=
  match rest with
  | [] => Ok offsetPoly
  | poly :: rest' =>
      match offsetPoly with
      | None => Raise (UnboundLocalError "offsetPoly")
      | Some p => add_paths (Some (path_add p poly)) rest'
      end
  end.

(** The body of the loop over [outlinePolygons] (lines 887-924). *)
Definition outline_step (self : t) (polygons : list Poly) (outline : list Pt2)
  : result (list Poly) :=
  let mergedPoly := spline_path outline (_splineSimplificationFactor self) in
  match polygons_full mergedPoly with
  | None => Raise (Exception "Incompatible Shapely version used")
  | Some outPolygons =>
      if negb (is_closed mergedPoly) then Ok polygons
      else
        match outPolygons with
        | [] => Ok polygons
        | None :: _ => Ok polygons
        | Some _ :: _ :: _ =>
            Raise (Exception "Multi polygons - error please submit a bug report")
        | [Some poly0] =>
            let bufferPolyA :=
              simplify poly0 (_simplifyPolygonFactor self * _rayProjectionResolution self) in
            match buffer bufferPolyA (- _innerSupportEdgeGap self) with
            | MultiPolygon geoms => Ok (polygons ++ geoms)
            | Polygon bufferPoly => Ok (polygons ++ [bufferPoly])
            end
        end
  end.

(** Lines 986-1034: the block between the two projected caps. *)
Definition emit_block (part : Part) (subregion cutMesh : Mesh)
           (faces : list Face) (coords2 coords3 : list Pt3)
           (blocks : list SupportStructure.t) : list SupportStructure.t :=
  let surf2 := Trimesh coords2 faces in
  let extrudedBlock := extrude_between surf2 coords2 coords3 in
  let blockSupportMesh := boolDiff extrudedBlock cutMesh in
  let baseSupportBlock :=
    SupportStructure.BlockSupportBase part blockSupportMesh subregion true in
  blocks ++ [SupportStructure.set_upperSurface baseSupportBlock surf2].

(** The body of the loop over [polygons] (lines 926-1034). *)
Definition polygon_step (self : t) (part : Part) (subregion cutMesh cutMeshUpper : Mesh)
           (blocks : list SupportStructure.t) (bufferPoly : Poly)
  : result (list SupportStructure.t) :=
  if np.lt (poly_area bufferPoly) (_minimumAreaThreshold self) then Ok blocks
  else
    let poly_tri := triangulate_polygon bufferPoly (_triangulationSpacing self) in
    let coords : list Pt3 :=
      map (fun p : Pt2 => (fst p, snd p, - (1 # 10000000))) (fst poly_tri) in
    let hitLoc := ray_intersects_location subregion coords (0, 0, 1) in
    coords2 <- np.set_z_all
                 (map (fun h => (fst h, pz (snd h) + _upperProjectionOffset self)) hitLoc)
                 coords ;;
    let coords3 : list Pt3 := map (fun p => (px p, py p, 0)) coords2 in
    (* [None] is the Python list [[]] of the base-plate branch *)
    let hitLoc2 : option (list (nat * Pt3)) :=
      if np.gt (volume cutMesh) _intersectionVolumeTolerance
      then Some (ray_intersects_location cutMeshUpper coords2 (0, 0, -1))
      else None in
    let len2 := match hitLoc2 with Some l => length l | None => O end in
    if negb (Nat.eqb (length hitLoc) (length coords))
       || negb (Nat.eqb len2 (length hitLoc))
    then
      if Nat.eqb len2 0
      then Ok (emit_block part subregion cutMesh (snd poly_tri) coords2 coords3 blocks)
      else Ok blocks
    else
      match hitLoc2 with
      | None => Raise TypeError
      | Some l =>
          coords3' <- np.set_z_all
                        (map (fun h => (fst h, pz (snd h) - _lowerProjectionOffset self)) l)
                        coords3 ;;
          Ok (emit_block part subregion cutMesh (snd poly_tri) coords2 coords3' blocks)
      end.

(** Lines 838-1036: height map, segmentation and reconstruction. *)
Definition heightmap_step (self : t) (part : Part) (st : locals)
           (subregion cutMesh : Mesh) (bbox : BBox) : result locals :=
  let theta := face_normal_angles cutMesh in
  let cutMeshUpper := update_faces cutMesh (map (fun th => np.lt th (8995 # 100)) theta) in
  match offsetPoly st with
  | None => Raise (UnboundLocalError "offsetPoly")
  | Some offsetPoly_ =>
      maps <- _identifySelfIntersectionHeightMap self subregion offsetPoly_ cutMeshUpper bbox ;;
      let heightMap := fst (fst maps) in
      let outlines := heightMapOutlines self heightMap in
      let outlinesTrans :=
        map (map (fun p : Pt2 =>
                    (fst p * _rayProjectionResolution self + px (fst bbox),
                     snd p * _rayProjectionResolution self + py (fst bbox))))
            outlines in
      let outlinePolygons := pathsToClosedPolygons outlinesTrans in
      polygons <- for_each (outline_step self) outlinePolygons [] ;;
      blocks <- for_each (polygon_step self part subregion cutMesh cutMeshUpper)
                         polygons (supportBlockRegions st) ;;
      Ok (mkLocals (offsetPoly st) blocks)
  end.

(** Lines 790-836: the prism under the region, cut with the part. *)
Definition intersect_step (self : t) (part : Part) (findSelfIntersectingSupport : bool)
           (st : locals) (subregion : Mesh) : result locals :=
  let extruMesh := extrude_region subregion in
  let bbox := bounds extruMesh in
  let cutMesh := boolIntersect (geometry part) extruMesh in
  if np.lt (volume cutMesh) _intersectionVolumeTolerance then
    if _useApproxBasePlateSupport self then
      let baseSupportBlock :=
        SupportStructure.BlockSupportBase part extruMesh subregion false in
      Ok (mkLocals (offsetPoly st) (supportBlockRegions st ++ [baseSupportBlock]))
    else heightmap_step self part st subregion cutMesh bbox
  else if negb findSelfIntersectingSupport then Ok st
  else heightmap_step self part st subregion cutMesh bbox.

(** The body of the loop over [overhangSubregions]. *)
Definition subregion_step (self : t) (part : Part) (findSelfIntersectingSupport : bool)
           (st : locals) (subregion : Mesh) : result locals :=
  match SupportStructure.flattenSupportRegion subregion with
  | Raise _ => Ok st
  | Ok polygon =>
      let offsetShape :=
        buffer (simplify polygon (_simplifyPolygonFactor self))
               (- _outerSupportEdgeGap self) in
      if np.lt (shape_area offsetShape) (_minimumAreaThreshold self) then Ok st
      else
        match offsetShape with
        | MultiPolygon geoms =>
            let offsetPolyList :=
              filter (fun triPath =>
                        is_closed triPath
                        && np.gt (path_area triPath) (_minimumAreaThreshold self))
                     (map load_path geoms) in
            match offsetPolyList with
            | [] => Ok st
            | _ :: rest =>
                offsetPoly' <- add_paths (offsetPoly st) rest ;;
                intersect_step self part findSelfIntersectingSupport
                               (mkLocals offsetPoly' (supportBlockRegions st)) subregion
            end
        | Polygon p =>
            intersect_step self part findSelfIntersectingSupport
                           (mkLocals (Some (load_path p)) (supportBlockRegions st))
                           subregion
        end
  end.

(** The loop of [identifySupportRegions] over a given list of regions. *)
Definition processSubregions (self : t) (part : Part) (findSelfIntersectingSupport : bool)
           (overhangSubregions : list Mesh) (st : locals) : result locals :=
  for_each (subregion_step self part findSelfIntersectingSupport) overhangSubregions st.

Definition identifySupportRegions (self : t) (part : Part) (overhangAngle : Q)
           (findSelfIntersectingSupport : bool) : result (list SupportStructure.t) :=
  let overhangSubregions := getOverhangMesh part overhangAngle true in
  st <- processSubregions self part findSelfIntersectingSupport
                          overhangSubregions (mkLocals None []) ;;
  Ok (supportBlockRegions st).

End WithGeometry.
End BlockSupportGenerator.

(** ** class GridBlockSupport *)

Module GridBlockSupport.
Section WithGeometry.
Context `{Geometry}.

Definition _pairTolerance : Q := 1 # 10.

Record t : Type := init {
  base : SupportStructure.t;
  _gridSpacing : Q * Q;
  _useSupportBorder : bool;
  _useSupportSkin : bool;
  _supportWallThickness : Q;
  _supportBorderDistance : Q;
  _trussWidth : Q;
  _trussAngle : Q;
  _mergeMesh : bool;
  _numSkinMeshSubdivideIterations : Z;
  _supportTeethHeight : Q;
  _supportTeethTopLength : Q;
  _supportTeethBottomLength : Q;
  _supportTeethBaseInterval : Q;
  _supportTeethUpperPenetration : Q;
  _useUpperSupportTeeth : bool;
  _useLowerSupportTeeth : bool
}.

(** [GridBlockSupport(supportObject, supportVolume, supportSurface, intersectsPart)] *)
Definition new (supportObject : option Part) (supportVolume supportSurface : option Mesh)
           (intersectsPart : bool) : t :=
  init (SupportStructure.init supportVolume supportObject supportSurface intersectsPart None)
       (3, 3) true true (5 # 10) 3 1 45 false 2
       (15 # 10) (1 # 10) (15 # 10) (2 # 10) (2 # 10)
       true false.

Definition supportTeethHeight (self : t) : Q := _supportTeethHeight self.
Definition supportTeethTopLength (self : t) : Q := _supportTeethTopLength self.
Definition supportTeethBottomLength (self : t) : Q := _supportTeethTopLength self.
Definition supportTeethBaseInterval (self : t) : Q := _supportTeethBaseInterval self.
Definition supportTeethUpperPenetration (self : t) : Q := _supportTeethUpperPenetration self.
Definition gridSpacing (self : t) : Q * Q := _gridSpacing self.

Definition set_supportTeethHeight (self : t) (teethHeight : Q) : t :=
  init (base self) (_gridSpacing self) (_useSupportBorder self) (_useSupportSkin self)
       (_supportWallThickness self) (_supportBorderDistance self) (_trussWidth self)
       (_trussAngle self) (_mergeMesh self) (_numSkinMeshSubdivideIterations self)
       teethHeight (_supportTeethTopLength self) (_supportTeethBottomLength self)
       (_supportTeethBaseInterval self) (_supportTeethUpperPenetration self)
       (_useUpperSupportTeeth self) (_useLowerSupportTeeth self).

Definition set_supportTeethTopLength (self : t) (topLength : Q) : t :=
  init (base self) (_gridSpacing self) (_useSupportBorder self) (_useSupportSkin self)
       (_supportWallThickness self) (_supportBorderDistance self) (_trussWidth self)
       (_trussAngle self) (_mergeMesh self) (_numSkinMeshSubdivideIterations self)
       (_supportTeethHeight self) topLength (_supportTeethBottomLength self)
       (_supportTeethBaseInterval self) (_supportTeethUpperPenetration self)
       (_useUpperSupportTeeth self) (_useLowerSupportTeeth self).

Definition set_supportTeethBottomLength (self : t) (bottomLength : Q) : t :=
  init (base self) (_gridSpacing self) (_useSupportBorder self) (_useSupportSkin self)
       (_supportWallThickness self) (_supportBorderDistance self) (_trussWidth self)
       (_trussAngle self) (_mergeMesh self) (_numSkinMeshSubdivideIterations self)
       (_supportTeethHeight self) (_supportTeethTopLength self) bottomLength
       (_supportTeethBaseInterval self) (_supportTeethUpperPenetration self)
       (_useUpperSupportTeeth self) (_useLowerSupportTeeth self).

Definition set_gridSpacing (self : t) (spacing : Q * Q) : t :=
  init (base self) spacing (_useSupportBorder self) (_useSupportSkin self)
       (_supportWallThickness self) (_supportBorderDistance self) (_trussWidth self)
       (_trussAngle self) (_mergeMesh self) (_numSkinMeshSubdivideIterations self)
       (_supportTeethHeight self) (_supportTeethTopLength self)
       (_supportTeethBottomLength self)
       (_supportTeethBaseInterval self) (_supportTeethUpperPenetration self)
       (_useUpperSupportTeeth self) (_useLowerSupportTeeth self).

(** [toothPattern[:, 1] -= p_a] followed by
    [toothPattern[:, 1] += self._supportTeethUpperPenetration] *)
Definition shift_column1 (pattern : list Pt2) (p_a upper : Q) : list Pt2 :=
  let pattern := map (fun p : Pt2 => (fst p, snd p - p_a)) pattern in
  map (fun p : Pt2 => (fst p, snd p + upper)) pattern.

Definition toothProfile (self : t) : list Pt2 :=
  let p_a := _supportTeethHeight self in
  let p_b := _supportTeethTopLength self in
  let p_c := _supportTeethBottomLength self in
  let p_d := _supportTeethBaseInterval self in
  let toothPattern : list Pt2 :=
    [ (0, 0);
      ((p_c - p_b) / 2, p_a);
      ((p_c - p_b) / 2 + p_b, p_a);
      (p_c, 0);
      (p_c + p_d, 0) ] in
  shift_column1 toothPattern p_a (_supportTeethUpperPenetration self).

(** The plane origin coordinate and the [heights] passed to
    [section_multiplane] for one axis (lines 2457-2459, 2464). *)
Definition slice_heights (b0 b1 spacing : Q) : Q * list Q :=
  let mid := (b0 + b1) / 2 in
  let bottom := - 1 * np.ceil ((mid - b0) / spacing) * spacing in
  let top := 1 * np.ceil ((b1 - mid) / spacing) * spacing + (1 # 100000000) in
  (mid, np.arange bottom top spacing).

Definition generateGridSlices (self : t)
  : result (list (option Path) * list (option Path)) :=
  match SupportStructure._supportVolume (base self) with
  | None => Raise AttributeError
  | Some supportGeom =>
      let '(lo, hi) := bounds supportGeom in
      let spacingX := fst (_gridSpacing self) in
      let spacingY := snd (_gridSpacing self) in
      let '(midX, heightsX) := slice_heights (px lo) (px hi) spacingX in
      let sectionsX := section_multiplane supportGeom (midX, 0, 0) (1, 0, 0) heightsX in
      let '(midY, heightsY) := slice_heights (py lo) (py hi) spacingY in
      let sectionsY := section_multiplane supportGeom (0, midY, 0) (0, 1, 0) heightsY in
      Ok (sectionsX, sectionsY)
  end.

End WithGeometry.
End GridBlockSupport.

(** ** class GridBlockSupportGenerator *)

Module GridBlockSupportGenerator.
Section WithGeometry.
Context `{Geometry}.

Record t : Type := init {
  base : BlockSupportGenerator.t;
  _gridSpacing : Q * Q;
  _useSupportSkin : bool;
  _useSupportBorder : bool;
  _useLowerSupportTeeth : bool;
  _useUpperSupportTeeth : bool;
  _numSkinMeshSubdivideIterations : Z;
  _supportTeethHeight : Q;
  _supportTeethTopLength : Q;
  _supportTeethBottomLength : Q;
  _supportTeethBaseInterval : Q;
  _supportTeethUpperPenetration : Q;
  _mergeMesh : bool;
  _supportBorderDistance : Q;
  _trussWidth : Q;
  _trussAngle : Q
}.

(** [GridBlockSupportGenerator()] *)
Definition new : t :=
  init BlockSupportGenerator.new (3, 3) true true true true 2
       (15 # 10) (1 # 10) (15 # 10) (2 # 10) (2 # 10)
       false 3 1 45.

Definition supportTeethTopLength (self : t) : Q := _supportTeethTopLength self.
Definition supportTeethBottomLength (self : t) : Q := _supportTeethTopLength self.

Definition set_supportTeethTopLength (self : t) (topLength : Q) : t :=
  init (base self) (_gridSpacing self) (_useSupportSkin self) (_useSupportBorder self)
       (_useLowerSupportTeeth self) (_useUpperSupportTeeth self)
       (_numSkinMeshSubdivideIterations self)
       (_supportTeethHeight self) topLength (_supportTeethBottomLength self)
       (_supportTeethBaseInterval self) (_supportTeethUpperPenetration self)
       (_mergeMesh self) (_supportBorderDistance self) (_trussWidth self)
       (_trussAngle self).

Definition set_supportTeethBottomLength (self : t) (bottomLength : Q) : t :=
  init (base self) (_gridSpacing self) (_useSupportSkin self) (_useSupportBorder self)
       (_useLowerSupportTeeth self) (_useUpperSupportTeeth self)
       (_numSkinMeshSubdivideIterations self)
       (_supportTeethHeight self) (_supportTeethTopLength self) bottomLength
       (_supportTeethBaseInterval self) (_supportTeethUpperPenetration self)
       (_mergeMesh self) (_supportBorderDistance self) (_trussWidth self)
       (_trussAngle self).

End WithGeometry.
End GridBlockSupportGenerator.

(** ** A symbolic model of the geometry libraries

    Meshes are terms recording how they were built; polygons are axis-aligned
    rectangles.  What the libraries report about an overhang region (its
    outline, the volume its prism cuts out of the part, the heights met by
    vertical rays) is carried by the region, and the contours found in a
    height map are a parameter of the model. *)

Module Symbolic.

Definition Rect : Type := (Q * Q * Q * Q)%type.   (* x0, y0, x1, y1 *)

Definition rect_area (r : Rect) : Q :=
  let '(x0, y0, x1, y1) := r in
  if Qle_bool x1 x0 || Qle_bool y1 y0 then 0 else (x1 - x0) * (y1 - y0).

Definition rect_buffer (r : Rect) (d : Q) : Rect :=
  let '(x0, y0, x1, y1) := r in (x0 - d, y0 - d, x1 + d, y1 + d).

Record Region : Type := mkRegion {
  r_outline : option (list Rect);   (* polygons of the flattened outline *)
  r_cut_volume : Q;                 (* volume of part /\ prism *)
  r_top : Q;                        (* height of the overhang surface *)
  r_lower : option Q                (* height of the part surface below *)
}.

Record TPart : Type := mkPart {
  p_regions : list Region;
  p_vertices : list Pt3;
  p_edges_unique : list Edge;
  p_face_adjacency : list (nat * nat);
  p_face_adjacency_angles : list Q;
  p_theta : list Q
}.

Inductive TMesh : Type :=
| PartMesh (p : TPart)
| Overhang (r : Region)
| Prism (region : TMesh)
| Intersect (a b : TMesh)
| Difference (a b : TMesh)
| Upper (m : TMesh) (keep : list bool)
| Surface (coords : list Pt3) (faces : list Face)
| Between (surf : TMesh) (coords2 coords3 : list Pt3).

Fixpoint region_of (m : TMesh) : option Region :=
  match m with
  | Overhang r => Some r
  | Prism m' => region_of m'
  | Intersect _ b => region_of b
  | Upper m' _ => region_of m'
  | _ => None
  end.

Definition t_volume (m : TMesh) : Q :=
  match m with
  | Intersect (PartMesh _) (Prism (Overhang r)) => r_cut_volume r
  | _ => 0
  end.

Definition t_bounds (m : TMesh) : BBox :=
  match region_of m with
  | Some (mkRegion (Some ((x0, y0, x1, y1) :: _)) _ top _) =>
      ((x0, y0, 0), (x1, y1, top - (1 # 100)))
  | _ => ((0, 0, 0), (0, 0, 0))
  end.

(** Every vertical ray meets a flat surface at its height. *)
Definition hits_at (z : Q) (origins : list Pt3) : list (nat * Pt3) :=
  combine (seq 0 (List.length origins)) (map (fun p => (px p, py p, z)) origins).

Definition t_rays (m : TMesh) (origins : list Pt3) (dir : Pt3) : list (nat * Pt3) :=
  match m with
  | Overhang r => hits_at (r_top r) origins
  | Upper _ _ =>
      match region_of m with
      | Some (mkRegion _ _ _ (Some z)) => hits_at z origins
      | _ => []
      end
  | _ => []
  end.

(** A height map of two rows and three columns. *)
Definition t_heightMap (m : TMesh) : Image :=
  let z := match m with
           | Overhang r => r_top r
           | _ => match region_of m with
                  | Some (mkRegion _ _ _ (Some z)) => z
                  | _ => 0
                  end
           end in
  [[z; z; z]; [z; z; z]].

Fixpoint corner_rects (outline : list Pt2) : list Rect :=
  match outline with
  | (x0, y0) :: (x1, y1) :: rest => (x0, y0, x1, y1) :: corner_rects rest
  | _ => []
  end.

Definition geom (contours : list (list Pt2)) : Geometry := {|
  Part := TPart;
  Mesh := TMesh;
  Poly := Rect;
  Path := list Rect;
  Field := Image;
  geometry := PartMesh;
  volume := t_volume;
  area := fun m =>
    match m with
    | Overhang (mkRegion (Some rs) _ _ _) =>
        fold_right (fun r acc => rect_area r + acc) 0 rs
    | _ => 0
    end;
  bounds := t_bounds;
  vertices := fun m => match m with PartMesh p => p_vertices p | _ => [] end;
  edges_unique := fun m => match m with PartMesh p => p_edges_unique p | _ => [] end;
  face_adjacency := fun m => match m with PartMesh p => p_face_adjacency p | _ => [] end;
  face_adjacency_angles :=
    fun m => match m with PartMesh p => p_face_adjacency_angles p | _ => [] end;
  face_normal_angles := fun _ => [0; 90];
  update_faces := Upper;
  Trimesh := Surface;
  ray_intersects_location := t_rays;
  section_multiplane := fun _ _ _ heights => map (fun _ => None) heights;
  outline_polygons_full :=
    fun m => match m with Overhang r => r_outline r | _ => None end;
  extrude_region := Prism;
  extrude_between := Between;
  poly_area := rect_area;
  simplify := fun p _ => p;
  buffer := fun p d => Polygon (rect_buffer p d);
  load_path := fun p => [p];
  is_closed := fun _ => true;
  path_area := fun path => fold_right (fun r acc => rect_area r + acc) 0 path;
  path_add := fun a b => a ++ b;
  spline_path := fun outline _ => corner_rects outline;
  polygons_full := fun path => Some (map Some path);
  triangulate_polygon :=
    fun r _ => let '(x0, y0, x1, y1) := r in
               ([(x0, y0); (x1, y0); (x1, y1); (x0, y1)],
                [(0, 1, 2); (0, 2, 3)]%nat);
  getOverhangMesh := fun p _ _ => map Overhang (p_regions p);
  getSupportAngles := fun p _ => p_theta p;
  boolIntersect := Intersect;
  boolDiff := Difference;
  projectHeightMap := fun m _ _ _ => t_heightMap m;
  pathsToClosedPolygons := fun paths => paths;
  gradient_magnitude := fun img => img;
  gaussian_filter := fun f _ => f;
  find_contours := fun _ _ mask =>
    if existsb (existsb (fun b => b)) mask then contours else []
|}.

(** A plate of 20 x 10 overhanging the base plate at height 10, with
    nothing of the part beneath it. *)
Definition cantilever_region : Region :=
  mkRegion (Some [(0, 0, 20, 10)]) 0 10 None.

Definition cantilever : TPart :=
  mkPart [cantilever_region] [] [] [] [] [].

(** One contour around the plate, in pixel coordinates. *)
Definition one_contour : list (list Pt2) := [[(0, 0); (95, 45)]].



(** A plate above a surface of the part at height 4; the prism below it
    cuts a volume of 800 out of the part. *)
Definition arch_region : Region :=
  mkRegion (Some [(0, 0, 20, 10)]) 800 10 (Some 4).

End Symbolic.


(** * Vocabulary of the properties *)

Definition pt2_eq (p q : Pt2) : Prop := fst p == fst q /\ snd p == snd q.

Definition has_shape {A : Type} (h w : nat) (img : list (list A)) : Prop :=
  List.length img = h /\ Forall (fun row => List.length row = w) img.

(** The offsets the claim expects for a 10 mm wide box and spacing 3. *)
Definition claimed_offsets : list Q := [- (45 # 10); - (15 # 10); 15 # 10; 45 # 10].

(** World coordinates of the slicing planes of one axis. *)
Definition plane_offsets (b0 b1 spacing : Q) : list Q :=
  let '(mid, heights) := GridBlockSupport.slice_heights b0 b1 spacing in
  map (fun h => mid + h) heights.


Section Vocabulary.
Context `{Geometry}.
Import BaseSupportGenerator BlockSupportGenerator.


Definition all_flagged (blocks : list SupportStructure.t) : Prop :=
  Forall (fun b => SupportStructure._intersectsPart b = true) blocks.

(** The conditions on the edge of index [i]; [faceBound] is the angle both
    faces of the [i]-th adjacency pair have to exceed. *)
Definition edge_selected (faceBound : Q) (part : Part) (surfaceAngle edgeAngle : Q)
           (i : nat) (e : Edge) : Prop :=
  let mesh := geometry part in
  exists v0 v1 ang fa a t0 t1,
    nth_error (edges_unique mesh) i = Some e
    /\ nth_error (vertices mesh) (fst e) = Some v0
    /\ nth_error (vertices mesh) (snd e) = Some v1
    /\ edge_vertical_angle v0 v1 = Some ang
    /\ (Rabs ang < Q2R edgeAngle)%R
    /\ nth_error (face_adjacency mesh) i = Some fa
    /\ nth_error (face_adjacency_angles mesh) i = Some a
    /\ (Q2R surfaceAngle < np.rad2deg (Q2R a))%R
    /\ nth_error (getSupportAngles part (0, 0, 1)) (fst fa) = Some t0
    /\ nth_error (getSupportAngles part (0, 0, 1)) (snd fa) = Some t1
    /\ faceBound < t0 /\ faceBound < t1.

(** The three conditions of the claim: both faces exceed [surfaceAngle]. *)
Definition claimed_overhang_edge (part : Part) (surfaceAngle edgeAngle : Q)
           (i : nat) (e : Edge) : Prop :=
  edge_selected surfaceAngle part surfaceAngle edgeAngle i e.

(** The indices found in the mesh arrays are in range. *)
Definition mesh_indices_ok (part : Part) : bool :=
  let mesh := geometry part in
  let nv := List.length (vertices mesh) in
  let nt := List.length (getSupportAngles part (0, 0, 1)) in
  forallb (fun e : Edge => Nat.ltb (fst e) nv && Nat.ltb (snd e) nv) (edges_unique mesh)
  && Nat.leb (List.length (edges_unique mesh)) (List.length (face_adjacency mesh))
  && Nat.leb (List.length (edges_unique mesh)) (List.length (face_adjacency_angles mesh))
  && forallb (fun fa : nat * nat => Nat.ltb (fst fa) nt && Nat.ltb (snd fa) nt)
             (face_adjacency mesh).

(** The conditions tested by the loop body on one item. *)
Definition item_selected (part : Part) (surfaceAngle edgeAngle : Q)
           (i : nat) (v0 v1 : Pt3) : Prop :=
  let mesh := geometry part in
  exists ang fa a t0 t1,
    edge_vertical_angle v0 v1 = Some ang
    /\ (Rabs ang < Q2R edgeAngle)%R
    /\ nth_error (face_adjacency mesh) i = Some fa
    /\ nth_error (face_adjacency_angles mesh) i = Some a
    /\ (Q2R surfaceAngle < np.rad2deg (Q2R a))%R
    /\ nth_error (getSupportAngles part (0, 0, 1)) (fst fa) = Some t0
    /\ nth_error (getSupportAngles part (0, 0, 1)) (snd fa) = Some t1
    /\ 89 < t0 /\ 89 < t1.

End Vocabulary.

(** ** Runs of the model on the symbolic geometry *)

Module Runs.
Import Symbolic.

Definition G1 : Geometry := geom one_contour.

(** The block returned for the cantilever plate. *)
Definition cantilever_cut : TMesh :=
  Intersect (PartMesh cantilever) (Prism (Overhang cantilever_region)).

Definition cantilever_top : list Pt3 :=
  [ (0 * (2 # 10) + 0 - - (2 # 10), 0 * (2 # 10) + 0 - - (2 # 10), 10 + (5 # 100));
    (95 * (2 # 10) + 0 + - (2 # 10), 0 * (2 # 10) + 0 - - (2 # 10), 10 + (5 # 100));
    (95 * (2 # 10) + 0 + - (2 # 10), 45 * (2 # 10) + 0 + - (2 # 10), 10 + (5 # 100));
    (0 * (2 # 10) + 0 - - (2 # 10), 45 * (2 # 10) + 0 + - (2 # 10), 10 + (5 # 100)) ].

Definition cantilever_bottom : list Pt3 :=
  map (fun p => (px p, py p, 0)) cantilever_top.

Definition cantilever_surface : TMesh :=
  Surface cantilever_top [(0, 1, 2); (0, 2, 3)]%nat.

Definition cantilever_volume : TMesh :=
  Difference (Between cantilever_surface cantilever_top cantilever_bottom) cantilever_cut.

Definition cantilever_block : @SupportStructure.t G1 :=
  @SupportStructure.init G1 (Some cantilever_volume) (Some cantilever)
                         (Some (Overhang cantilever_region)) true
                         (Some cantilever_surface).

(** A horizontal edge between two faces inclined by [theta] degrees that
    meet at an angle of 2 radians. *)
Definition ridge_with (theta : Q) : TPart :=
  mkPart [] [(0, 0, 0); (1, 0, 0)] [(0, 1)%nat] [(0, 1)%nat] [2] [theta; theta].

Definition ridge : TPart := ridge_with 60.
Definition steep_ridge : TPart := ridge_with 90.


(** A 10 x 10 x 10 block centred at the origin in X and Y. *)
Definition centred_box : TMesh :=
  Prism (Overhang (mkRegion (Some [(-5, -5, 5, 5)]) 0 (10 + (1 # 100)) None)).

Definition centred_support : @GridBlockSupport.t G1 :=
  @GridBlockSupport.new G1 None (Some centred_box) None false.

End Runs.

(** * Further functions of [support.py] *)

From Stdlib Require Import Sorted Permutation.

(** ** Mesh queries used by [findOverhangPoints] *)

Class MeshQueries `{Geometry} : Type := {
  vertex_neighbors : Mesh -> list (list nat);   (* mesh.vertex_neighbors *)
  vertex_normals : Mesh -> list Pt3             (* mesh.vertex_normals *)
}.

Section OverhangPoints.
Context `{MeshQueries}.

(** [meshVerts[idx, :]] for a list of indices. *)
Fixpoint take_vertices (meshVerts : list Pt3) (idx : list nat) : result (list Pt3) :=
  match idx with
  | [] => Ok []
  | j :: idx' =>
      v <- np.index meshVerts j ;;
      rest <- take_vertices meshVerts idx' ;;
      Ok (v :: rest)
  end.

(** The body of the loop over the vertex index [i]. *)
Definition point_step (part : Part) (pointOverhangs : list nat) (i : nat)
  : result (list nat) :=
  let meshVerts := vertices (geometry part) in
  let vAdjacency := vertex_neighbors (geometry part) in
  v <- np.index meshVerts i ;;
  neighbors <- np.index vAdjacency i ;;
  neighborVerts <- take_vertices meshVerts neighbors ;;
  let delta_z := map (fun nv => pz nv - pz v) neighborVerts in
  if forallb (fun dz => np.gt dz (- BaseSupportGenerator.POINT_OVERHANG_TOLERANCE)) delta_z
  then
    normal <- np.index (vertex_normals (geometry part)) i ;;
    if np.lt (pz normal) 0 then Ok (pointOverhangs ++ [i]) else Ok pointOverhangs
  else Ok pointOverhangs.

Definition findOverhangPoints (part : Part) : result (list nat) :=
  let vAdjacency := vertex_neighbors (geometry part) in
  for_each (point_step part) (seq 0 (List.length vAdjacency)) [].

(** Vertex [i] has all its neighbours above it within the tolerance and a
    normal pointing downwards. *)
Definition overhang_point (part : Part) (i : nat) : Prop :=
  let mesh := geometry part in
  exists v neighbors neighborVerts normal,
    nth_error (vertices mesh) i = Some v
    /\ nth_error (vertex_neighbors mesh) i = Some neighbors
    /\ Forall2 (fun j nv => nth_error (vertices mesh) j = Some nv) neighbors neighborVerts
    /\ Forall (fun nv => - (5 # 100) < pz nv - pz v) neighborVerts
    /\ nth_error (vertex_normals mesh) i = Some normal
    /\ pz normal < 0.

(** Every vertex with a neighbour list has coordinates and a normal, and
    the neighbours are vertices. *)
Definition points_indices_ok (part : Part) : bool :=
  let mesh := geometry part in
  let nv := List.length (vertices mesh) in
  Nat.leb (List.length (vertex_neighbors mesh)) nv
  && Nat.leb (List.length (vertex_neighbors mesh)) (List.length (vertex_normals mesh))
  && forallb (forallb (fun j => Nat.ltb j nv)) (vertex_neighbors mesh).

End OverhangPoints.

(** Symbolic meshes with given neighbour lists and vertex normals. *)
Definition symbolic_queries (neighbors : list (list nat)) (normals : list Pt3)
  : @MeshQueries (Symbolic.geom []) :=
  {| vertex_neighbors := fun _ => neighbors; vertex_normals := fun _ => normals |}.

(** A square pyramid pointing downwards: the apex is vertex 0. *)
Definition pyramid : Symbolic.TPart :=
  Symbolic.mkPart [] [(0, 0, 0); (1, 1, 1); (-1, 1, 1); (-1, -1, 1); (1, -1, 1)]
                  [] [] [] [].

Definition pyramid_queries : @MeshQueries (Symbolic.geom []) :=
  symbolic_queries
    [[1; 2; 3; 4]; [0; 2; 4]; [0; 1; 3]; [0; 2; 4]; [0; 1; 3]]%nat
    [(0, 0, -1); (1, 1, 1); (-1, 1, 1); (-1, -1, 1); (1, -1, 1)].

(** ** The grid of slicing planes along one axis *)


(** ** GridBlockSupport: the remaining property setters *)

Module GridBlockSupportSetters.
Section WithGeometry.
Context `{Geometry}.
Import GridBlockSupport.

(** [int(iterations)] of a value that is an integer already. *)
Definition set_numSkinMeshSubdivideIterations (self : GridBlockSupport.t) (iterations : Z)
  : GridBlockSupport.t :=
  init (base self) (_gridSpacing self) (_useSupportBorder self) (_useSupportSkin self)
       (_supportWallThickness self) (_supportBorderDistance self) (_trussWidth self)
       (_trussAngle self) (_mergeMesh self) iterations (_supportTeethHeight self)
       (_supportTeethTopLength self) (_supportTeethBottomLength self)
       (_supportTeethBaseInterval self) (_supportTeethUpperPenetration self)
       (_useUpperSupportTeeth self) (_useLowerSupportTeeth self).

Definition set_supportTeethBaseInterval (self : GridBlockSupport.t) (baseInterval : Q)
  : GridBlockSupport.t :=
  init (base self) (_gridSpacing self) (_useSupportBorder self) (_useSupportSkin self)
       (_supportWallThickness self) (_supportBorderDistance self) (_trussWidth self)
       (_trussAngle self) (_mergeMesh self) (_numSkinMeshSubdivideIterations self)
       (_supportTeethHeight self) (_supportTeethTopLength self)
       (_supportTeethBottomLength self) baseInterval
       (_supportTeethUpperPenetration self) (_useUpperSupportTeeth self)
       (_useLowerSupportTeeth self).

Definition set_supportTeethUpperPenetration (self : GridBlockSupport.t) (distance : Q)
  : GridBlockSupport.t :=
  init (base self) (_gridSpacing self) (_useSupportBorder self) (_useSupportSkin self)
       (_supportWallThickness self) (_supportBorderDistance self) (_trussWidth self)
       (_trussAngle self) (_mergeMesh self) (_numSkinMeshSubdivideIterations self)
       (_supportTeethHeight self) (_supportTeethTopLength self)
       (_supportTeethBottomLength self) (_supportTeethBaseInterval self) distance
       (_useUpperSupportTeeth self) (_useLowerSupportTeeth self).

Definition set_useSupportSkin (self : GridBlockSupport.t) (value : bool)
  : GridBlockSupport.t :=
  init (base self) (_gridSpacing self) (_useSupportBorder self) value
       (_supportWallThickness self) (_supportBorderDistance self) (_trussWidth self)
       (_trussAngle self) (_mergeMesh self) (_numSkinMeshSubdivideIterations self)
       (_supportTeethHeight self) (_supportTeethTopLength self)
       (_supportTeethBottomLength self) (_supportTeethBaseInterval self)
       (_supportTeethUpperPenetration self) (_useUpperSupportTeeth self)
       (_useLowerSupportTeeth self).

Definition set_useSupportBorder (self : GridBlockSupport.t) (value : bool)
  : GridBlockSupport.t :=
  init (base self) (_gridSpacing self) value (_useSupportSkin self)
       (_supportWallThickness self) (_supportBorderDistance self) (_trussWidth self)
       (_trussAngle self) (_mergeMesh self) (_numSkinMeshSubdivideIterations self)
       (_supportTeethHeight self) (_supportTeethTopLength self)
       (_supportTeethBottomLength self) (_supportTeethBaseInterval self)
       (_supportTeethUpperPenetration self) (_useUpperSupportTeeth self)
       (_useLowerSupportTeeth self).

Definition set_useLowerSupportTeeth (self : GridBlockSupport.t) (state : bool)
  : GridBlockSupport.t :=
  init (base self) (_gridSpacing self) (_useSupportBorder self) (_useSupportSkin self)
       (_supportWallThickness self) (_supportBorderDistance self) (_trussWidth self)
       (_trussAngle self) (_mergeMesh self) (_numSkinMeshSubdivideIterations self)
       (_supportTeethHeight self) (_supportTeethTopLength self)
       (_supportTeethBottomLength self) (_supportTeethBaseInterval self)
       (_supportTeethUpperPenetration self) (_useUpperSupportTeeth self) state.

Definition set_useUpperSupportTeeth (self : GridBlockSupport.t) (state : bool)
  : GridBlockSupport.t :=
  init (base self) (_gridSpacing self) (_useSupportBorder self) (_useSupportSkin self)
       (_supportWallThickness self) (_supportBorderDistance self) (_trussWidth self)
       (_trussAngle self) (_mergeMesh self) (_numSkinMeshSubdivideIterations self)
       (_supportTeethHeight self) (_supportTeethTopLength self)
       (_supportTeethBottomLength self) (_supportTeethBaseInterval self)
       (_supportTeethUpperPenetration self) state (_useLowerSupportTeeth self).

Definition set_supportBorderDistance (self : GridBlockSupport.t) (distance : Q)
  : GridBlockSupport.t :=
  init (base self) (_gridSpacing self) (_useSupportBorder self) (_useSupportSkin self)
       (_supportWallThickness self) distance (_trussWidth self) (_trussAngle self)
       (_mergeMesh self) (_numSkinMeshSubdivideIterations self)
       (_supportTeethHeight self) (_supportTeethTopLength self)
       (_supportTeethBottomLength self) (_supportTeethBaseInterval self)
       (_supportTeethUpperPenetration self) (_useUpperSupportTeeth self)
       (_useLowerSupportTeeth self).

Definition set_trussWidth (self : GridBlockSupport.t) (width : Q)
  : GridBlockSupport.t :=
  init (base self) (_gridSpacing self) (_useSupportBorder self) (_useSupportSkin self)
       (_supportWallThickness self) (_supportBorderDistance self) width
       (_trussAngle self) (_mergeMesh self) (_numSkinMeshSubdivideIterations self)
       (_supportTeethHeight self) (_supportTeethTopLength self)
       (_supportTeethBottomLength self) (_supportTeethBaseInterval self)
       (_supportTeethUpperPenetration self) (_useUpperSupportTeeth self)
       (_useLowerSupportTeeth self).

Definition set_trussAngle (self : GridBlockSupport.t) (angle : Q)
  : GridBlockSupport.t :=
  init (base self) (_gridSpacing self) (_useSupportBorder self) (_useSupportSkin self)
       (_supportWallThickness self) (_supportBorderDistance self) (_trussWidth self)
       angle (_mergeMesh self) (_numSkinMeshSubdivideIterations self)
       (_supportTeethHeight self) (_supportTeethTopLength self)
       (_supportTeethBottomLength self) (_supportTeethBaseInterval self)
       (_supportTeethUpperPenetration self) (_useUpperSupportTeeth self)
       (_useLowerSupportTeeth self).

Definition set_mergeMesh (self : GridBlockSupport.t) (state : bool)
  : GridBlockSupport.t :=
  init (base self) (_gridSpacing self) (_useSupportBorder self) (_useSupportSkin self)
       (_supportWallThickness self) (_supportBorderDistance self) (_trussWidth self)
       (_trussAngle self) state (_numSkinMeshSubdivideIterations self)
       (_supportTeethHeight self) (_supportTeethTopLength self)
       (_supportTeethBottomLength self) (_supportTeethBaseInterval self)
       (_supportTeethUpperPenetration self) (_useUpperSupportTeeth self)
       (_useLowerSupportTeeth self).

(** [gridBlock._upperSurface = surf] *)
Definition set_upperSurface (self : GridBlockSupport.t) (surf : Mesh)
  : GridBlockSupport.t :=
  init (SupportStructure.set_upperSurface (base self) surf) (_gridSpacing self)
       (_useSupportBorder self) (_useSupportSkin self) (_supportWallThickness self)
       (_supportBorderDistance self) (_trussWidth self) (_trussAngle self)
       (_mergeMesh self) (_numSkinMeshSubdivideIterations self)
       (_supportTeethHeight self) (_supportTeethTopLength self)
       (_supportTeethBottomLength self) (_supportTeethBaseInterval self)
       (_supportTeethUpperPenetration self) (_useUpperSupportTeeth self)
       (_useLowerSupportTeeth self).

End WithGeometry.
End GridBlockSupportSetters.

(** ** GridBlockSupportGenerator.identifySupportRegions *)

Module GridGenerator.
Section WithGeometry.
Context `{Geometry}.
Import GridBlockSupport GridBlockSupportSetters.

(** The body of the loop over the blocks of the base generator. *)
Definition to_gridBlock (self : GridBlockSupportGenerator.t) (block : SupportStructure.t)
  : result GridBlockSupport.t :=
  let gridBlock :=
    GridBlockSupport.new (SupportStructure.supportObject block)
                         (SupportStructure.supportVolume block)
                         (SupportStructure.supportSurface block)
                         (SupportStructure.intersectsPart block) in
  let gridBlock := set_gridSpacing gridBlock (GridBlockSupportGenerator._gridSpacing self) in
  let gridBlock :=
    set_numSkinMeshSubdivideIterations
      gridBlock (GridBlockSupportGenerator._numSkinMeshSubdivideIterations self) in
  let gridBlock :=
    set_supportTeethHeight gridBlock (GridBlockSupportGenerator._supportTeethHeight self) in
  let gridBlock :=
    set_supportTeethTopLength gridBlock (GridBlockSupportGenerator._supportTeethHeight self) in
  let gridBlock :=
    set_supportTeethBottomLength
      gridBlock (GridBlockSupportGenerator._supportTeethBottomLength self) in
  let gridBlock :=
    set_supportTeethBaseInterval
      gridBlock (GridBlockSupportGenerator._supportTeethBaseInterval self) in
  let gridBlock :=
    set_supportTeethUpperPenetration
      gridBlock (GridBlockSupportGenerator._supportTeethUpperPenetration self) in
  let gridBlock := set_useSupportSkin gridBlock (GridBlockSupportGenerator._useSupportSkin self) in
  let gridBlock :=
    set_useSupportBorder gridBlock (GridBlockSupportGenerator._useSupportBorder self) in
  let gridBlock :=
    set_useLowerSupportTeeth gridBlock (GridBlockSupportGenerator._useLowerSupportTeeth self) in
  let gridBlock :=
    set_useUpperSupportTeeth gridBlock (GridBlockSupportGenerator._useUpperSupportTeeth self) in
  let gridBlock :=
    set_supportBorderDistance
      gridBlock (GridBlockSupportGenerator._supportBorderDistance self) in
  let gridBlock := set_trussWidth gridBlock (GridBlockSupportGenerator._trussWidth self) in
  let gridBlock := set_trussAngle gridBlock (GridBlockSupportGenerator._trussAngle self) in
  let gridBlock := set_mergeMesh gridBlock (GridBlockSupportGenerator._mergeMesh self) in
  (* [block._upperSurface]: the attribute exists only on blocks of the main path *)
  match SupportStructure._upperSurface block with
  | None => Raise AttributeError
  | Some surf => Ok (set_upperSurface gridBlock surf)
  end.

Definition identifySupportRegions (self : GridBlockSupportGenerator.t) (part : Part)
           (overhangAngle : Q) (findSelfIntersectingSupport : bool)
  : result (list GridBlockSupport.t) :=
  supportBlocks <- BlockSupportGenerator.identifySupportRegions
                     (GridBlockSupportGenerator.base self) part overhangAngle
                     findSelfIntersectingSupport ;;
  for_each (fun gridBlocks block =>
              gridBlock <- to_gridBlock self block ;; Ok (gridBlocks ++ [gridBlock]))
           supportBlocks [].

End WithGeometry.
End GridGenerator.

(** ** Vocabulary of the further properties *)

Section FurtherVocabulary.
Context `{Geometry}.
Import BlockSupportGenerator.

(** The prism under [subregion] is taken to the height-map stage: neither
    the approximate base-plate branch nor the skip of a self-intersecting
    region applies. *)
Definition reaches_height_map (self : BlockSupportGenerator.t) (part : Part)
           (find : bool) (subregion : Mesh) : Prop :=
  let cutMesh := boolIntersect (geometry part) (extrude_region subregion) in
  if np.lt (volume cutMesh) _intersectionVolumeTolerance
  then _useApproxBasePlateSupport self = false
  else find = true.

(** [b] was made for the region [r] of [part]. *)
Definition from_region (part : Part) (r : Mesh) (b : SupportStructure.t) : Prop :=
  SupportStructure._supportObject b = Some part
  /\ SupportStructure._supportSurface b = Some r
  /\ SupportStructure._supportVolume b <> None.

(** [b] is a block of the main path for [r]: flagged as intersecting, with
    its upper surface recorded. *)
Definition refined_block (part : Part) (r : Mesh) (b : SupportStructure.t) : Prop :=
  exists vol surf,
    b = SupportStructure.set_upperSurface
          (SupportStructure.BlockSupportBase part vol r true) surf.

(** [b] is the unrefined prism under [r], resting on the base plate. *)
Definition approximate_block (part : Part) (r : Mesh) (b : SupportStructure.t) : Prop :=
  b = SupportStructure.BlockSupportBase part (extrude_region r) r false
  /\ volume (boolIntersect (geometry part) (extrude_region r))
     < _intersectionVolumeTolerance.

(** The two ways a block is made for the region [r]. *)
Definition emitted_for (self : BlockSupportGenerator.t) (part : Part) (find : bool)
           (r : Mesh) (b : SupportStructure.t) : Prop :=
  (reaches_height_map self part find r /\ refined_block part r b)
  \/ (_useApproxBasePlateSupport self = true /\ approximate_block part r b).

(** What a grid block takes over from the block and from the generator. *)
Definition converted (self : GridBlockSupportGenerator.t) (b : SupportStructure.t)
           (g : GridBlockSupport.t) : Prop :=
  GridBlockSupport.base g = b
  /\ GridBlockSupport._gridSpacing g = GridBlockSupportGenerator._gridSpacing self
  /\ GridBlockSupport._supportTeethHeight g
     = GridBlockSupportGenerator._supportTeethHeight self
  /\ GridBlockSupport._supportTeethTopLength g
     = GridBlockSupportGenerator._supportTeethHeight self
  /\ GridBlockSupport._supportTeethBottomLength g
     = GridBlockSupportGenerator._supportTeethBottomLength self
  /\ GridBlockSupport._supportTeethBaseInterval g
     = GridBlockSupportGenerator._supportTeethBaseInterval self
  /\ GridBlockSupport._supportTeethUpperPenetration g
     = GridBlockSupportGenerator._supportTeethUpperPenetration self
  /\ GridBlockSupport._useUpperSupportTeeth g
     = GridBlockSupportGenerator._useUpperSupportTeeth self
  /\ GridBlockSupport._useLowerSupportTeeth g
     = GridBlockSupportGenerator._useLowerSupportTeeth self
  /\ GridBlockSupport._trussWidth g = GridBlockSupportGenerator._trussWidth self
  /\ GridBlockSupport._trussAngle g = GridBlockSupportGenerator._trussAngle self
  /\ GridBlockSupport._supportBorderDistance g
     = GridBlockSupportGenerator._supportBorderDistance self
  /\ GridBlockSupport._supportWallThickness g = 5 # 10.

End FurtherVocabulary.


(** The default generator with [useApproxBasePlateSupport] switched on. *)
Definition approx_generator : BlockSupportGenerator.t :=
  BlockSupportGenerator.init 5 (2 # 10) (5 # 100) (5 # 100) (2 # 10) (5 # 10) 2 (5 # 10)
                             45 true 20.

Definition approx_grid_generator : GridBlockSupportGenerator.t :=
  GridBlockSupportGenerator.init approx_generator (3, 3) true true true true 2
                                 (15 # 10) (1 # 10) (15 # 10) (2 # 10) (2 # 10)
                                 false 3 1 45.

(** The cantilever plate next to the plate above a surface of the part. *)
Definition plate_and_arch : Symbolic.TPart :=
  Symbolic.mkPart [Symbolic.cantilever_region; Symbolic.arch_region] [] [] [] [] [].

(** The unrefined prism under the cantilever plate of [plate_and_arch]. *)
Definition plate_prism_block : @SupportStructure.t Runs.G1 :=
  @SupportStructure.BlockSupportBase
    Runs.G1 plate_and_arch
    (Symbolic.Prism (Symbolic.Overhang Symbolic.cantilever_region))
    (Symbolic.Overhang Symbolic.cantilever_region) false.

(** ** generateSupportSlices: stacking the triangulations of a section *)

(** [facesx + idx] *)
Definition shift_face (idx : nat) (f : Face) : Face :=
  let '(a, b, c) := f in ((a + idx)%nat, (b + idx)%nat, (c + idx)%nat).

(** The loop over [section.children] (lines 2346-2357), given the
    triangulation of every child. *)
Fixpoint stack_loop (children : list (list Pt2 * list Face))
         (vx : list (list Pt2)) (fx : list (list Face)) (idx : nat)
  : list (list Pt2) * list (list Face) :=
  match children with
  | [] => (vx, fx)
  | (vertsx, facesx) :: rest =>
      stack_loop rest (vx ++ [vertsx]) (fx ++ [map (shift_face idx) facesx])
                 (idx + List.length vertsx)
  end.

(** [np.vstack]: an empty list of arrays raises [ValueError] ([None]). *)
Definition vstack {A : Type} (arrays : list (list A)) : option (list A) :=
  match arrays with
  | [] => None
  | _ => Some (concat arrays)
  end.

Definition stack_triangulations (children : list (list Pt2 * list Face))
  : option (list Pt2 * list Face) :=
  let '(vx, fx) := stack_loop children [] [] 0 in
  match vstack vx, vstack fx with
  | Some v, Some f => Some (v, f)
  | _, _ => None
  end.

(** The corner points of a face, when its indices are in range. *)
Definition face_points (verts : list Pt2) (f : Face) : option (Pt2 * Pt2 * Pt2) :=
  let '(a, b, c) := f in
  match nth_error verts a, nth_error verts b, nth_error verts c with
  | Some pa, Some pb, Some pc => Some (pa, pb, pc)
  | _, _, _ => None
  end.

Definition faces_in_range (child : list Pt2 * list Face) : Prop :=
  Forall (fun f => face_points (fst child) f <> None) (snd child).

(** ** generateSupportSkins: top and bottom components, pairing of loops *)

Section SkinSelection.
Context `{Geometry}.

(** Lines 1984-2006: the two components of the side faces, the higher one
    first; [None] stands for the early [return []]. *)
Definition top_and_bottom (supportSurfCpy : list Mesh) : option (Mesh * Mesh) :=
  let supportSurf := filter (fun surf => np.gt (area surf) 5) supportSurfCpy in
  match supportSurf with
  | [top; bottom] =>
      if np.gt (pz (fst (bounds bottom))) (pz (fst (bounds top)))
      then Some (bottom, top)
      else Some (top, bottom)
  | _ => None
  end.

End SkinSelection.

(** [sum([lengths[id] for id in path])] *)
Fixpoint path_length_sum (lengths : list Q) (path : list nat) : result Q :=
  match path with
  | [] => Ok 0
  | id :: rest =>
      l <- np.index lengths id ;;
      s <- path_length_sum lengths rest ;;
      Ok (l + s)
  end.

(** [np.abs(pathLen - botPathLen) / botPathLen < pairTolerance]; a division
    by zero gives [inf] or [nan], and the comparison is false. *)
Definition lengths_match (pathLen botPathLen : Q) : bool :=
  if Qeq_bool botPathLen 0 then false
  else np.lt (Qabs (pathLen - botPathLen) / botPathLen) (1 # 10).

(** The inner loop over the bottom paths (lines 2028-2032). *)
Definition pair_inner (bottomPathLengths : list Q) (i : nat) (pathLen : Q)
           (pairs : list (nat * nat)) (item : nat * list nat)
  : result (list (nat * nat)) :=
  let '(j, bottomPath) := item in
  botPathLen <- path_length_sum bottomPathLengths bottomPath ;;
  if lengths_match pathLen botPathLen then Ok (pairs ++ [(i, j)]) else Ok pairs.

(** The loop over the top paths (lines 2025-2032). *)
Definition pair_paths (topPathLengths bottomPathLengths : list Q)
           (topPaths bottomPaths : list (list nat)) : result (list (nat * nat)) :=
  for_each
    (fun pairs (item : nat * list nat) =>
       let '(i, topPath) := item in
       pathLen <- path_length_sum topPathLengths topPath ;;
       for_each (pair_inner bottomPathLengths i pathLen)
                (combine (seq 0 (List.length bottomPaths)) bottomPaths) pairs)
    (combine (seq 0 (List.length topPaths)) topPaths) [].

(** ** generateSliceGeometry: the teeth along the upper and lower edges

    Lines 1504-1585, for one discrete path of the section. *)

(** What numpy raises in this part. *)
Inductive numpy_error : Type := ValueError | OverflowError.

(** [np.roll(a, -1, axis=0)] *)
Definition np_roll_back {A : Type} (a : list A) : list A := tl a ++ firstn 1 a.

(** [np.diff] of a boolean array: [a[1:] != a[:-1]] *)
Definition np_diff_bool (a : list bool) : list bool :=
  map (fun p => xorb (fst p) (snd p)) (combine (tl a) (removelast a)).

(** [np.argwhere(a).ravel()] *)
Definition np_argwhere (a : list bool) : list nat :=
  map fst (filter snd (combine (seq 0 (List.length a)) a)).

(** [np.split(a, indices)]: the slices [a[st:end]] between the division
    points [0, indices..., len(a)]. *)
Fixpoint np_split_from {A : Type} (a : list A) (st : nat) (indices : list nat)
  : list (list A) :=
  match indices with
  | [] => [skipn st a]
  | e :: rest => firstn (e - st) (skipn st a) :: np_split_from a e rest
  end.

Definition np_split {A : Type} (a : list A) (indices : list nat) : list (list A) :=
  np_split_from a 0 indices.

(** [np.clip(x, lo, hi)]: [minimum(hi, maximum(x, lo))] *)
Definition np_clip (x lo hi : Q) : Q :=
  let y := if np.lt x lo then lo else x in
  if np.lt hi y then hi else y.

(** [np.unique(a, return_index=True)]: the distinct values in increasing
    order, each with the index of its first occurrence. *)
Fixpoint insert_unique (x : Q) (i : nat) (acc : list (Q * nat)) : list (Q * nat) :=
  match acc with
  | [] => [(x, i)]
  | (y, j) :: acc' =>
      match x ?= y with
      | Lt => (x, i) :: acc
      | Eq => acc
      | Gt => (y, j) :: insert_unique x i acc'
      end
  end.

Definition np_unique_index (a : list Q) : list (Q * nat) :=
  fold_left (fun acc xi => insert_unique (snd xi) (fst xi) acc)
            (combine (seq 0 (List.length a)) a) [].

(** [trimesh.path.traversal.PathSample]: the length of a polyline and the
    point at a distance along it ([sample] works distance by distance). *)
Class PathSampling : Type := {
  path_length : list Pt2 -> Q;
  path_sample : list Pt2 -> Q -> Pt2
}.

(** [np.hstack([path, np.roll(path, -1, axis=0)]).reshape(-1, 2, 2)[:-1]] *)
Definition path_edges (path : list Pt2) : list (Pt2 * Pt2) :=
  removelast (combine path (np_roll_back path)).

(** [np.abs(np.diff(coords, axis=1).reshape(-1, 2)[:, 1]) > 1e-4] *)
Definition edge_mask (coords : list (Pt2 * Pt2)) : list bool :=
  map (fun e : Pt2 * Pt2 => np.gt (Qabs (snd (snd e) - snd (fst e))) (1 # 10000)) coords.

(** [np.split(np.arange(0, len(idx)), np.argwhere(np.diff(idx)).ravel() + 1)] *)
Definition edge_runs (idx : list bool) : list (list nat) :=
  np_split (seq 0 (List.length idx)) (map S (np_argwhere (np_diff_bool idx))).

(** [np.argwhere(np.array([np.any(idx[split]) for split in splitIdx]))] *)
Definition masked_runs (idx : list bool) (splitIdx : list (list nat)) : list nat :=
  np_argwhere (map (existsb (fun k => nth k idx false)) splitIdx).

(** [np.vstack([coords[split][:, 0, :], coords[split][-1, 1, :]])]; the
    indices of a run come from [np.arange(0, len(idx))], and a masked run
    is not empty. *)
Definition run_segment (coords : list (Pt2 * Pt2)) (split : list nat) : list Pt2 :=
  let edges := map (fun k => nth k coords ((0, 0), (0, 0))) split in
  map fst edges ++ [snd (last edges ((0, 0), (0, 0)))].

(** [int(np.ceil(length / patternLen))]: a zero period gives [inf] or [nan],
    which [int] refuses. *)
Definition tooth_cycles (length patternLen : Q) : numpy_error + Z :=
  if Qeq_bool patternLen 0
  then inl (if Qeq_bool length 0 then ValueError else OverflowError)
  else inr (Qceiling (length / patternLen)).

(** The copies of the pattern collected in [patternList] (lines 1544-1547). *)
Definition tile_pattern (repPattern : list Pt2) (patternLen : Q) (numCycles : Z)
  : list (list Pt2) :=
  map (fun i : nat =>
         map (fun p : Pt2 => (fst p + patternLen * inject_Z (Z.of_nat i), snd p))
             repPattern)
      (seq 0 (Z.to_nat numCycles)).

Record tooth_paths : Type := mkToothPaths {
  newPaths : list (list Pt2);
  upperPaths : list (list Pt2);
  lowerPaths : list (list Pt2)
}.

Section ToothStage.
Context `{Geometry} `{PathSampling}.

(** The positions along the edge and the index of the pattern vertex of
    each (line 1555). *)
Definition sample_positions (seg : list Pt2) (patternList : list Pt2)
  : list (Q * nat) :=
  np_unique_index (map (fun p : Pt2 => np_clip (fst p) 0 (path_length seg)) patternList).

(** Lines 1555-1558: the edge sampled at the positions of the pattern, each
    sample moved along the first axis by the height of its pattern vertex. *)
Definition teeth (seg : list Pt2) (dir : Q) (patternList : list Pt2) : list Pt2 :=
  map (fun xi : Q * nat =>
         let s := path_sample seg (fst xi) in
         (fst s + dir * snd (nth (snd xi) patternList (0, 0)), snd s))
      (sample_positions seg patternList).

(** [-1.0 if seg[-1, 1] < seg[0, 1] else 1.0] *)
Definition direction (seg : list Pt2) : Q :=
  if np.lt (snd (last seg (0, 0))) (snd (hd (0, 0) seg)) then - (1) else 1.

(** One iteration of the loop over the masked runs (lines 1521-1581). *)
Definition tooth_step (self : GridBlockSupport.t) (seg : list Pt2) (st : tooth_paths)
  : numpy_error + tooth_paths :=
  let dir := direction seg in
  let repPattern := GridBlockSupport.toothProfile self in
  let patternLen := fst (last repPattern (0, 0)) in
  match tooth_cycles (path_length seg) patternLen with
  | inl e => inl e
  | inr numCycles =>
      match vstack (tile_pattern repPattern patternLen numCycles) with
      | None => inl ValueError
      | Some patternList =>
          let teethFinal := teeth seg dir patternList in
          let teethFinal := if (numCycles =? 1)%Z then seg else teethFinal in
          let teethFinal :=
            if negb (GridBlockSupport._useLowerSupportTeeth self) && np.gt dir 0
            then seg else teethFinal in
          let lower := if np.gt dir 0 then lowerPaths st ++ [teethFinal]
                       else lowerPaths st in
          let teethFinal :=
            if negb (GridBlockSupport._useUpperSupportTeeth self) && np.lt dir 0
            then seg else teethFinal in
          let upper := if np.lt dir 0 then upperPaths st ++ [teethFinal]
                       else upperPaths st in
          inr (mkToothPaths (newPaths st ++ [teethFinal]) upper lower)
      end
  end.

Fixpoint tooth_loop (self : GridBlockSupport.t) (segs : list (list Pt2))
         (st : tooth_paths) : numpy_error + tooth_paths :=
  match segs with
  | [] => inr st
  | seg :: rest =>
      match tooth_step self seg st with
      | inl e => inl e
      | inr st' => tooth_loop self rest st'
      end
  end.

(** The segments of the masked runs of a path, in the order of the loop. *)
Definition masked_segments (path : list Pt2) : list (list Pt2) :=
  let coords := path_edges path in
  let idx := edge_mask coords in
  let splitIdx := edge_runs idx in
  map (fun id => run_segment coords (nth id splitIdx [])) (masked_runs idx splitIdx).

(** Lines 1504-1585: the closed outline [nPaths] handed to shapely, with the
    upper and lower paths. *)
Definition toothed_outline (self : GridBlockSupport.t) (path : list Pt2)
  : numpy_error + (list Pt2 * tooth_paths) :=
  match tooth_loop self (masked_segments path) (mkToothPaths [] [] []) with
  | inl e => inl e
  | inr st =>
      match vstack (newPaths st) with
      | None => inl ValueError
      | Some nPaths => inr (nPaths ++ firstn 1 nPaths, st)
      end
  end.

End ToothStage.

(** Sampling of polylines whose edges run along the axes: lengths and
    samples are rational. *)
Fixpoint axis_length (seg : list Pt2) : Q :=
  match seg with
  | p :: (q :: _) as rest =>
      Qabs (fst q - fst p) + Qabs (snd q - snd p) + axis_length rest
  | _ => 0
  end.

Fixpoint axis_sample (seg : list Pt2) (d : Q) : Pt2 :=
  match seg with
  | p :: (q :: _) as rest =>
      let l := Qabs (fst q - fst p) + Qabs (snd q - snd p) in
      if Qle_bool d l
      then (fst p + (fst q - fst p) * (d / l), snd p + (snd q - snd p) * (d / l))
      else axis_sample rest (d - l)
  | p :: _ => p
  | [] => (0, 0)
  end.

Definition axis_sampling : PathSampling :=
  {| path_length := axis_length; path_sample := axis_sample |}.

(** A slice 10 high and 20 wide, first axis up: the lower edge, a side, the
    upper edge, the other side. *)
Definition slice_rectangle : list Pt2 :=
  [(0, 0); (0, 20); (10, 20); (10, 0); (0, 0)].

(** A grid block with the default teeth (period 1.5 + 0.2) and the upper
    edge of the rectangle. *)
Definition plain_grid_block : @GridBlockSupport.t Runs.G1 :=
  @GridBlockSupport.new Runs.G1 None None None false.

Definition upper_edge : list Pt2 := [(10, 20); (10, 0)].

(** A section path collapsed onto the first axis. *)
Definition collapsed_path : list Pt2 := [(0, 0); (10, 0); (0, 0)].

(** ** Vocabulary of the further properties *)

(** The faces appended by [stack_loop], child by child. *)
Fixpoint shifted_from (idx : nat) (children : list (list Pt2 * list Face))
  : list (list Face) :=
  match children with
  | [] => []
  | (vertsx, facesx) :: rest =>
      map (shift_face idx) facesx :: shifted_from (idx + List.length vertsx) rest
  end.

(** The order of the values of [np.unique]. *)
Definition by_value (p q : Q * nat) : Prop := fst p < fst q.

(** What [np.unique] has listed after the first [k] values. *)
Record unique_upto (a : list Q) (k : nat) (acc : list (Q * nat)) : Prop := {
  upto_sorted : StronglySorted by_value acc;
  upto_first : forall x i, In (x, i) acc ->
      (i < k)%nat /\ nth_error a i = Some x
      /\ forall j y, (j < i)%nat -> nth_error a j = Some y -> ~ y == x;
  upto_all : forall j y, (j < k)%nat -> nth_error a j = Some y ->
      exists x i, In (x, i) acc /\ x == y
}.

(** The division points of [edge_runs]: the positions where the mask
    changes. *)
Definition changes_at (idx : list bool) (c : nat) : Prop :=
  exists k, c = S k /\ (S k < List.length idx)%nat
            /\ nth k idx false <> nth (S k) idx false.

(** What [np.split] makes of the indices from [st] on. *)
Record runs_from (idx : list bool) (st : nat) (runs : list (list nat)) : Prop := {
  runs_concat : concat runs = seq st (List.length idx - st);
  runs_constant : forall run i j, In run runs -> In i run -> In j run ->
                                  nth i idx false = nth j idx false;
  runs_maximal : forall r run1 run2,
      nth_error runs r = Some run1 -> nth_error runs (S r) = Some run2 ->
      run1 <> [] /\ run2 <> []
      /\ nth (last run1 0%nat) idx false <> nth (hd 0%nat run2) idx false;
  runs_start : (st < List.length idx)%nat -> hd 0%nat (hd [] runs) = st /\ hd [] runs <> []
}.

Section ToothVocabulary.
Context `{Geometry} `{PathSampling}.

(** The test of [isccw]: the run ends below its start along the second
    axis. *)
Definition is_upper (seg : list Pt2) : bool :=
  np.lt (snd (last seg (0, 0))) (snd (hd (0, 0) seg)).

(** The path kept for a run: the run itself when it is no longer than one
    period or the teeth of its side are switched off, the teeth otherwise. *)
Definition chosen_for (self : GridBlockSupport.t) (seg final : list Pt2) : Prop :=
  let period := GridBlockSupport._supportTeethBottomLength self
                + GridBlockSupport._supportTeethBaseInterval self in
  let L := path_length seg in
  let enabled := if is_upper seg then GridBlockSupport._useUpperSupportTeeth self
                 else GridBlockSupport._useLowerSupportTeeth self in
  (L <= period \/ enabled = false -> final = seg)
  /\ (period < L -> enabled = true ->
      final = teeth seg (if is_upper seg then - (1) else 1)
                    (concat (tile_pattern (GridBlockSupport.toothProfile self) period
                                          (Qceiling (L / period))))).

(** The paths kept for the runs of one side. *)
Definition of_side (upper : bool) (segs finals : list (list Pt2)) : list (list Pt2) :=
  map snd (filter (fun p : list Pt2 * list Pt2 => Bool.eqb (is_upper (fst p)) upper)
                  (combine segs finals)).

End ToothVocabulary.

(** ** GridBlockSupport.generateMeshGrid

    The square root, the sine and the cosine are the real functions, and the
    spacing handed over by the callers is itself a sine: the bounds, the
    spacing and the angle are reals, and the hatch grid is a list of real
    points. *)

Section MeshGrid.
Local Open Scope R_scope.

(** [np.ceil] of a real, as an integer. *)
Definition Rceil (x : R) : Z := (1 - up (- x))%Z.

(** [np.arange(start, stop, step)] *)
Definition Rarange (start stop step : R) : list R :=
  map (fun i : nat => start + INR i * step)
      (seq 0 (Z.to_nat (Rceil ((stop - start) / step)))).

(** [np.tile(a.reshape(-1, 1), (2)).flatten()] *)
Definition tile2 (a : list R) : list R := flat_map (fun v => [v; v]) a.

(** [np.resize(a, n)]: repeated copies of [a]. *)
Definition np_resize (a : list R) (n : nat) : list R :=
  map (fun i => nth (i mod List.length a) a 0) (seq 0 n).

(** [.astype(np.int64)] of a value that is not negative. *)
Definition astype_int64 (v : R) : R := IZR (Int_part v).

Definition generateMeshGrid (bounds : R * R * R * R) (hatchSpacing hatchAngle : R)
  : list (R * R * R) :=
  let theta_h := np.deg2rad hatchAngle in
  let '(minx, miny, maxx, maxy) := bounds in
  let bboxCentre := ((minx + maxx) / 2, (miny + maxy) / 2) in
  let diagonal := (maxx - fst bboxCentre, maxy - snd bboxCentre) in
  let bboxRadius :=
    IZR (Rceil (sqrt (fst diagonal * fst diagonal + snd diagonal * snd diagonal)
                / hatchSpacing))
    * hatchSpacing in
  let x := tile2 (Rarange (- bboxRadius) bboxRadius hatchSpacing) in
  let y := np_resize [- bboxRadius; bboxRadius] (List.length x) in
  let z := map astype_int64 (Rarange 0 (INR (List.length x) / 2) (1 / 2)) in
  let coords := combine (combine x y) z in
  let c := cos theta_h in
  let s := sin theta_h in
  (* np.matmul(R, coords.T).T + np.hstack([bboxCentre, 0.0]) *)
  map (fun p : R * R * R =>
         let '(vx, vy, vz) := p in
         (c * vx + - s * vy + 0 * vz + fst bboxCentre,
          s * vx + c * vy + 0 * vz + snd bboxCentre,
          0 * vx + 0 * vy + 1 * vz + 0))
      coords.

(** Half the diagonal of the bounding box and the number of hatch lines. *)
Definition half_diagonal (bounds : R * R * R * R) : R :=
  let '(minx, miny, maxx, maxy) := bounds in
  let dx := maxx - (minx + maxx) / 2 in
  let dy := maxy - (miny + maxy) / 2 in
  sqrt (dx * dx + dy * dy).

Definition hatch_count (bounds : R * R * R * R) (hatchSpacing : R) : Z :=
  (2 * Rceil (half_diagonal bounds / hatchSpacing))%Z.

(** The two families of hatches of the truss (lines 1686-1692 and
    1871-1887), for the bounds of the box polygon. *)
Definition truss_hatches (gridSpacing0 trussAngle : Q) (bounds : R * R * R * R)
  : list (R * R * R) * list (R * R * R) :=
  let diag := Q2R gridSpacing0 * sin (np.deg2rad (Q2R trussAngle)) in
  let hatchesA := generateMeshGrid bounds diag (Q2R trussAngle) in
  let hatchesB := generateMeshGrid bounds diag (180 - Q2R trussAngle) in
  (hatchesA, hatchesB).

End MeshGrid.

(** ** generateSupportSkins: the start of the bottom loop (lines 2108-2112) *)

Section BottomLoop.
Local Open Scope R_scope.

(** [np.sqrt(dist[:, 0] * dist[:, 0] + dist[:, 1] * dist[:, 1])] for
    [dist = bottomXY - topStartPos] *)
Definition distances_to (topStartPos : R * R) (bottomXY : list (R * R)) : list R :=
  map (fun p : R * R =>
         let d := (fst p - fst topStartPos, snd p - snd topStartPos) in
         sqrt (fst d * fst d + snd d * snd d))
      bottomXY.

(** [np.argmin]: the first index of the least value; an empty array raises
    [ValueError] ([None]). *)
Fixpoint argmin_from (best : nat) (least : R) (i : nat) (a : list R) : nat :=
  match a with
  | [] => best
  | v :: rest =>
      if BaseSupportGenerator.Rltb v least then argmin_from i v (S i) rest
      else argmin_from best least (S i) rest
  end.

Definition np_argmin (a : list R) : option nat :=
  match a with
  | [] => None
  | v :: rest => Some (argmin_from 0 v 1 rest)
  end.

(** [np.roll(a, -k, axis=0)] for [0 <= k <= len(a)] *)
Definition np_roll_by {A : Type} (k : nat) (a : list A) : list A :=
  skipn k a ++ firstn k a.

Definition align_bottom (topStartPos : R * R) (bottomXY : list (R * R))
           (bottomZ : list R) : option (list (R * R) * list R) :=
  match np_argmin (distances_to topStartPos bottomXY) with
  | None => None
  | Some startId => Some (np_roll_by startId bottomXY, np_roll_by startId bottomZ)
  end.

End BottomLoop.

(** * Properties *)

(** ** Basic facts about the comparisons and the error monad *)

Lemma np_lt_iff (x y : Q) : np.lt x y = true <-> x < y.
Proof.
  unfold np.lt. rewrite negb_true_iff. split; intro Hlt.
  - apply Qnot_le_lt. intro Hle. apply Qle_bool_iff in Hle. congruence.
  - destruct (Qle_bool y x) eqn:E; [|reflexivity].
    apply Qle_bool_iff in E. exfalso. exact (Qlt_not_le _ _ Hlt E).
Qed.

Lemma np_gt_iff (x y : Q) : np.gt x y = true <-> y < x.
Proof. unfold np.gt. apply np_lt_iff. Qed.

Lemma bind_Ok {A B : Type} (m : result A) (k : A -> result B) (b : B) :
  bind m k = Ok b -> exists a, m = Ok a /\ k a = Ok b.
Proof. destruct m as [a|e]; simpl; intro Hk; [eauto | discriminate]. Qed.


(** A property kept by every iteration that returns holds when the loop
    returns. *)
Lemma for_each_invariant {S A : Type} (P : S -> Prop) (body : S -> A -> result S)
      (xs : list A) :
  (forall s x s', P s -> body s x = Ok s' -> P s') ->
  forall s s', P s -> for_each body xs s = Ok s' -> P s'.
Proof.
  intro Hbody. induction xs as [|x xs IH]; simpl; intros s s' Hs Hrun.
  - injection Hrun as <-. exact Hs.
  - apply bind_Ok in Hrun as (s1 & Hx & Hrest). eauto.
Qed.

(** ** SupportStructure: the area helpers *)

Section SupportStructureFacts.
Context `{Geometry}.
Import SupportStructure.


End SupportStructureFacts.

(** ** GridBlockSupport: tooth profile, tooth lengths, grid slices *)

Section GridBlockSupportFacts.
Context `{Geometry}.
Import GridBlockSupport.

(** C5. With a, b, c, d the tooth height, top length, bottom length and
    base interval, [toothProfile] returns exactly the five vertices (0,0),
    ((c-b)/2, a), ((c-b)/2 + b, a), (c, 0), (c+d, 0), each y-coordinate
    shifted by (-a + supportTeethUpperPenetration). *)
Theorem toothProfile_vertices (self : GridBlockSupport.t) :
  let a := _supportTeethHeight self in
  let b := _supportTeethTopLength self in
  let c := _supportTeethBottomLength self in
  let d := _supportTeethBaseInterval self in
  let shift := - a + _supportTeethUpperPenetration self in
  Forall2 pt2_eq (toothProfile self)
          [ (0, 0 + shift);
            ((c - b) / 2, a + shift);
            ((c - b) / 2 + b, a + shift);
            (c, 0 + shift);
            (c + d, 0 + shift) ].
Proof.
  intros a b c d shift. unfold toothProfile, shift_column1. simpl.
  repeat constructor; simpl; try reflexivity; unfold shift; fold a; ring.
Qed.

(** C6 (the code at the claim). In [GridBlockSupport] and in
    [GridBlockSupportGenerator], whatever value is stored through the
    [supportTeethBottomLength] setter, the getter of the same name returns
    the stored top length: the value read back is not the value set. *)
Theorem supportTeethBottomLength_reads_top_length
        (self : GridBlockSupport.t) (gen : GridBlockSupportGenerator.t) (v : Q) :
  supportTeethBottomLength (set_supportTeethBottomLength self v)
  = _supportTeethTopLength self
  /\ _supportTeethBottomLength (set_supportTeethBottomLength self v) = v
  /\ GridBlockSupportGenerator.supportTeethBottomLength
       (GridBlockSupportGenerator.set_supportTeethBottomLength gen v)
     = GridBlockSupportGenerator._supportTeethTopLength gen.
Proof. repeat split; reflexivity. Qed.

End GridBlockSupportFacts.

(** On a fresh [GridBlockSupport] (top length 0.1), after setting the bottom
    length to 2 the property reads 0.1. *)
Lemma supportTeethBottomLength_default_after_set :
  let gb := @GridBlockSupport.new (Symbolic.geom []) None None None false in
  GridBlockSupport.supportTeethBottomLength
    (GridBlockSupport.set_supportTeethBottomLength gb 2) = 1 # 10
  /\ ~ (1 # 10 == 2).
Proof. split; [reflexivity | discriminate]. Qed.

Section GridSliceFacts.
Context `{Geometry}.
Import GridBlockSupport.

Lemma slice_heights_10mm :
  slice_heights (-5) 5 3 = (0 # 2, [-6; -3; 0; 3; 6]).
Proof. vm_compute. reflexivity. Qed.

(** C9 (as amended). For a support volume whose bounding box spans
    [-5, 5] in X and in Y and [gridSpacing = (3, 3)], [generateGridSlices]
    slices through the bounding-box centre: the plane offsets are
    -6, -3, 0, 3, 6 on each axis, a list symmetric about the centre 0. *)
Theorem generateGridSlices_offsets (self : GridBlockSupport.t) (vol : Mesh) (z0 z1 : Q) :
  SupportStructure._supportVolume (base self) = Some vol ->
  bounds vol = ((-5, -5, z0), (5, 5, z1)) ->
  _gridSpacing self = (3, 3) ->
  exists midX heightsX midY heightsY,
    generateGridSlices self
    = Ok (section_multiplane vol (midX, 0, 0) (1, 0, 0) heightsX,
          section_multiplane vol (0, midY, 0) (0, 1, 0) heightsY)
    /\ Forall2 Qeq (map (fun h => midX + h) heightsX) [-6; -3; 0; 3; 6]
    /\ Forall2 Qeq (map (fun h => midY + h) heightsY) [-6; -3; 0; 3; 6]
    /\ Forall2 Qeq (map Qopp (rev heightsX)) heightsX
    /\ Forall2 Qeq (map Qopp (rev heightsY)) heightsY.
Proof.
  intros Hvol Hbounds Hspacing.
  exists (0 # 2), [-6; -3; 0; 3; 6], (0 # 2), [-6; -3; 0; 3; 6].
  split.
  - unfold generateGridSlices. rewrite Hvol, Hbounds, Hspacing.
    cbn [px py fst snd]. rewrite slice_heights_10mm. reflexivity.
  - repeat split; repeat constructor; vm_compute; reflexivity.
Qed.

End GridSliceFacts.

(** C9 (counterexample). For the box of the claim the planes are not at
    -4.5, -1.5, 1.5, 4.5: five planes are requested, at multiples of the
    spacing from the centre. *)
Lemma grid_offsets_not_as_claimed :
  ~ Forall2 Qeq (plane_offsets (-5) 5 3) claimed_offsets.
Proof.
  unfold plane_offsets. rewrite slice_heights_10mm. unfold claimed_offsets. simpl.
  intro Hall.
  inversion Hall as [|x y xs ys Hxy _]; subst. vm_compute in Hxy. discriminate.
Qed.

(** ** Arrays: shapes, masked assignment, transposition, padding *)

Lemma has_shape_row {A : Type} (h w : nat) (img : list (list A)) (i : nat) :
  has_shape h w img -> (i < h)%nat -> List.length (nth i img []) = w.
Proof.
  intros [Hlen Hrows] Hi. rewrite Forall_forall in Hrows.
  apply Hrows, nth_In. lia.
Qed.

Lemma has_shape_shape {A : Type} (h w : nat) (img : list (list A)) :
  has_shape h w img -> (0 < h)%nat -> np.shape img = (h, w).
Proof.
  intros [Hlen Hrows] Hh. unfold np.shape. rewrite Hlen. f_equal.
  destruct img as [|row img']; simpl in *; [lia|].
  inversion Hrows; assumption.
Qed.

Lemma has_shape_empty {A : Type} (w : nat) (img : list (list A)) :
  has_shape 0 w img -> img = [].
Proof. intros [Hlen _]. destruct img; [reflexivity | discriminate]. Qed.

Lemma has_shape_flipud {A : Type} (h w : nat) (img : list (list A)) :
  has_shape h w img -> has_shape h w (np.flipud img).
Proof.
  intros [Hlen Hrows]. split.
  - unfold np.flipud. rewrite length_rev. exact Hlen.
  - apply Forall_rev. exact Hrows.
Qed.

Lemma has_shape_gt_scalar (h w : nat) (img : Image) (c : Q) :
  has_shape h w img -> has_shape h w (np.gt_scalar img c).
Proof.
  intros [Hlen Hrows]. split.
  - unfold np.gt_scalar. rewrite length_map. exact Hlen.
  - unfold np.gt_scalar. rewrite Forall_map.
    eapply Forall_impl; [|exact Hrows]. intros row Hrow. rewrite length_map. exact Hrow.
Qed.

Lemma same_shape_of_has_shape {A B : Type} (h w : nat)
      (a : list (list A)) (b : list (list B)) :
  has_shape h w a -> has_shape h w b -> np.same_shape a b = true.
Proof.
  intros Ha Hb. unfold np.same_shape. destruct h as [|h'].
  - rewrite (has_shape_empty _ _ Ha), (has_shape_empty _ _ Hb). reflexivity.
  - rewrite (has_shape_shape _ _ _ Ha), (has_shape_shape _ _ _ Hb) by lia.
    simpl fst. simpl snd. rewrite !Nat.eqb_refl. reflexivity.
Qed.

Lemma gt_scalar_get (img : Image) (c : Q) (i j : nat) :
  (j < List.length (nth i img []))%nat ->
  nth j (nth i (np.gt_scalar img c) []) false = np.gt (np.get img i j) c.
Proof.
  intro Hj. unfold np.gt_scalar, np.get.
  change (@nil bool) with (map (fun v => np.gt v c) []).
  rewrite map_nth.
  rewrite (nth_indep _ false (np.gt 0 c)) by (rewrite length_map; exact Hj).
  apply (map_nth (fun v => np.gt v c)).
Qed.

Lemma assign_row_nth (dst : list Q) (mask : list bool) (src : list Q) (j : nat) :
  List.length mask = List.length dst -> List.length src = List.length dst ->
  nth j (np.assign_row dst mask src) 0
  = if nth j mask false then nth j src 0 else nth j dst 0.
Proof.
  revert mask src j.
  induction dst as [|d dst IH]; intros [|m mask] [|s src] j Hm Hs;
    try discriminate; simpl in *.
  - destruct j; reflexivity.
  - destruct j as [|j']; [reflexivity|]. apply IH; lia.
Qed.

Lemma assign_rows_nth (dst : Image) (mask : Mask) (src : Image) (i : nat) :
  List.length mask = List.length dst -> List.length src = List.length dst ->
  (i < List.length dst)%nat ->
  nth i (np.assign_rows dst mask src) []
  = np.assign_row (nth i dst []) (nth i mask []) (nth i src []).
Proof.
  revert mask src i.
  induction dst as [|d dst IH]; intros [|m mask] [|s src] i Hm Hs Hi;
    try discriminate; simpl in *; try lia.
  destruct i as [|i']; [reflexivity|]. apply IH; lia.
Qed.

Lemma assign_row_length (dst : list Q) (mask : list bool) (src : list Q) :
  List.length (np.assign_row dst mask src) = List.length dst.
Proof.
  revert mask src. induction dst as [|d dst IH]; intros [|m mask] [|s src];
    simpl; try reflexivity. f_equal. apply IH.
Qed.

Lemma has_shape_assign_rows (h w : nat) (dst : Image) (mask : Mask) (src : Image) :
  has_shape h w dst -> has_shape h w (np.assign_rows dst mask src).
Proof.
  intros [Hlen Hrows]. subst h. revert mask src.
  induction dst as [|d dst IH]; intros mask src.
  - destruct mask, src; split; simpl; auto.
  - inversion Hrows as [|? ? Hd Hrest]; subst.
    destruct mask as [|m mask]; [split; simpl; auto|].
    destruct src as [|s src]; [split; simpl; auto|].
    destruct (IH Hrest mask src) as [IHlen IHrows].
    split; simpl; [f_equal; exact IHlen|].
    constructor; [apply assign_row_length | exact IHrows].
Qed.

Lemma T_get (h w : nat) (img : Image) (x y : nat) :
  has_shape h w img -> (x < w)%nat -> (y < h)%nat ->
  np.get (np.T img) x y = np.get img y x.
Proof.
  intros Himg Hx Hy. unfold np.T, np.get.
  rewrite (has_shape_shape _ _ _ Himg) by lia. simpl snd.
  rewrite (nth_indep _ [] ((fun j => map (fun row => nth j row 0) img) 0%nat))
    by (rewrite length_map, length_seq; exact Hx).
  rewrite (map_nth (fun j => map (fun row => nth j row 0) img)).
  rewrite seq_nth by exact Hx. simpl.
  rewrite (nth_indep _ 0 ((fun row => nth x row 0) []))
    by (rewrite length_map; destruct Himg as [-> _]; exact Hy).
  apply (map_nth (fun row => nth x row 0)).
Qed.

Lemma has_shape_T (h w : nat) (img : Image) :
  has_shape h w img -> (0 < h)%nat -> has_shape w h (np.T img).
Proof.
  intros Himg Hh. unfold np.T. rewrite (has_shape_shape _ _ _ Himg) by exact Hh.
  simpl snd. split.
  - rewrite length_map, length_seq. reflexivity.
  - rewrite Forall_map. apply Forall_forall. intros j _.
    rewrite length_map. destruct Himg as [-> _]. reflexivity.
Qed.

Lemma pad2_get (h w : nat) (img : Image) (c : Q) (i j : nat) :
  has_shape h w img -> (i < h)%nat -> (j < w)%nat ->
  np.get (np.pad2 img c) (i + 2) (j + 2) = np.get img i j.
Proof.
  intros Himg Hi Hj. unfold np.pad2, np.get.
  replace (i + 2)%nat with (S (S i)) by lia.
  replace (j + 2)%nat with (S (S j)) by lia.
  cbn [app nth].
  rewrite app_nth1 by (rewrite length_map; destruct Himg as [-> _]; exact Hi).
  rewrite (nth_indep _ [] ((fun row => [c; c] ++ row ++ [c; c]) []))
    by (rewrite length_map; destruct Himg as [-> _]; exact Hi).
  rewrite (map_nth (fun row => [c; c] ++ row ++ [c; c])).
  cbn [app nth].
  apply app_nth1. rewrite (has_shape_row _ _ _ _ Himg Hi). exact Hj.
Qed.

(** ** BlockSupportGenerator: the combined height map *)

Section HeightMapFacts.
Context `{Geometry}.
Import BlockSupportGenerator.

(** C7. With [upperImg] rasterised from the overhang patch and [lowerImg]
    the vertically flipped raster of the upper cut mesh, the combined map
    holds, at every pixel, the lower value where it exceeds 1.01 and the
    upper value otherwise.  The relation holds index for index before the
    transposition, at the pixel of column [x] and row [y] of the map that
    is returned, and at that pixel shifted by the padding of two used by
    [identifySupportRegions]. *)
Theorem heightMap_selects_lower_or_upper
        (self : BlockSupportGenerator.t) (subregion cutMesh : Mesh) (offsetPoly : Path)
        (x0 y0 z0 x1 y1 z1 : Q) (h w : nat) :
  let bboxCpy : BBox := ((x0, y0, z0 - 1), (x1, y1, z1 + 1)) in
  let upperImg := projectHeightMap subregion (_rayProjectionResolution self) false bboxCpy in
  let lowerImg :=
    np.flipud (projectHeightMap cutMesh (_rayProjectionResolution self) true bboxCpy) in
  let select (row col : nat) : Q :=
    if np.gt (np.get lowerImg row col) (101 # 100)
    then np.get lowerImg row col
    else np.get upperImg row col in
  has_shape h w upperImg ->
  has_shape h w (projectHeightMap cutMesh (_rayProjectionResolution self) true bboxCpy) ->
  exists heightMap2 : Image,
    _identifySelfIntersectionHeightMap self subregion offsetPoly cutMesh
                                       ((x0, y0, z0), (x1, y1, z1))
    = Ok (np.T heightMap2, upperImg, lowerImg)
    /\ forall x y, (x < w)%nat -> (y < h)%nat ->
         np.get heightMap2 y x = select y x
         /\ np.get (np.T heightMap2) x y = select y x
         /\ np.get (np.pad2 (np.T heightMap2) 1) (x + 2) (y + 2) = select y x.
Proof.
  intros bboxCpy upperImg lowerImg select Hupper Hraster.
  assert (Hlower : has_shape h w lowerImg) by (apply has_shape_flipud; exact Hraster).
  pose proof (has_shape_gt_scalar _ _ _ (101 # 100) Hlower) as Hmask.
  exists (np.assign_rows upperImg (np.gt_scalar lowerImg (101 # 100)) lowerImg).
  split.
  - unfold _identifySelfIntersectionHeightMap.
    fold bboxCpy. fold upperImg. fold lowerImg.
    unfold np.assign_masked.
    rewrite (same_shape_of_has_shape _ _ _ _ Hmask Hupper).
    rewrite (same_shape_of_has_shape _ _ _ _ Hmask Hlower).
    reflexivity.
  - intros x y Hx Hy.
    pose proof (has_shape_assign_rows _ _ _ (np.gt_scalar lowerImg (101 # 100)) lowerImg
                                      Hupper) as Hmap.
    assert (Hcell :
              np.get (np.assign_rows upperImg (np.gt_scalar lowerImg (101 # 100)) lowerImg) y x
              = select y x).
    { unfold np.get at 1.
      destruct Hupper as [Hulen Hurows], Hlower as [Hllen Hlrows], Hmask as [Hmlen Hmrows].
      rewrite assign_rows_nth by lia.
      assert (Hur : List.length (nth y upperImg []) = w)
        by (apply (has_shape_row h); [split; assumption | exact Hy]).
      assert (Hlr : List.length (nth y lowerImg []) = w)
        by (apply (has_shape_row h); [split; assumption | exact Hy]).
      assert (Hmr : List.length (nth y (np.gt_scalar lowerImg (101 # 100)) []) = w)
        by (apply (has_shape_row h); [split; assumption | exact Hy]).
      rewrite assign_row_nth by lia.
      rewrite gt_scalar_get by lia.
      reflexivity. }
    split; [exact Hcell|].
    assert (Ht : np.get (np.T (np.assign_rows upperImg
                                 (np.gt_scalar lowerImg (101 # 100)) lowerImg)) x y
                 = select y x)
      by (rewrite (T_get h w) by assumption; exact Hcell).
    split; [exact Ht|].
    rewrite (pad2_get w h); [exact Ht | apply has_shape_T; [exact Hmap | lia] | exact Hx | exact Hy].
Qed.

End HeightMapFacts.

(** ** BlockSupportGenerator: the gradient threshold *)

Section GradThresholdFacts.
Context `{Geometry}.
Import BlockSupportGenerator.

Lemma gradThreshold_formula (r theta : Q) :
  gradThreshold r theta = (5 * tan (Q2R theta * PI / 180) * Q2R r)%R.
Proof.
  unfold gradThreshold, np.deg2rad. do 2 f_equal. f_equal. field.
Qed.

(** C4. The threshold of the gradient segmentation is
    5 * tan(overhangAngle in radians) * rayProjectionResolution, with both
    values read from the generator, and the contours of the blurred
    gradient magnitude of the padded height map are taken at this level
    under the mask of the pixels whose height exceeds 2. *)
Theorem outlines_at_gradThreshold (self : BlockSupportGenerator.t) (heightMap : Image) :
  let r := _rayProjectionResolution self in
  let theta := _overhangAngle self in
  let padded := np.pad2 heightMap 1 in
  let blurred := gaussian_filter (gradient_magnitude padded) 1 in
  gradThreshold r theta = (5 * tan (Q2R theta * PI / 180) * Q2R r)%R
  /\ heightMapOutlines self heightMap
     = find_contours blurred (5 * tan (Q2R theta * PI / 180) * Q2R r)%R
                     (np.gt_scalar padded 2)
  /\ forall i j, (j < List.length (nth i padded []))%nat ->
       (nth j (nth i (np.gt_scalar padded 2) []) false = true <-> 2 < np.get padded i j).
Proof.
  intros r theta padded blurred. split; [apply gradThreshold_formula|]. split.
  - unfold heightMapOutlines. fold padded.
    unfold _gaussian_blur_sigma. fold blurred. fold r theta.
    rewrite gradThreshold_formula. reflexivity.
  - intros i j Hj. rewrite gt_scalar_get by exact Hj. apply np_gt_iff.
Qed.


End GradThresholdFacts.

(** ** BlockSupportGenerator: the loop over the overhang regions *)


Section RegionLoopFacts.
Context `{Geometry}.
Import BlockSupportGenerator.






End RegionLoopFacts.

(** ** BlockSupportGenerator: the [intersectsPart] flag of the emitted blocks *)

Section IntersectsPartFacts.
Context `{Geometry}.
Import BlockSupportGenerator.

Lemma emit_block_flagged (part : Part) (subregion cutMesh : Mesh) (faces : list Face)
      (coords2 coords3 : list Pt3) (blocks : list SupportStructure.t) :
  all_flagged blocks ->
  all_flagged (emit_block part subregion cutMesh faces coords2 coords3 blocks).
Proof.
  intro Hblocks. unfold emit_block, all_flagged.
  apply Forall_app. split; [exact Hblocks|]. constructor; [reflexivity | constructor].
Qed.

Lemma polygon_step_flagged (self : BlockSupportGenerator.t) (part : Part)
      (subregion cutMesh cutMeshUpper : Mesh)
      (blocks blocks' : list SupportStructure.t) (bufferPoly : Poly) :
  all_flagged blocks ->
  polygon_step self part subregion cutMesh cutMeshUpper blocks bufferPoly = Ok blocks' ->
  all_flagged blocks'.
Proof.
  intros Hblocks. unfold polygon_step.
  destruct (np.lt (poly_area bufferPoly) (_minimumAreaThreshold self)).
  { intro Hrun. injection Hrun as <-. exact Hblocks. }
  intro Hrun. apply bind_Ok in Hrun as (coords2 & _ & Hrun).
  destruct (np.gt (volume cutMesh) _intersectionVolumeTolerance);
    cbv zeta in Hrun;
    repeat match type of Hrun with
           | (if ?c then _ else _) = _ => destruct c
           | bind _ _ = Ok _ => apply bind_Ok in Hrun as (? & _ & Hrun)
           end;
    try discriminate;
    injection Hrun as <-; try exact Hblocks; apply emit_block_flagged; exact Hblocks.
Qed.

Lemma heightmap_step_flagged (self : BlockSupportGenerator.t) (part : Part)
      (st st' : locals) (subregion cutMesh : Mesh) (bbox : BBox) :
  all_flagged (supportBlockRegions st) ->
  heightmap_step self part st subregion cutMesh bbox = Ok st' ->
  all_flagged (supportBlockRegions st').
Proof.
  intros Hst. unfold heightmap_step.
  destruct (offsetPoly st) as [offsetPoly_|]; [|discriminate].
  intro Hrun.
  apply bind_Ok in Hrun as (maps & _ & Hrun).
  apply bind_Ok in Hrun as (polygons & _ & Hrun).
  apply bind_Ok in Hrun as (blocks & Hloop & Hrun).
  injection Hrun as <-. simpl.
  eapply for_each_invariant; [|exact Hst|exact Hloop].
  intros s x s' Hs Hstep. eapply polygon_step_flagged; eauto.
Qed.

(** With [useApproxBasePlateSupport] off (the default), every block the
    call returns carries [intersectsPart = True], whatever the volume cut
    out of the part and whatever [findSelfIntersectingSupport]. *)
Lemma identifySupportRegions_all_flagged
      (self : BlockSupportGenerator.t) (part : Part) (overhangAngle : Q) (find : bool)
      (blocks : list SupportStructure.t) :
  _useApproxBasePlateSupport self = false ->
  identifySupportRegions self part overhangAngle find = Ok blocks ->
  all_flagged blocks.
Proof.
  intros Happrox. unfold identifySupportRegions, processSubregions.
  intro Hrun. apply bind_Ok in Hrun as (st & Hloop & Hrun). injection Hrun as <-.
  pose proof (for_each_invariant (fun s => all_flagged (supportBlockRegions s))
                (subregion_step self part find)
                (getOverhangMesh part overhangAngle true)) as Hinv.
  cbv beta in Hinv.
  refine (Hinv _ (mkLocals None []) st (Forall_nil _) Hloop).
  clear - Happrox. intros s subregion s' Hs. unfold subregion_step.
  destruct (SupportStructure.flattenSupportRegion subregion) as [polygon|e];
    [|intro Hrun; injection Hrun as <-; exact Hs].
  destruct (np.lt _ _); [intro Hrun; injection Hrun as <-; exact Hs|].
  assert (Hstep : forall st1 st2,
             all_flagged (supportBlockRegions st1) ->
             intersect_step self part find st1 subregion = Ok st2 ->
             all_flagged (supportBlockRegions st2)).
  { intros st1 st2 H1. unfold intersect_step. rewrite Happrox.
    destruct (np.lt _ _); [apply heightmap_step_flagged; exact H1|].
    destruct (negb find); [intro Hrun; injection Hrun as <-; exact H1|].
    apply heightmap_step_flagged; exact H1. }
  destruct (buffer _ _) as [p|geoms].
  - apply Hstep. exact Hs.
  - destruct (filter _ _) as [|path rest];
      [intro Hrun; injection Hrun as <-; exact Hs|].
    intro Hrun. apply bind_Ok in Hrun as (op & _ & Hrun).
    revert Hrun. apply Hstep. exact Hs.
Qed.

(** With [findSelfIntersectingSupport] off, a region whose prism cuts at
    least the tolerance out of the part emits nothing. *)
Lemma intersect_step_skips_self_intersecting
      (self : BlockSupportGenerator.t) (part : Part) (st : locals) (subregion : Mesh) :
  ~ volume (boolIntersect (geometry part) (extrude_region subregion))
    < _intersectionVolumeTolerance ->
  intersect_step self part false st subregion = Ok st.
Proof.
  intro Hvol. unfold intersect_step.
  destruct (np.lt _ _) eqn:E; [apply np_lt_iff in E; contradiction | reflexivity].
Qed.

End IntersectsPartFacts.

(** ** BaseSupportGenerator: overhang edges *)

Lemma for_each_total {S A : Type} (body : S -> A -> result S) (xs : list A) :
  (forall s x, In x xs -> exists s', body s x = Ok s') ->
  forall s, exists s', for_each body xs s = Ok s'.
Proof.
  induction xs as [|x xs IH]; intros Hbody s; simpl; [eauto|].
  destruct (Hbody s x (or_introl eq_refl)) as [s1 ->]. simpl.
  apply IH. intros s2 y Hy. apply Hbody. right. exact Hy.
Qed.

Lemma nth_error_combine {A B : Type} (a : list A) (b : list B) (k : nat) (x : A) (y : B) :
  nth_error (combine a b) k = Some (x, y)
  <-> nth_error a k = Some x /\ nth_error b k = Some y.
Proof.
  revert b k. induction a as [|a0 a IH]; intros [|b0 b] [|k]; simpl;
    try (split; [discriminate | intros [? ?]; discriminate]).
  - split; [intro E; injection E as -> ->; auto | intros [E1 E2]; congruence].
  - apply IH.
Qed.

Lemma In_combine_seq {A : Type} (l : list A) (s i : nat) (x : A) :
  In (i, x) (combine (seq s (List.length l)) l)
  <-> exists k, i = (s + k)%nat /\ nth_error l k = Some x.
Proof.
  revert s. induction l as [|a l IH]; intro s; simpl.
  - split; [contradiction | intros (k & _ & Hk); destruct k; discriminate].
  - rewrite IH. split.
    + intros [E | (k & -> & Hk)].
      * injection E as <- <-. exists 0%nat. split; [lia | reflexivity].
      * exists (S k). split; [lia | exact Hk].
    + intros ([|k] & -> & Hk); simpl in Hk.
      * left. injection Hk as ->. f_equal. lia.
      * right. exists k. split; [lia | exact Hk].
Qed.

Lemma index_Ok {A : Type} (a : list A) (i : nat) (v : A) :
  np.index a i = Ok v <-> nth_error a i = Some v.
Proof.
  unfold np.index. destruct (nth_error a i); split; intro E;
    try discriminate; congruence.
Qed.

Section OverhangEdgeFacts.
Context `{Geometry}.
Import BaseSupportGenerator.

Lemma Rltb_iff (x y : R) : Rltb x y = true <-> (x < y)%R.
Proof.
  unfold Rltb. destruct (Rlt_dec x y); split; intro E;
    try assumption; try reflexivity; try discriminate; contradiction.
Qed.

Lemma edge_step_spec (part : Part) (oa ea : Q) (acc acc' : list Edge)
      (i : nat) (e : Edge) (v0 v1 : Pt3) :
  edge_step part oa ea (getSupportAngles part (0, 0, 1)) acc (i, (e, (v0, v1))) = Ok acc' ->
  (acc' = acc ++ [e] /\ item_selected part oa ea i v0 v1)
  \/ (acc' = acc /\ ~ item_selected part oa ea i v0 v1).
Proof.
  unfold edge_step, item_selected, abs_lt.
  destruct (edge_vertical_angle v0 v1) as [ang|] eqn:Eang.
  2:{ intro E. injection E as <-. right. split; [reflexivity|].
      intros (ang & ? & ? & ? & ? & Habs & _). discriminate. }
  destruct (Rltb (Rabs ang) (Q2R ea)) eqn:Eabs.
  2:{ intro E. injection E as <-. right. split; [reflexivity|].
      intros (ang' & ? & ? & ? & ? & Hang & Hlt & _).
      injection Hang as <-. apply Rltb_iff in Hlt. congruence. }
  apply Rltb_iff in Eabs.
  intro Hrun.
  apply bind_Ok in Hrun as (fa & Hfa & Hrun). apply index_Ok in Hfa.
  apply bind_Ok in Hrun as (a & Ha & Hrun). apply index_Ok in Ha.
  destruct (Rltb (Q2R oa) (np.rad2deg (Q2R a))) eqn:Eadj.
  2:{ injection Hrun as <-. right. split; [reflexivity|].
      intros (? & ? & a' & ? & ? & _ & _ & _ & Ha' & Hlt & _).
      rewrite Ha in Ha'. injection Ha' as <-. apply Rltb_iff in Hlt. congruence. }
  apply Rltb_iff in Eadj.
  apply bind_Ok in Hrun as (t0 & Ht0 & Hrun). apply index_Ok in Ht0.
  apply bind_Ok in Hrun as (t1 & Ht1 & Hrun). apply index_Ok in Ht1.
  destruct (np.gt t0 89 && np.gt t1 89) eqn:Eth; injection Hrun as <-.
  - apply andb_true_iff in Eth as [E0 E1].
    apply np_gt_iff in E0. apply np_gt_iff in E1.
    left. split; [reflexivity|]. exists ang, fa, a, t0, t1. repeat split; assumption.
  - right. split; [reflexivity|].
    intros (? & fa' & ? & t0' & t1' & _ & _ & Hfa' & _ & _ & Ht0' & Ht1' & H0 & H1).
    rewrite Hfa in Hfa'. injection Hfa' as <-.
    rewrite Ht0 in Ht0'. injection Ht0' as <-.
    rewrite Ht1 in Ht1'. injection Ht1' as <-.
    apply np_gt_iff in H0. apply np_gt_iff in H1. rewrite H0, H1 in Eth. discriminate.
Qed.

Lemma edge_loop_spec (part : Part) (oa ea : Q)
      (items : list (nat * (Edge * (Pt3 * Pt3)))) :
  forall acc l,
    for_each (edge_step part oa ea (getSupportAngles part (0, 0, 1))) items acc = Ok l ->
    forall e, In e l <->
              In e acc
              \/ exists i v0 v1, In (i, (e, (v0, v1))) items
                                 /\ item_selected part oa ea i v0 v1.
Proof.
  induction items as [|[i [e0 [v0 v1]]] items IH]; intros acc l Hrun e.
  - simpl in Hrun. injection Hrun as <-. split; [auto|].
    intros [Hin | (? & ? & ? & [] & _)]. exact Hin.
  - simpl in Hrun. apply bind_Ok in Hrun as (acc1 & Hstep & Hrest).
    rewrite (IH _ _ Hrest e).
    apply edge_step_spec in Hstep as [[-> Hsel] | [-> Hsel]].
    + rewrite in_app_iff. simpl. split.
      * intros [[Hin | [<- | []]] | (i' & w0 & w1 & Hin & Hs)].
        -- left. exact Hin.
        -- right. exists i, v0, v1. split; [left; reflexivity | exact Hsel].
        -- right. exists i', w0, w1. split; [right; exact Hin | exact Hs].
      * intros [Hin | (i' & w0 & w1 & [E | Hin] & Hs)].
        -- left. left. exact Hin.
        -- injection E as <- <- <- <-. left. right. left. reflexivity.
        -- right. exists i', w0, w1. split; assumption.
    + simpl. split.
      * intros [Hin | (i' & w0 & w1 & Hin & Hs)]; [left; exact Hin|].
        right. exists i', w0, w1. split; [right; exact Hin | exact Hs].
      * intros [Hin | (i' & w0 & w1 & [E | Hin] & Hs)]; [left; exact Hin| |].
        -- injection E as <- <- <- <-. contradiction.
        -- right. exists i', w0, w1. split; assumption.
Qed.

Lemma edge_vertices_spec (verts : list Pt3) (edges : list Edge) :
  forall ev, edge_vertices verts edges = Ok ev ->
    List.length ev = List.length edges
    /\ forall k e v0 v1,
         nth_error edges k = Some e ->
         (nth_error ev k = Some (v0, v1)
          <-> nth_error verts (fst e) = Some v0 /\ nth_error verts (snd e) = Some v1).
Proof.
  induction edges as [|[a b] edges IH]; intros ev Hrun; simpl in Hrun.
  - injection Hrun as <-. split; [reflexivity|]. intros [|k]; discriminate.
  - apply bind_Ok in Hrun as (w0 & H0 & Hrun). apply index_Ok in H0.
    apply bind_Ok in Hrun as (w1 & H1 & Hrun). apply index_Ok in H1.
    apply bind_Ok in Hrun as (rest & Hrest & Hrun). injection Hrun as <-.
    destruct (IH _ Hrest) as [Hlen Hnth]. split; [simpl; f_equal; exact Hlen|].
    intros [|k] e v0 v1 He; simpl in *.
    + injection He as <-. simpl. split.
      * intro E. injection E as <- <-. split; assumption.
      * intros [E0 E1]. congruence.
    + apply Hnth. exact He.
Qed.

End OverhangEdgeFacts.

Section OverhangEdgeTheorem.
Context `{Geometry}.
Import BaseSupportGenerator.

Lemma index_in_range {A : Type} (a : list A) (i : nat) :
  (i < List.length a)%nat -> exists v, np.index a i = Ok v /\ nth_error a i = Some v.
Proof.
  intro Hi. unfold np.index. destruct (nth_error a i) as [v|] eqn:E; [eauto|].
  apply nth_error_None in E. lia.
Qed.

Lemma edge_vertices_total (verts : list Pt3) (edges : list Edge) :
  forallb (fun e : Edge => Nat.ltb (fst e) (List.length verts)
                           && Nat.ltb (snd e) (List.length verts)) edges = true ->
  exists ev, edge_vertices verts edges = Ok ev.
Proof.
  induction edges as [|[a b] edges IH]; simpl; intro Hall; [eauto|].
  apply andb_true_iff in Hall as [Hab Hall].
  apply andb_true_iff in Hab as [Ha Hb].
  apply Nat.ltb_lt in Ha. apply Nat.ltb_lt in Hb.
  destruct (index_in_range verts a Ha) as (v0 & -> & _).
  destruct (index_in_range verts b Hb) as (v1 & -> & _).
  destruct (IH Hall) as [ev ->]. simpl. eauto.
Qed.

Lemma edge_step_total (part : Part) (oa ea : Q) (acc : list Edge)
      (i : nat) (e : Edge) (v0 v1 : Pt3) :
  mesh_indices_ok part = true ->
  (i < List.length (edges_unique (geometry part)))%nat ->
  exists acc',
    edge_step part oa ea (getSupportAngles part (0, 0, 1)) acc (i, (e, (v0, v1))) = Ok acc'.
Proof.
  unfold mesh_indices_ok. cbv zeta. intros Hok Hi.
  apply andb_true_iff in Hok as [Hok Hfaces].
  apply andb_true_iff in Hok as [Hok Hangles].
  apply andb_true_iff in Hok as [_ Hadj].
  apply Nat.leb_le in Hangles. apply Nat.leb_le in Hadj.
  unfold edge_step.
  destruct (abs_lt _ _); [|eauto].
  destruct (index_in_range (face_adjacency (geometry part)) i) as (fa & -> & Hfa); [lia|].
  destruct (index_in_range (face_adjacency_angles (geometry part)) i) as (a & -> & _); [lia|].
  simpl.
  destruct (Rltb _ _); [|eauto].
  rewrite forallb_forall in Hfaces.
  specialize (Hfaces fa (nth_error_In _ _ Hfa)).
  apply andb_true_iff in Hfaces as [H0 H1].
  apply Nat.ltb_lt in H0. apply Nat.ltb_lt in H1.
  destruct (index_in_range (getSupportAngles part (0, 0, 1)) (fst fa) H0) as (t0 & -> & _).
  destruct (index_in_range (getSupportAngles part (0, 0, 1)) (snd fa) H1) as (t1 & -> & _).
  simpl. destruct (np.gt t0 89 && np.gt t1 89); eauto.
Qed.

(** C3 (as amended). [findOverhangEdges] returns exactly the edges
    [edges_unique[i]] whose vertical inclination is below [edgeAngle] in
    magnitude, whose [i]-th face-adjacency angle exceeds [surfaceAngle],
    and for which both faces of the [i]-th adjacency pair are inclined
    from +z by more than the fixed 89 degrees; on a mesh whose indices are
    in range the call returns. *)
Theorem findOverhangEdges_selects (part : Part) (surfaceAngle edgeAngle : Q) :
  (forall l, findOverhangEdges part surfaceAngle edgeAngle = Ok l ->
             forall e, In e l <-> exists i, edge_selected 89 part surfaceAngle edgeAngle i e)
  /\ (mesh_indices_ok part = true ->
      exists l, findOverhangEdges part surfaceAngle edgeAngle = Ok l).
Proof.
  split.
  - intros l Hrun e. unfold findOverhangEdges in Hrun. cbv zeta in Hrun.
    apply bind_Ok in Hrun as (ev & Hev & Hloop).
    destruct (edge_vertices_spec _ _ _ Hev) as [Hlen Hnth].
    replace (List.length ev)
      with (List.length (combine (edges_unique (geometry part)) ev)) in Hloop
      by (rewrite length_combine; lia).
    rewrite (edge_loop_spec _ _ _ _ _ _ Hloop e). split.
    + intros [[] | (i & v0 & v1 & Hin & ang & fa & a & t0 & t1 & Hsel)].
      apply In_combine_seq in Hin as (k & -> & Hk). simpl in Hk |- *.
      apply nth_error_combine in Hk as [Hedge Hverts].
      apply (Hnth _ _ _ _ Hedge) in Hverts as [Hv0 Hv1].
      exists k, v0, v1, ang, fa, a, t0, t1. simpl in Hsel. tauto.
    + intros (i & v0 & v1 & ang & fa & a & t0 & t1 & Hedge & Hv0 & Hv1 & Hsel).
      right. exists i, v0, v1. split.
      * apply In_combine_seq. exists i. split; [reflexivity|].
        apply nth_error_combine. split; [exact Hedge|].
        apply (Hnth _ _ _ _ Hedge). split; assumption.
      * exists ang, fa, a, t0, t1. tauto.
  - intro Hok. unfold findOverhangEdges. cbv zeta.
    assert (Hedges := Hok). unfold mesh_indices_ok in Hedges. cbv zeta in Hedges.
    apply andb_true_iff in Hedges as [Hedges _].
    apply andb_true_iff in Hedges as [Hedges _].
    apply andb_true_iff in Hedges as [Hedges _].
    destruct (edge_vertices_total _ _ Hedges) as [ev Hev]. rewrite Hev. simpl.
    destruct (edge_vertices_spec _ _ _ Hev) as [Hlen _].
    apply for_each_total. intros acc [i [e [v0 v1]]] Hin.
    apply edge_step_total; [exact Hok|].
    apply in_combine_l in Hin. apply in_seq in Hin. lia.
Qed.

End OverhangEdgeTheorem.

(** C1 (the code at the failing input). For the cantilever plate the prism
    cuts nothing out of the part (volume 0, below the tolerance 50), the
    downward projection is skipped and the bottom cap lies on Z = 0; the
    block is returned with [intersectsPart = True]. *)
Theorem base_plate_block_flagged_intersecting :
  @BlockSupportGenerator.identifySupportRegions
    Runs.G1 BlockSupportGenerator.new Symbolic.cantilever 45 true
  = Ok [Runs.cantilever_block]
  /\ @volume Runs.G1 Runs.cantilever_cut == 0
  /\ @volume Runs.G1 (@boolIntersect Runs.G1 (@geometry Runs.G1 Symbolic.cantilever)
                                     Runs.cantilever_volume) == 0
  /\ Forall (fun p => pz p == 0) Runs.cantilever_bottom
  /\ SupportStructure.intersectsPart Runs.cantilever_block = true.
Proof.
  split; [vm_compute; reflexivity|].
  split; [reflexivity|]. split; [reflexivity|].
  split; [repeat constructor | reflexivity].
Qed.

(** C2 (the code at the failing input). With
    [findSelfIntersectingSupport = False] the same plate still yields its
    base-plate block, and the block carries [intersectsPart = True]. *)
Theorem flag_off_block_flagged_intersecting :
  @BlockSupportGenerator.identifySupportRegions
    Runs.G1 BlockSupportGenerator.new Symbolic.cantilever 45 false
  = Ok [Runs.cantilever_block]
  /\ SupportStructure.intersectsPart Runs.cantilever_block = true
  /\ ~ Forall (fun b => SupportStructure.intersectsPart b = false) [Runs.cantilever_block].
Proof.
  split; [vm_compute; reflexivity|]. split; [reflexivity|].
  intro Hall. inversion Hall as [|b bs Hb _]. discriminate Hb.
Qed.

(** The ridge edge is horizontal and its faces meet at 2 radians, more
    than 45 degrees; it passes a bound on the face inclination that lies
    below the inclination of its faces. *)
Lemma ridge_selected (bound theta : Q) :
  bound < theta ->
  @edge_selected (Symbolic.geom []) bound (Runs.ridge_with theta) 45 10 0 (0, 1)%nat.
Proof.
  intro Hbound. unfold edge_selected. cbv zeta.
  exists (0, 0, 0), (1, 0, 0).
  eexists. exists (0, 1)%nat, 2, theta, theta.
  repeat split; try reflexivity; try exact Hbound.
  - match goal with
    | |- (Rabs (np.rad2deg (asin ?x)) < _)%R => replace x with 0%R
    end.
    + rewrite asin_0. unfold np.rad2deg. rewrite Rmult_0_l, Rabs_R0.
      unfold Q2R. simpl. lra.
    + unfold Q2R at 1. simpl. unfold Rdiv. ring.
  - unfold np.rad2deg, Q2R. simpl.
    pose proof PI_RGT_0. pose proof PI_4.
    replace (2 * / 1 * (180 / PI))%R with (360 / PI)%R by (field; lra).
    apply (Rmult_lt_reg_r PI); [lra|].
    replace (360 / PI * PI)%R with 360%R by (field; lra). lra.
Qed.

(** C3 (counterexample). The horizontal ridge edge meets the three
    conditions of the claim for [surfaceAngle = 45] and [edgeAngle = 10]:
    its faces are inclined by 60 degrees and meet at 2 radians.  It is not
    returned. *)
Lemma ridge_edge_not_returned :
  @claimed_overhang_edge (Symbolic.geom []) Runs.ridge 45 10 0 (0, 1)%nat
  /\ exists l,
       @BaseSupportGenerator.findOverhangEdges (Symbolic.geom []) Runs.ridge 45 10 = Ok l
       /\ ~ In (0, 1)%nat l.
Proof.
  split.
  - apply ridge_selected. reflexivity.
  - exists []. split; [|intros []].
    unfold BaseSupportGenerator.findOverhangEdges. simpl.
    unfold BaseSupportGenerator.edge_step. simpl.
    repeat match goal with
           | |- context [BaseSupportGenerator.Rltb ?a ?b] =>
               destruct (BaseSupportGenerator.Rltb a b)
           end; reflexivity.
Qed.

(** ** The theorems at concrete inputs *)

(** The ridge between two vertical faces: the indices are in range, the
    call returns and the edge is among the edges returned. *)
Lemma findOverhangEdges_selects_witness :
  @mesh_indices_ok (Symbolic.geom []) Runs.steep_ridge = true
  /\ exists l,
       @BaseSupportGenerator.findOverhangEdges (Symbolic.geom []) Runs.steep_ridge 45 10 = Ok l
       /\ In (0, 1)%nat l.
Proof.
  split; [reflexivity|].
  destruct (proj2 (@findOverhangEdges_selects (Symbolic.geom []) Runs.steep_ridge 45 10)
                  eq_refl) as [l Hl].
  exists l. split; [exact Hl|].
  apply (proj1 (@findOverhangEdges_selects (Symbolic.geom []) Runs.steep_ridge 45 10) l Hl).
  exists 0%nat. apply ridge_selected. reflexivity.
Defined.

(** A pixel of height 10 of a padded 2 x 2 map lies under the mask. *)
Lemma outlines_at_gradThreshold_witness :
  2 < np.get (np.pad2 [[10; 10]; [10; 10]] 1) 2 2.
Proof.
  apply (proj2 (proj2 (@outlines_at_gradThreshold Runs.G1 BlockSupportGenerator.new
                                                  [[10; 10]; [10; 10]]))
               2%nat 2%nat).
  - simpl. lia.
  - reflexivity.
Defined.

(** Upper raster at 10, lower raster at 4 (above 1.01): the map holds 4. *)
Lemma heightMap_selects_lower_or_upper_witness :
  exists heightMap2 : Image,
    @BlockSupportGenerator._identifySelfIntersectionHeightMap
      Runs.G1 BlockSupportGenerator.new (Symbolic.Overhang Symbolic.arch_region) []
      (Symbolic.Upper (Symbolic.Overhang Symbolic.arch_region) [])
      ((0, 0, 0), (20, 10, 10))
    = Ok (np.T heightMap2, [[10; 10; 10]; [10; 10; 10]], [[4; 4; 4]; [4; 4; 4]])
    /\ np.get (np.T heightMap2) 2 1 = 4.
Proof.
  destruct (@heightMap_selects_lower_or_upper
              Runs.G1 BlockSupportGenerator.new (Symbolic.Overhang Symbolic.arch_region)
              (Symbolic.Upper (Symbolic.Overhang Symbolic.arch_region) []) []
              0 0 0 20 10 10 2%nat 3%nat)
    as (heightMap2 & Hrun & Hpixel).
  - split; [reflexivity | repeat constructor].
  - split; [reflexivity | repeat constructor].
  - exists heightMap2. split; [exact Hrun|].
    exact (proj1 (proj2 (Hpixel 2%nat 1%nat ltac:(lia) ltac:(lia)))).
Defined.


(** The grid slices of the centred 10 x 10 x 10 block. *)
Lemma generateGridSlices_offsets_witness :
  exists midX heightsX midY heightsY,
    @GridBlockSupport.generateGridSlices Runs.G1 Runs.centred_support
    = Ok (@section_multiplane Runs.G1 Runs.centred_box (midX, 0, 0) (1, 0, 0) heightsX,
          @section_multiplane Runs.G1 Runs.centred_box (0, midY, 0) (0, 1, 0) heightsY)
    /\ Forall2 Qeq (map (fun h => midX + h) heightsX) [-6; -3; 0; 3; 6]
    /\ Forall2 Qeq (map (fun h => midY + h) heightsY) [-6; -3; 0; 3; 6]
    /\ Forall2 Qeq (map Qopp (rev heightsX)) heightsX
    /\ Forall2 Qeq (map Qopp (rev heightsY)) heightsY.
Proof.
  exact (@generateGridSlices_offsets Runs.G1 Runs.centred_support Runs.centred_box
                                     0 (10 + (1 # 100) - (1 # 100))
                                     eq_refl eq_refl eq_refl).
Defined.


(** * Further properties *)

From Stdlib Require Import Psatz.

(** ** findOverhangPoints *)

Section OverhangPointFacts.
Context `{MeshQueries}.

Lemma take_vertices_spec (meshVerts : list Pt3) (idx : list nat) (vs : list Pt3) :
  take_vertices meshVerts idx = Ok vs
  <-> Forall2 (fun j nv => nth_error meshVerts j = Some nv) idx vs.
Proof.
  revert vs. induction idx as [|j idx IH]; intro vs; simpl.
  - split.
    + intro E. injection E as <-. constructor.
    + intro F. inversion F. reflexivity.
  - split.
    + intro Hrun.
      apply bind_Ok in Hrun as (v & Hv & Hrun). apply index_Ok in Hv.
      apply bind_Ok in Hrun as (rest & Hrest & Hrun). injection Hrun as <-.
      constructor; [exact Hv | apply IH; exact Hrest].
    + intro F. inversion F as [|? nv ? rest Hv Hrest]; subst.
      apply index_Ok in Hv. rewrite Hv. simpl.
      apply IH in Hrest. rewrite Hrest. reflexivity.
Qed.

Lemma Forall2_functional (meshVerts : list Pt3) (idx : list nat) (vs ws : list Pt3) :
  Forall2 (fun j nv => nth_error meshVerts j = Some nv) idx vs ->
  Forall2 (fun j nv => nth_error meshVerts j = Some nv) idx ws ->
  vs = ws.
Proof.
  intros Hvs Hws. apply take_vertices_spec in Hvs. apply take_vertices_spec in Hws.
  congruence.
Qed.

Lemma all_above_iff (v : Pt3) (neighborVerts : list Pt3) :
  forallb (fun dz => np.gt dz (- BaseSupportGenerator.POINT_OVERHANG_TOLERANCE))
          (map (fun nv => pz nv - pz v) neighborVerts) = true
  <-> Forall (fun nv => - (5 # 100) < pz nv - pz v) neighborVerts.
Proof.
  rewrite forallb_forall, Forall_forall. split.
  - intros Hall nv Hin. apply np_gt_iff. apply Hall. apply in_map_iff. eauto.
  - intros Hall dz Hin. apply in_map_iff in Hin as (nv & <- & Hin).
    apply np_gt_iff. apply Hall. exact Hin.
Qed.

Lemma point_step_spec (part : Part) (acc acc' : list nat) (i : nat) :
  point_step part acc i = Ok acc' ->
  (acc' = acc ++ [i] /\ overhang_point part i)
  \/ (acc' = acc /\ ~ overhang_point part i).
Proof.
  unfold point_step, overhang_point. cbv zeta. intro Hrun.
  apply bind_Ok in Hrun as (v & Hv & Hrun). apply index_Ok in Hv.
  apply bind_Ok in Hrun as (nbrs & Hn & Hrun). apply index_Ok in Hn.
  apply bind_Ok in Hrun as (nvs & Hnvs & Hrun). apply take_vertices_spec in Hnvs.
  destruct (forallb _ _) eqn:Eall.
  - apply all_above_iff in Eall.
    apply bind_Ok in Hrun as (normal & Hnormal & Hrun). apply index_Ok in Hnormal.
    destruct (np.lt (pz normal) 0) eqn:Elt; injection Hrun as <-.
    + apply np_lt_iff in Elt. left. split; [reflexivity|].
      exists v, nbrs, nvs, normal. repeat split; assumption.
    + right. split; [reflexivity|].
      intros (v' & nbrs' & nvs' & normal' & _ & _ & _ & _ & Hnormal' & Hlt).
      rewrite Hnormal in Hnormal'. injection Hnormal' as <-.
      apply np_lt_iff in Hlt. congruence.
  - injection Hrun as <-. right. split; [reflexivity|].
    intros (v' & nbrs' & nvs' & normal' & Hv' & Hn' & Hnvs' & Hall & _).
    rewrite Hv in Hv'. injection Hv' as <-.
    rewrite Hn in Hn'. injection Hn' as <-.
    rewrite (Forall2_functional _ _ _ _ Hnvs Hnvs') in Eall.
    apply all_above_iff in Hall. congruence.
Qed.

Lemma point_loop_spec (part : Part) (n : nat) :
  forall s acc l,
    for_each (point_step part) (seq s n) acc = Ok l ->
    exists found,
      l = acc ++ found
      /\ StronglySorted lt found
      /\ forall i, In i found <-> (s <= i < s + n)%nat /\ overhang_point part i.
Proof.
  induction n as [|n IH]; intros s acc l Hrun; simpl in Hrun.
  - injection Hrun as <-. exists []. rewrite app_nil_r.
    split; [reflexivity|]. split; [constructor|].
    intro i. simpl. split; [contradiction | intros [Hi _]; lia].
  - apply bind_Ok in Hrun as (acc1 & Hstep & Hrest).
    destruct (IH _ _ _ Hrest) as (found & -> & Hsorted & Hfound).
    apply point_step_spec in Hstep as [[-> Hsel] | [-> Hsel]].
    + exists (s :: found). rewrite <- app_assoc. split; [reflexivity|]. split.
      * constructor; [exact Hsorted|].
        apply Forall_forall. intros i Hi. apply Hfound in Hi. lia.
      * intro i. simpl. rewrite Hfound. split.
        -- intros [<- | [Hi Hp]]; split; try assumption; lia.
        -- intros [Hi Hp]. destruct (Nat.eq_dec s i) as [E|E]; [left; exact E|].
           right. split; [lia | exact Hp].
    + exists found. split; [reflexivity|]. split; [exact Hsorted|].
      intro i. rewrite Hfound. split.
      * intros [Hi Hp]. split; [lia | exact Hp].
      * intros [Hi Hp]. split; [|exact Hp].
        destruct (Nat.eq_dec s i) as [E|E]; [subst; contradiction | lia].
Qed.

Lemma overhang_point_in_range (part : Part) (i : nat) :
  overhang_point part i ->
  (i < List.length (vertex_neighbors (geometry part)))%nat.
Proof.
  intros (v & nbrs & nvs & normal & _ & Hn & _). apply nth_error_Some. congruence.
Qed.

Lemma take_vertices_total (meshVerts : list Pt3) (idx : list nat) :
  forallb (fun j => Nat.ltb j (List.length meshVerts)) idx = true ->
  exists vs, take_vertices meshVerts idx = Ok vs.
Proof.
  induction idx as [|j idx IH]; simpl; intro Hall; [eauto|].
  apply andb_true_iff in Hall as [Hj Hall]. apply Nat.ltb_lt in Hj.
  destruct (index_in_range meshVerts j Hj) as (v & -> & _).
  destruct (IH Hall) as [vs ->]. simpl. eauto.
Qed.

(** X1. [findOverhangPoints] returns exactly the vertices whose connected
    neighbours all lie higher than the vertex minus the tolerance 0.05 and
    whose vertex normal has a negative Z component; on a mesh whose indices
    are in range the call returns. *)
Theorem findOverhangPoints_selects (part : Part) :
  (forall l, findOverhangPoints part = Ok l ->
             forall i, In i l <-> overhang_point part i)
  /\ (points_indices_ok part = true -> exists l, findOverhangPoints part = Ok l).
Proof.
  split.
  - intros l Hrun i. unfold findOverhangPoints in Hrun. cbv zeta in Hrun.
    destruct (point_loop_spec _ _ _ _ _ Hrun) as (found & -> & _ & Hfound).
    simpl. rewrite Hfound. split; [tauto|].
    intro Hp. split; [|exact Hp]. pose proof (overhang_point_in_range _ _ Hp). lia.
  - unfold points_indices_ok. cbv zeta. intro Hok.
    apply andb_true_iff in Hok as [Hok Hnbrs].
    apply andb_true_iff in Hok as [Hverts Hnormals].
    apply Nat.leb_le in Hverts. apply Nat.leb_le in Hnormals.
    unfold findOverhangPoints. cbv zeta.
    apply for_each_total. intros acc i Hi. apply in_seq in Hi.
    unfold point_step. cbv zeta.
    destruct (index_in_range (vertices (geometry part)) i) as (v & -> & _); [lia|].
    destruct (index_in_range (vertex_neighbors (geometry part)) i)
      as (nbrs & -> & Hn); [lia|].
    simpl.
    rewrite forallb_forall in Hnbrs. specialize (Hnbrs nbrs (nth_error_In _ _ Hn)).
    destruct (take_vertices_total _ _ Hnbrs) as [nvs ->]. simpl. clear Hnbrs.
    destruct (forallb _ _); [|eauto].
    destruct (index_in_range (vertex_normals (geometry part)) i) as (nrm & -> & _); [lia|].
    simpl. destruct (np.lt _ _); eauto.
Qed.


End OverhangPointFacts.

(** The apex of the downward pyramid is its only overhang point. *)
Lemma findOverhangPoints_selects_witness :
  @points_indices_ok _ pyramid_queries pyramid = true
  /\ exists l, @findOverhangPoints _ pyramid_queries pyramid = Ok l.
Proof.
  split; [reflexivity|].
  exact (proj2 (@findOverhangPoints_selects _ pyramid_queries pyramid) eq_refl).
Defined.


(** ** generateGridSlices for an arbitrary bounding box *)




Section GridSliceGeneral.
Context `{Geometry}.


End GridSliceGeneral.


(** ** gradThreshold as a function of the overhang angle *)

Lemma Q2R_const (n : Z) : Q2R (inject_Z n) = IZR n.
Proof. unfold Q2R. simpl. field. Qed.

(** X4. For a positive ray resolution the gradient threshold grows strictly
    with the overhang angle between -90 and 90 degrees; it is 0 at 0
    degrees and 5 times the resolution at 45 degrees. *)
Theorem gradThreshold_increasing (r theta1 theta2 : Q) :
  0 < r -> -90 < theta1 -> theta1 < theta2 -> theta2 < 90 ->
  (BlockSupportGenerator.gradThreshold r theta1
   < BlockSupportGenerator.gradThreshold r theta2)%R
  /\ BlockSupportGenerator.gradThreshold r 0 = 0%R
  /\ BlockSupportGenerator.gradThreshold r 45 = (5 * Q2R r)%R.
Proof.
  intros Hr Hlo Hlt Hhi.
  apply Qlt_Rlt in Hr, Hlo, Hlt, Hhi.
  change (-90) with (inject_Z (-90)) in Hlo. change 90 with (inject_Z 90) in Hhi.
  change 0 with (inject_Z 0) in Hr.
  rewrite Q2R_const in Hr, Hlo, Hhi.
  pose proof PI_RGT_0 as Hpi.
  unfold BlockSupportGenerator.gradThreshold, np.deg2rad. split; [|split].
  - apply Rmult_lt_compat_r; [exact Hr|].
    apply Rmult_lt_compat_l; [lra|].
    apply tan_increasing; nra.
  - change 0 with (inject_Z 0). rewrite Q2R_const.
    rewrite Rmult_0_l, tan_0. ring.
  - change 45 with (inject_Z 45). rewrite Q2R_const.
    replace (45 * (PI / 180))%R with (PI / 4)%R by field.
    rewrite tan_PI4. ring.
Qed.

Lemma gradThreshold_increasing_witness :
  (BlockSupportGenerator.gradThreshold (2 # 10) 30
   < BlockSupportGenerator.gradThreshold (2 # 10) 45)%R.
Proof.
  apply (gradThreshold_increasing (2 # 10) 30 45); reflexivity.
Defined.

(** ** The shape of the tooth profile *)

Section ToothProfileFacts.
Context `{Geometry}.
Import GridBlockSupport.

(** X5. When 0 <= topLength <= bottomLength and 0 <= baseInterval, the tooth
    profile is a trapezium followed by a flat interval: its x-coordinates
    run from 0 to the period bottomLength + baseInterval without going
    back, the two flanks have the same width, the crest has the top length
    and lies at the height supportTeethUpperPenetration, and the three base
    vertices lie supportTeethHeight below the crest. *)
Theorem toothProfile_trapezium (self : GridBlockSupport.t) :
  let a := _supportTeethHeight self in
  let b := _supportTeethTopLength self in
  let c := _supportTeethBottomLength self in
  let d := _supportTeethBaseInterval self in
  let pen := _supportTeethUpperPenetration self in
  0 <= b -> b <= c -> 0 <= d ->
  exists p0 p1 p2 p3 p4 : Pt2,
    toothProfile self = [p0; p1; p2; p3; p4]
    /\ fst p0 == 0 /\ fst p4 == c + d
    /\ fst p0 <= fst p1 /\ fst p1 <= fst p2 /\ fst p2 <= fst p3 /\ fst p3 <= fst p4
    /\ fst p1 - fst p0 == fst p3 - fst p2
    /\ fst p2 - fst p1 == b
    /\ snd p1 == pen /\ snd p2 == pen
    /\ snd p0 == pen - a /\ snd p3 == pen - a /\ snd p4 == pen - a.
Proof.
  intros a b c d pen Hb Hbc Hd.
  unfold toothProfile, shift_column1. cbn [map].
  fold a b c d pen. cbn [fst snd].
  do 5 eexists. split; [reflexivity|]. cbn [fst snd].
  assert (Hhalf : (c - b) / 2 == (c - b) * (1 # 2)) by field.
  rewrite !Hhalf.
  repeat split; lra.
Qed.

End ToothProfileFacts.

(** The default tooth: 0.1 wide crest on a 1.5 wide base, interval 0.2. *)
Lemma toothProfile_trapezium_witness :
  exists p0 p1 p2 p3 p4 : Pt2,
    @GridBlockSupport.toothProfile Runs.G1 Runs.centred_support = [p0; p1; p2; p3; p4]
    /\ fst p4 == (15 # 10) + (2 # 10)
    /\ snd p1 == 2 # 10.
Proof.
  destruct (@toothProfile_trapezium Runs.G1 Runs.centred_support)
    as (p0 & p1 & p2 & p3 & p4 & Hprofile & _ & Hperiod & _ & _ & _ & _ & _ & _ & Hcrest & _);
    try (vm_compute; discriminate).
  exists p0, p1, p2, p3, p4. split; [exact Hprofile|]. split; [exact Hperiod | exact Hcrest].
Defined.

(** ** identifySupportRegions: what is appended for each region *)

Lemma for_each_appends {A B : Type} (Q : B -> Prop)
      (body : list B -> A -> result (list B)) (xs : list A) :
  (forall s x s', body s x = Ok s' -> exists new, s' = s ++ new /\ Forall Q new) ->
  forall s s', for_each body xs s = Ok s' -> exists new, s' = s ++ new /\ Forall Q new.
Proof.
  intro Hbody. induction xs as [|x xs IH]; simpl; intros s s' Hrun.
  - injection Hrun as <-. exists []. rewrite app_nil_r. split; [reflexivity | constructor].
  - apply bind_Ok in Hrun as (s1 & Hx & Hrest).
    destruct (Hbody _ _ _ Hx) as (new1 & -> & Hnew1).
    destruct (IH _ _ Hrest) as (new2 & -> & Hnew2).
    exists (new1 ++ new2). rewrite app_assoc. split; [reflexivity|].
    apply Forall_app. split; assumption.
Qed.

Lemma set_z_xy (i : nat) (z : Q) (a a' : list Pt3) :
  np.set_z i z a = Ok a' -> map fst a' = map fst a.
Proof.
  revert i a'. induction a as [|[[x y] z0] a IH]; intros i a' Hrun; simpl in Hrun.
  - destruct i; discriminate.
  - destruct i as [|i].
    + injection Hrun as <-. reflexivity.
    + apply bind_Ok in Hrun as (a1 & Ha1 & Hrun). injection Hrun as <-.
      simpl. f_equal. exact (IH _ _ Ha1).
Qed.

Lemma set_z_all_xy (hits : list (nat * Q)) (a a' : list Pt3) :
  np.set_z_all hits a = Ok a' -> map fst a' = map fst a.
Proof.
  revert a a'. induction hits as [|[i z] hits IH]; intros a a' Hrun; simpl in Hrun.
  - injection Hrun as <-. reflexivity.
  - apply bind_Ok in Hrun as (a1 & Ha1 & Hrun).
    rewrite (IH _ _ Hrun). exact (set_z_xy _ _ _ _ Ha1).
Qed.

Section RegionBlocks.
Context `{Geometry}.
Import BlockSupportGenerator.

(** What one iteration of the loop over the polygons does. *)
Lemma polygon_step_cases (self : BlockSupportGenerator.t) (part : Part)
      (subregion cutMesh cutMeshUpper : Mesh)
      (blocks blocks' : list SupportStructure.t) (bufferPoly : Poly) :
  polygon_step self part subregion cutMesh cutMeshUpper blocks bufferPoly = Ok blocks' ->
  let poly_tri := triangulate_polygon bufferPoly (_triangulationSpacing self) in
  blocks' = blocks
  \/ exists coords2 coords3,
       blocks' = emit_block part subregion cutMesh (snd poly_tri) coords2 coords3 blocks
       /\ map fst coords2 = fst poly_tri
       /\ map fst coords3 = fst poly_tri
       /\ (np.gt (volume cutMesh) _intersectionVolumeTolerance = false ->
           Forall (fun p => pz p = 0) coords3).
Proof.
  intros Hrun poly_tri. unfold polygon_step in Hrun. fold poly_tri in Hrun.
  destruct (np.lt (poly_area bufferPoly) (_minimumAreaThreshold self)).
  { injection Hrun as <-. left. reflexivity. }
  apply bind_Ok in Hrun as (coords2 & Hc2 & Hrun).
  apply set_z_all_xy in Hc2.
  assert (Hxy2 : map fst coords2 = fst poly_tri).
  { rewrite Hc2, map_map. rewrite <- (map_id (fst poly_tri)) at 2.
    apply map_ext. intros [x y]. reflexivity. }
  assert (Hxy3 : map fst (map (fun p : Pt3 => (px p, py p, 0)) coords2) = fst poly_tri).
  { rewrite map_map, <- Hxy2. apply map_ext. intros [[x y] z]. reflexivity. }
  assert (Hz3 : Forall (fun p => pz p = 0) (map (fun p : Pt3 => (px p, py p, 0)) coords2)).
  { apply Forall_forall. intros p Hp. apply in_map_iff in Hp as (q & <- & _). reflexivity. }
  cbv zeta in Hrun.
  destruct (np.gt (volume cutMesh) _intersectionVolumeTolerance) eqn:Egt.
  - destruct (_ || _).
    + destruct (Nat.eqb _ 0).
      * injection Hrun as <-. right. eexists _, _. repeat split; eauto.
      * injection Hrun as <-. left. reflexivity.
    + apply bind_Ok in Hrun as (coords3 & Hc3 & Hrun). injection Hrun as <-.
      apply set_z_all_xy in Hc3.
      right. exists coords2, coords3. repeat split; try congruence.
  - destruct (_ || _).
    + simpl in Hrun. injection Hrun as <-.
      right. eexists _, _. repeat split; eauto.
    + discriminate.
Qed.

Lemma polygon_step_appends (self : BlockSupportGenerator.t) (part : Part)
      (subregion cutMesh cutMeshUpper : Mesh)
      (blocks blocks' : list SupportStructure.t) (bufferPoly : Poly) :
  polygon_step self part subregion cutMesh cutMeshUpper blocks bufferPoly = Ok blocks' ->
  exists new, blocks' = blocks ++ new /\ Forall (refined_block part subregion) new.
Proof.
  intro Hrun. apply polygon_step_cases in Hrun.
  destruct Hrun as [-> | (coords2 & coords3 & -> & _)].
  - exists []. rewrite app_nil_r. split; [reflexivity | constructor].
  - unfold emit_block. eexists. split; [reflexivity|].
    constructor; [|constructor]. eexists _, _. reflexivity.
Qed.

Lemma heightmap_step_appends (self : BlockSupportGenerator.t) (part : Part)
      (st st' : locals) (subregion cutMesh : Mesh) (bbox : BBox) :
  heightmap_step self part st subregion cutMesh bbox = Ok st' ->
  exists new,
    supportBlockRegions st' = supportBlockRegions st ++ new
    /\ Forall (refined_block part subregion) new.
Proof.
  unfold heightmap_step.
  destruct (offsetPoly st) as [offsetPoly_|]; [|discriminate].
  intro Hrun.
  apply bind_Ok in Hrun as (maps & _ & Hrun).
  apply bind_Ok in Hrun as (polygons & _ & Hrun).
  apply bind_Ok in Hrun as (blocks & Hloop & Hrun).
  injection Hrun as <-. simpl.
  eapply for_each_appends; [|exact Hloop].
  intros s x s'. apply polygon_step_appends.
Qed.

Lemma intersect_step_appends (self : BlockSupportGenerator.t) (part : Part) (find : bool)
      (st st' : locals) (subregion : Mesh) :
  intersect_step self part find st subregion = Ok st' ->
  exists new,
    supportBlockRegions st' = supportBlockRegions st ++ new
    /\ Forall (emitted_for self part find subregion) new.
Proof.
  unfold intersect_step.
  assert (Hmain :
            reaches_height_map self part find subregion ->
            forall cutMesh bbox,
              heightmap_step self part st subregion cutMesh bbox = Ok st' ->
              exists new,
                supportBlockRegions st' = supportBlockRegions st ++ new
                /\ Forall (emitted_for self part find subregion) new).
  { intros Hreach cutMesh bbox Hrun.
    destruct (heightmap_step_appends _ _ _ _ _ _ _ Hrun) as (new & Hnew & Hall).
    exists new. split; [exact Hnew|].
    eapply Forall_impl; [|exact Hall]. intros b Hb. left. split; assumption. }
  unfold reaches_height_map in Hmain. cbv zeta in Hmain.
  destruct (np.lt _ _) eqn:Elt.
  - destruct (_useApproxBasePlateSupport self) eqn:Eapprox.
    + intro Hrun. injection Hrun as <-. simpl.
      eexists. split; [reflexivity|]. constructor; [|constructor].
      right. split; [exact Eapprox|]. split; [reflexivity|].
      apply np_lt_iff. exact Elt.
    + apply Hmain. reflexivity.
  - destruct find; simpl.
    + apply Hmain. reflexivity.
    + intro Hrun. injection Hrun as <-.
      exists []. rewrite app_nil_r. split; [reflexivity | constructor].
Qed.

Lemma subregion_step_appends (self : BlockSupportGenerator.t) (part : Part) (find : bool)
      (st st' : locals) (subregion : Mesh) :
  subregion_step self part find st subregion = Ok st' ->
  exists new,
    supportBlockRegions st' = supportBlockRegions st ++ new
    /\ Forall (emitted_for self part find subregion) new.
Proof.
  assert (Hskip : exists new,
             supportBlockRegions st = supportBlockRegions st ++ new
             /\ Forall (emitted_for self part find subregion) new).
  { exists []. rewrite app_nil_r. split; [reflexivity | constructor]. }
  unfold subregion_step.
  destruct (SupportStructure.flattenSupportRegion subregion) as [polygon|e];
    [|intro Hrun; injection Hrun as <-; exact Hskip].
  destruct (np.lt _ _); [intro Hrun; injection Hrun as <-; exact Hskip|].
  destruct (buffer _ _) as [p|geoms].
  - intro Hrun. apply intersect_step_appends in Hrun. exact Hrun.
  - destruct (filter _ _) as [|path rest];
      [intro Hrun; injection Hrun as <-; exact Hskip|].
    intro Hrun. apply bind_Ok in Hrun as (op & _ & Hrun).
    apply intersect_step_appends in Hrun. exact Hrun.
Qed.

(** The blocks appended by the loop come in one group per region, in the
    order of the regions. *)
Lemma processSubregions_groups (self : BlockSupportGenerator.t) (part : Part) (find : bool)
      (regions : list Mesh) :
  forall st st',
    processSubregions self part find regions st = Ok st' ->
    exists groups,
      supportBlockRegions st' = supportBlockRegions st ++ concat groups
      /\ Forall2 (fun r group => Forall (emitted_for self part find r) group)
                 regions groups.
Proof.
  unfold processSubregions.
  induction regions as [|r regions IH]; simpl; intros st st' Hrun.
  - injection Hrun as <-. exists []. simpl. rewrite app_nil_r.
    split; [reflexivity | constructor].
  - apply bind_Ok in Hrun as (st1 & Hstep & Hrest).
    destruct (subregion_step_appends _ _ _ _ _ _ Hstep) as (new & Hnew & Hall).
    destruct (IH _ _ Hrest) as (groups & Hgroups & Hall2).
    exists (new :: groups). simpl. rewrite Hgroups, Hnew, app_assoc.
    split; [reflexivity|]. constructor; assumption.
Qed.

Lemma identifySupportRegions_groups (self : BlockSupportGenerator.t) (part : Part)
      (overhangAngle : Q) (find : bool) (blocks : list SupportStructure.t) :
  identifySupportRegions self part overhangAngle find = Ok blocks ->
  exists groups,
    blocks = concat groups
    /\ Forall2 (fun r group => Forall (emitted_for self part find r) group)
               (getOverhangMesh part overhangAngle true) groups.
Proof.
  unfold identifySupportRegions. intro Hrun.
  apply bind_Ok in Hrun as (st & Hloop & Hrun). injection Hrun as <-.
  destruct (processSubregions_groups _ _ _ _ _ _ Hloop) as (groups & Hgroups & Hall).
  exists groups. split; [exact Hgroups | exact Hall].
Qed.

Lemma emitted_for_from_region (self : BlockSupportGenerator.t) (part : Part) (find : bool)
      (r : Mesh) (b : SupportStructure.t) :
  emitted_for self part find r b -> from_region part r b.
Proof.
  intros [[_ (vol & surf & ->)] | [_ [-> _]]]; repeat split; discriminate.
Qed.

(** X6. Each block returned by [identifySupportRegions] refers to the part
    as its support object, has a support volume, and has one of the
    overhang regions as its support surface; the blocks of one region are
    adjacent in the list and the groups follow the order of the regions. *)
Theorem identifySupportRegions_grouped_by_region
        (self : BlockSupportGenerator.t) (part : Part) (overhangAngle : Q) (find : bool)
        (blocks : list SupportStructure.t) :
  identifySupportRegions self part overhangAngle find = Ok blocks ->
  exists groups,
    blocks = concat groups
    /\ Forall2 (fun r group => Forall (from_region part r) group)
               (getOverhangMesh part overhangAngle true) groups.
Proof.
  intro Hrun.
  destruct (identifySupportRegions_groups _ _ _ _ _ Hrun) as (groups & Hblocks & Hall).
  exists groups. split; [exact Hblocks|].
  eapply Forall2_impl; [|exact Hall].
  intros r group. apply Forall_impl. apply emitted_for_from_region.
Qed.

End RegionBlocks.

(** The theorem at the cantilever plate: one region, one block. *)
Lemma identifySupportRegions_grouped_by_region_witness :
  exists groups,
    [Runs.cantilever_block] = concat groups
    /\ Forall2 (fun r group =>
                  Forall (@from_region Runs.G1 Symbolic.cantilever r) group)
               (@getOverhangMesh Runs.G1 Symbolic.cantilever 45 true) groups.
Proof.
  apply (@identifySupportRegions_grouped_by_region
           Runs.G1 BlockSupportGenerator.new Symbolic.cantilever 45 true
           [Runs.cantilever_block]).
  reflexivity.
Defined.

Section RegionEdgeCases.
Context `{Geometry}.
Import BlockSupportGenerator.



(** X8. With [useApproxBasePlateSupport] on and
    [findSelfIntersectingSupport] off, every block returned is the
    unrefined prism under one of the overhang regions, the prism cuts less
    than the tolerance 50 out of the part, and the block is not flagged as
    intersecting the part. *)
Theorem approximate_blocks_only
        (self : BlockSupportGenerator.t) (part : Part) (overhangAngle : Q)
        (blocks : list SupportStructure.t) :
  _useApproxBasePlateSupport self = true ->
  identifySupportRegions self part overhangAngle false = Ok blocks ->
  Forall (fun b => SupportStructure.intersectsPart b = false
                   /\ exists r, In r (getOverhangMesh part overhangAngle true)
                                /\ approximate_block part r b) blocks.
Proof.
  intros Happrox Hrun.
  destruct (identifySupportRegions_groups _ _ _ _ _ Hrun) as (groups & -> & Hall).
  clear Hrun.
  induction Hall as [|r group regions groups Hgroup Hrest IH]; simpl.
  - constructor.
  - apply Forall_app. split.
    + eapply Forall_impl; [|exact Hgroup].
      intros b [[Hreach _] | [_ Hb]].
      * exfalso. unfold reaches_height_map in Hreach. cbv zeta in Hreach.
        destruct (np.lt _ _); congruence.
      * split; [destruct Hb as [-> _]; reflexivity|].
        exists r. split; [left; reflexivity | exact Hb].
    + eapply Forall_impl; [|exact IH].
      intros b [Hflag (r' & Hin & Hb)]. split; [exact Hflag|].
      exists r'. split; [right; exact Hin | exact Hb].
Qed.

(** X9. A block emitted for a triangulated polygon has both caps on the
    vertices of the triangulation: the two projections change Z only.
    When the prism cuts no more than the tolerance out of the part, the
    lower cap lies on the base plate Z = 0. *)
Theorem emitted_block_caps
        (self : BlockSupportGenerator.t) (part : Part)
        (subregion cutMesh cutMeshUpper : Mesh)
        (blocks blocks' : list SupportStructure.t) (bufferPoly : Poly) :
  polygon_step self part subregion cutMesh cutMeshUpper blocks bufferPoly = Ok blocks' ->
  blocks' <> blocks ->
  let poly_tri := triangulate_polygon bufferPoly (_triangulationSpacing self) in
  exists b coords2 coords3,
    blocks' = blocks ++ [b]
    /\ SupportStructure._upperSurface b = Some (Trimesh coords2 (snd poly_tri))
    /\ SupportStructure._supportVolume b
       = Some (boolDiff (extrude_between (Trimesh coords2 (snd poly_tri)) coords2 coords3)
                        cutMesh)
    /\ map fst coords2 = fst poly_tri
    /\ map fst coords3 = fst poly_tri
    /\ (~ _intersectionVolumeTolerance < volume cutMesh ->
        Forall (fun p => pz p = 0) coords3).
Proof.
  intros Hrun Hnew poly_tri.
  destruct (polygon_step_cases _ _ _ _ _ _ _ _ Hrun)
    as [-> | (coords2 & coords3 & -> & Hxy2 & Hxy3 & Hbase)]; [contradiction|].
  unfold emit_block. eexists _, coords2, coords3.
  split; [reflexivity|]. split; [reflexivity|]. split; [reflexivity|].
  split; [exact Hxy2|]. split; [exact Hxy3|].
  intro Hvol. apply Hbase.
  destruct (np.gt _ _) eqn:E; [|reflexivity].
  apply np_gt_iff in E. contradiction.
Qed.

End RegionEdgeCases.


(** The plate next to the arch, with the approximate supports on. *)
Lemma approximate_blocks_only_witness :
  @BlockSupportGenerator.identifySupportRegions
    Runs.G1 approx_generator plate_and_arch 45 false = Ok [plate_prism_block]
  /\ Forall (fun b => @SupportStructure.intersectsPart Runs.G1 b = false)
            [plate_prism_block].
Proof.
  assert (Hrun : @BlockSupportGenerator.identifySupportRegions
                   Runs.G1 approx_generator plate_and_arch 45 false
                 = Ok [plate_prism_block]) by reflexivity.
  split; [exact Hrun|].
  eapply Forall_impl;
    [|exact (@approximate_blocks_only Runs.G1 approx_generator plate_and_arch 45 _
               eq_refl Hrun)].
  intros b [Hflag _]. exact Hflag.
Defined.

(** The block of the cantilever plate. *)
Lemma emitted_block_caps_witness :
  exists (b : @SupportStructure.t Runs.G1) (coords2 coords3 : list Pt3),
    [Runs.cantilever_block] = [] ++ [b]
    /\ map fst coords2 = map fst coords3
    /\ Forall (fun p => pz p = 0) coords3.
Proof.
  destruct (@emitted_block_caps
              Runs.G1 BlockSupportGenerator.new Symbolic.cantilever
              (Symbolic.Overhang Symbolic.cantilever_region) Runs.cantilever_cut
              (Symbolic.Upper Runs.cantilever_cut [true; false])
              [] [Runs.cantilever_block]
              (0 * (2 # 10) + 0 - - (2 # 10), 0 * (2 # 10) + 0 - - (2 # 10),
               95 * (2 # 10) + 0 + - (2 # 10), 45 * (2 # 10) + 0 + - (2 # 10)))
    as (b & coords2 & coords3 & Hb & _ & _ & Hxy2 & Hxy3 & Hbase).
  - reflexivity.
  - discriminate.
  - exists b, coords2, coords3. split; [exact Hb|]. split; [congruence|].
    apply Hbase. vm_compute. discriminate.
Defined.

(** ** The mask of the padded height map *)

Lemma mask_true_iff (img : Image) (c : Q) (i j : nat) :
  nth j (nth i (np.gt_scalar img c) []) false = true
  <-> (j < List.length (nth i img []))%nat /\ c < np.get img i j.
Proof.
  destruct (Nat.lt_ge_cases j (List.length (nth i img []))) as [Hj | Hj].
  - rewrite gt_scalar_get by exact Hj. rewrite np_gt_iff. tauto.
  - split; [|intros [Hlt _]; lia].
    intro Htrue. exfalso.
    rewrite nth_overflow in Htrue; [discriminate|].
    unfold np.gt_scalar.
    change (@nil bool) with (map (fun v => np.gt v c) []).
    rewrite map_nth, length_map. exact Hj.
Qed.

Lemma nth_repeat_const {A : Type} (c d : A) (n j : nat) :
  (j < n)%nat -> nth j (repeat c n) d = c.
Proof.
  revert j. induction n as [|n IH]; intros j Hj; [lia|].
  destruct j as [|j]; simpl; [reflexivity | apply IH; lia].
Qed.

(** The rows of a padded array. *)
Lemma pad2_row (h w : nat) (img : Image) (c : Q) (i : nat) :
  has_shape h w img -> (0 < h)%nat ->
  nth i (np.pad2 img c) []
  = if Nat.ltb i 2 then repeat c (w + 4)
    else if Nat.ltb i (h + 2) then [c; c] ++ nth (i - 2) img [] ++ [c; c]
    else if Nat.ltb i (h + 4) then repeat c (w + 4)
    else [].
Proof.
  intros Himg Hh. unfold np.pad2.
  rewrite (has_shape_shape _ _ _ Himg Hh). cbn [snd].
  destruct Himg as [Hlen Hrows].
  destruct (Nat.ltb_spec i 2) as [Hi2 | Hi2].
  - destruct i as [|[|i]]; [reflexivity | reflexivity | lia].
  - replace i with (S (S (i - 2))) at 1 by lia. cbn [app nth].
    destruct (Nat.ltb_spec i (h + 2)) as [Hih | Hih].
    + rewrite app_nth1 by (rewrite length_map; lia).
      rewrite (nth_indep _ [] ((fun row => [c; c] ++ row ++ [c; c]) []))
        by (rewrite length_map; lia).
      apply (map_nth (fun row => [c; c] ++ row ++ [c; c])).
    + rewrite app_nth2 by (rewrite length_map; lia).
      rewrite length_map, Hlen.
      destruct (Nat.ltb_spec i (h + 4)) as [Hi4 | Hi4].
      * destruct (i - 2 - h)%nat as [|[|k]] eqn:Ek; [reflexivity | reflexivity | lia].
      * destruct (i - 2 - h)%nat as [|[|k]] eqn:Ek; [lia | lia |].
        destruct k; reflexivity.
Qed.

(** X10. In [identifySupportRegions] the mask handed to [find_contours]
    selects exactly the pixels of the height map whose height exceeds 2,
    shifted by the padding of two pixels; no pixel of the padding belongs
    to the mask. *)
Theorem padded_mask_selects (h w : nat) (heightMap : Image) (i j : nat) :
  has_shape h w heightMap -> (0 < h)%nat ->
  (nth j (nth i (np.gt_scalar (np.pad2 heightMap 1) 2) []) false = true
   <-> (2 <= i < h + 2)%nat /\ (2 <= j < w + 2)%nat
       /\ 2 < np.get heightMap (i - 2) (j - 2)).
Proof.
  intros Himg Hh. rewrite mask_true_iff. unfold np.get at 1.
  rewrite (pad2_row h w) by assumption.
  assert (Hborder : forall n, ~ ((j < List.length (repeat 1%Q n))%nat
                                 /\ 2 < nth j (repeat 1%Q n) 0)).
  { intros n [Hj Hlt]. rewrite repeat_length in Hj.
    rewrite nth_repeat_const in Hlt by exact Hj. discriminate Hlt. }
  destruct (Nat.ltb_spec i 2) as [Hi2 | Hi2].
  { split; [intro Hc; destruct (Hborder _ Hc) | intros [Hi _]; lia]. }
  destruct (Nat.ltb_spec i (h + 2)) as [Hih | Hih].
  - assert (Hrow : List.length (nth (i - 2) heightMap []) = w)
      by (apply (has_shape_row h); [exact Himg | lia]).
    rewrite !length_app, Hrow. cbn [List.length].
    destruct (Nat.lt_ge_cases j 2) as [Hj2 | Hj2].
    { split; [|intros (_ & Hj & _); lia].
      intros [_ Hlt]. destruct j as [|[|j]]; [discriminate Hlt | discriminate Hlt | lia]. }
    replace j with (S (S (j - 2))) at 2 by lia. cbn [app nth].
    destruct (Nat.lt_ge_cases (j - 2) w) as [Hjw | Hjw].
    + rewrite app_nth1 by lia. unfold np.get. split.
      * intros [_ Hlt]. repeat split; try lia. exact Hlt.
      * intros (_ & _ & Hlt). split; [lia | exact Hlt].
    + split; [|intros (_ & Hj & _); lia].
      intros [Hj Hlt]. rewrite app_nth2 in Hlt by lia. rewrite Hrow in Hlt.
      destruct (j - 2 - w)%nat as [|[|k]] eqn:Ek;
        [discriminate Hlt | discriminate Hlt | lia].
  - split; [|intros (Hi & _); lia].
    destruct (Nat.ltb_spec i (h + 4)) as [Hi4 | Hi4].
    + intro Hc. destruct (Hborder _ Hc).
    + intros [Hj _]. simpl in Hj. lia.
Qed.

(** A 2 x 2 map with one pixel above 2. *)
Lemma padded_mask_selects_witness :
  nth 2 (nth 3 (np.gt_scalar (np.pad2 [[10; 0]; [7; 1]] 1) 2) []) false = true.
Proof.
  apply (padded_mask_selects 2 2 [[10; 0]; [7; 1]] 3 2).
  - split; [reflexivity | repeat constructor].
  - lia.
  - repeat split; try lia.
Defined.

(** ** GridBlockSupportGenerator.identifySupportRegions *)

Section GridGeneratorFacts.
Context `{Geometry}.

Lemma to_gridBlock_converted (self : GridBlockSupportGenerator.t)
      (block : SupportStructure.t) (surf : Mesh) :
  SupportStructure._upperSurface block = Some surf ->
  exists g, GridGenerator.to_gridBlock self block = Ok g /\ converted self block g.
Proof.
  intro Hsurf. unfold GridGenerator.to_gridBlock. rewrite Hsurf.
  eexists. split; [reflexivity|].
  destruct block as [vol obj surface flag upper]. simpl in Hsurf. subst upper.
  repeat split.
Qed.

Lemma to_gridBlock_missing (self : GridBlockSupportGenerator.t)
      (block : SupportStructure.t) :
  SupportStructure._upperSurface block = None ->
  GridGenerator.to_gridBlock self block = Raise AttributeError.
Proof. intro Hsurf. unfold GridGenerator.to_gridBlock. rewrite Hsurf. reflexivity. Qed.

Lemma convert_loop_ok (self : GridBlockSupportGenerator.t)
      (blocks : list SupportStructure.t) :
  Forall (fun b => SupportStructure._upperSurface b <> None) blocks ->
  forall acc,
  exists gs,
    for_each (fun gridBlocks block =>
                gridBlock <- GridGenerator.to_gridBlock self block ;;
                Ok (gridBlocks ++ [gridBlock])) blocks acc = Ok (acc ++ gs)
    /\ Forall2 (converted self) blocks gs.
Proof.
  induction 1 as [|b blocks Hb Hrest IH]; intro acc; simpl.
  - exists []. rewrite app_nil_r. split; [reflexivity | constructor].
  - destruct (SupportStructure._upperSurface b) as [surf|] eqn:Hsurf; [|contradiction].
    destruct (to_gridBlock_converted self b surf Hsurf) as (g & -> & Hg). simpl.
    destruct (IH (acc ++ [g])) as (gs & -> & Hgs).
    exists (g :: gs). rewrite <- app_assoc. split; [reflexivity|].
    constructor; assumption.
Qed.

Lemma convert_loop_raises (self : GridBlockSupportGenerator.t)
      (blocks : list SupportStructure.t) :
  Exists (fun b => SupportStructure._upperSurface b = None) blocks ->
  forall acc,
    for_each (fun gridBlocks block =>
                gridBlock <- GridGenerator.to_gridBlock self block ;;
                Ok (gridBlocks ++ [gridBlock])) blocks acc = Raise AttributeError.
Proof.
  induction blocks as [|b blocks IH]; intros Hex acc; [inversion Hex|].
  simpl. destruct (SupportStructure._upperSurface b) as [surf|] eqn:Hsurf.
  - destruct (to_gridBlock_converted self b surf Hsurf) as (g & -> & _). simpl.
    apply IH. inversion Hex as [? ? Hb | ? ? Hrest]; subst; [congruence | exact Hrest].
  - rewrite (to_gridBlock_missing self b Hsurf). reflexivity.
Qed.

Lemma emitted_for_upperSurface (self : BlockSupportGenerator.t) (part : Part) (find : bool)
      (r : Mesh) (b : SupportStructure.t) :
  emitted_for self part find r b ->
  (SupportStructure._intersectsPart b = true /\ SupportStructure._upperSurface b <> None)
  \/ (SupportStructure._intersectsPart b = false
      /\ SupportStructure._upperSurface b = None
      /\ BlockSupportGenerator._useApproxBasePlateSupport self = true).
Proof.
  intros [[_ (vol & surf & ->)] | [Happrox [-> _]]].
  - left. split; [reflexivity | discriminate].
  - right. repeat split. exact Happrox.
Qed.

Lemma blocks_upperSurface (self : BlockSupportGenerator.t) (part : Part)
      (overhangAngle : Q) (find : bool) (blocks : list SupportStructure.t) :
  BlockSupportGenerator.identifySupportRegions self part overhangAngle find = Ok blocks ->
  Forall (fun b =>
            (SupportStructure._intersectsPart b = true
             /\ SupportStructure._upperSurface b <> None)
            \/ (SupportStructure._intersectsPart b = false
                /\ SupportStructure._upperSurface b = None
                /\ BlockSupportGenerator._useApproxBasePlateSupport self = true))
         blocks.
Proof.
  intro Hrun.
  destruct (identifySupportRegions_groups _ _ _ _ _ Hrun) as (groups & -> & Hall).
  clear Hrun.
  induction Hall as [|r group regions groups Hgroup Hrest IH]; simpl; [constructor|].
  apply Forall_app. split; [|exact IH].
  eapply Forall_impl; [|exact Hgroup]. intro b. apply emitted_for_upperSurface.
Qed.

(** X11. With [useApproxBasePlateSupport] off, whenever the block
    generator returns, the grid generator returns one [GridBlockSupport]
    per block, in the same order.  Each holds the block's part, volume,
    surface, flag and upper surface and the generator's grid and tooth
    settings, except that its tooth top length is the generator's tooth
    height, and its wall thickness stays at the default 0.5. *)
Theorem grid_blocks_converted
        (self : GridBlockSupportGenerator.t) (part : Part) (overhangAngle : Q)
        (find : bool) (blocks : list SupportStructure.t) :
  BlockSupportGenerator._useApproxBasePlateSupport (GridBlockSupportGenerator.base self)
  = false ->
  BlockSupportGenerator.identifySupportRegions
    (GridBlockSupportGenerator.base self) part overhangAngle find = Ok blocks ->
  exists gridBlocks,
    GridGenerator.identifySupportRegions self part overhangAngle find = Ok gridBlocks
    /\ Forall2 (converted self) blocks gridBlocks.
Proof.
  intros Happrox Hrun. unfold GridGenerator.identifySupportRegions. rewrite Hrun. simpl.
  destruct (convert_loop_ok self blocks) with (acc := @nil GridBlockSupport.t)
    as (gs & Hgs & Hconv).
  - eapply Forall_impl; [|exact (blocks_upperSurface _ _ _ _ _ Hrun)].
    intros b [[_ Hsurf] | (_ & _ & Hon)]; [exact Hsurf | congruence].
  - exists gs. split; [exact Hgs | exact Hconv].
Qed.

(** X12. When the block generator returns a list holding a block that is
    not flagged as intersecting the part (a block of the approximate
    base-plate branch), the grid generator fails with [AttributeError]:
    such a block has no [_upperSurface]. *)
Theorem grid_generator_fails_on_approximate_block
        (self : GridBlockSupportGenerator.t) (part : Part) (overhangAngle : Q)
        (find : bool) (blocks : list SupportStructure.t) :
  BlockSupportGenerator.identifySupportRegions
    (GridBlockSupportGenerator.base self) part overhangAngle find = Ok blocks ->
  Exists (fun b => SupportStructure.intersectsPart b = false) blocks ->
  GridGenerator.identifySupportRegions self part overhangAngle find
  = Raise AttributeError.
Proof.
  intros Hrun Hex. unfold GridGenerator.identifySupportRegions. rewrite Hrun. simpl.
  apply convert_loop_raises.
  pose proof (blocks_upperSurface _ _ _ _ _ Hrun) as Hall.
  apply Exists_exists in Hex as (b & Hin & Hflag).
  apply Exists_exists. exists b. split; [exact Hin|].
  rewrite Forall_forall in Hall.
  destruct (Hall b Hin) as [[Htrue _] | (_ & Hsurf & _)]; [|exact Hsurf].
  unfold SupportStructure.intersectsPart in Hflag. congruence.
Qed.

End GridGeneratorFacts.

(** The grid generator on the cantilever plate. *)
Lemma grid_blocks_converted_witness :
  exists gridBlocks,
    @GridGenerator.identifySupportRegions
      Runs.G1 GridBlockSupportGenerator.new Symbolic.cantilever 45 true = Ok gridBlocks
    /\ Forall2 (@converted Runs.G1 GridBlockSupportGenerator.new)
               [Runs.cantilever_block] gridBlocks.
Proof.
  apply (@grid_blocks_converted Runs.G1 GridBlockSupportGenerator.new
                                Symbolic.cantilever 45 true).
  - reflexivity.
  - reflexivity.
Defined.

(** The grid generator with the approximate supports on. *)
Lemma grid_generator_fails_on_approximate_block_witness :
  @GridGenerator.identifySupportRegions
    Runs.G1 approx_grid_generator plate_and_arch 45 false
  = Raise AttributeError.
Proof.
  apply (@grid_generator_fails_on_approximate_block
           Runs.G1 approx_grid_generator plate_and_arch 45 false [plate_prism_block]).
  - reflexivity.
  - left. reflexivity.
Defined.

(** ** generateSupportSlices: stacking the triangulations *)

Lemma stack_loop_closed (children : list (list Pt2 * list Face)) :
  forall vx fx idx,
    stack_loop children vx fx idx
    = (vx ++ map fst children, fx ++ shifted_from idx children).
Proof.
  induction children as [|[v f] rest IH]; intros vx fx idx; simpl.
  - rewrite !app_nil_r. reflexivity.
  - rewrite IH, <- !app_assoc. reflexivity.
Qed.

Lemma face_points_shift (pre v post : list Pt2) (f : Face) :
  face_points v f <> None ->
  face_points (pre ++ v ++ post) (shift_face (List.length pre) f) = face_points v f.
Proof.
  destruct f as [[a b] c]. unfold face_points, shift_face.
  assert (Hnth : forall k, nth_error v k <> None ->
            nth_error (pre ++ v ++ post) (k + List.length pre) = nth_error v k).
  { intros k Hk. rewrite nth_error_app2 by lia.
    replace (k + List.length pre - List.length pre)%nat with k by lia.
    apply nth_error_app1. apply nth_error_Some. exact Hk. }
  intro Hv.
  destruct (nth_error v a) as [pa|] eqn:Ea; [|congruence].
  destruct (nth_error v b) as [pb|] eqn:Eb; [|congruence].
  destruct (nth_error v c) as [pc|] eqn:Ec; [|congruence].
  rewrite (Hnth a), (Hnth b), (Hnth c), Ea, Eb, Ec by congruence.
  reflexivity.
Qed.

Lemma shifted_from_points (children : list (list Pt2 * list Face)) :
  Forall faces_in_range children ->
  forall pre,
    map (face_points (pre ++ flat_map fst children))
        (concat (shifted_from (List.length pre) children))
    = flat_map (fun child => map (face_points (fst child)) (snd child)) children.
Proof.
  induction 1 as [|[v f] rest Hv Hrest IH]; intro pre; simpl; [reflexivity|].
  rewrite map_app. f_equal.
  - rewrite map_map. apply map_ext_in. intros face Hface.
    apply face_points_shift.
    unfold faces_in_range in Hv. rewrite Forall_forall in Hv. apply Hv. exact Hface.
  - specialize (IH (pre ++ v)). rewrite length_app, <- app_assoc in IH. exact IH.
Qed.

(** X13. [generateSupportSlices] stacks the triangulations of the children
    of a section: without children [np.vstack] fails; otherwise the stacked
    vertices are the children's vertices in order, and when every child's
    faces index its own vertices, the triangles of the stacked mesh (as
    corner points) are exactly the children's triangles, in order. *)
Theorem stacked_triangles_preserved (children : list (list Pt2 * list Face)) :
  Forall faces_in_range children ->
  match children with
  | [] => stack_triangulations children = None
  | _ =>
      exists v f,
        stack_triangulations children = Some (v, f)
        /\ v = flat_map fst children
        /\ map (face_points v) f
           = flat_map (fun child => map (face_points (fst child)) (snd child))
                      children
  end.
Proof.
  intro Hvalid. destruct children as [|c rest] eqn:E; [reflexivity|].
  rewrite <- E in *. unfold stack_triangulations.
  rewrite stack_loop_closed. simpl app.
  assert (Hv : vstack (map fst children) = Some (flat_map fst children)).
  { rewrite E. simpl. rewrite flat_map_concat_map. reflexivity. }
  assert (Hf : vstack (shifted_from 0 children)
               = Some (concat (shifted_from 0 children))).
  { rewrite E. destruct c as [v0 f0]. reflexivity. }
  rewrite Hv, Hf. eexists _, _. repeat split.
  apply (shifted_from_points children Hvalid []).
Qed.

(** The theorem at two triangulated rectangles. *)
Lemma stacked_triangles_preserved_witness :
  exists v f,
    stack_triangulations
      [([(0, 0); (1, 0); (1, 1)], [(0, 1, 2)%nat]);
       ([(2, 0); (3, 0); (3, 1); (2, 1)], [(0, 1, 2); (0, 2, 3)]%nat)]
    = Some (v, f)
    /\ f = [(0, 1, 2); (3, 4, 5); (3, 5, 6)]%nat.
Proof.
  destruct (stacked_triangles_preserved
              [([(0, 0); (1, 0); (1, 1)], [(0, 1, 2)%nat]);
               ([(2, 0); (3, 0); (3, 1); (2, 1)], [(0, 1, 2); (0, 2, 3)]%nat)])
    as (v & f & Hrun & _ & _).
  - repeat constructor; discriminate.
  - exists v, f. split; [exact Hrun|].
    vm_compute in Hrun. injection Hrun as _ <-. reflexivity.
Defined.

(** ** generateSupportSkins: the two components and the pairing *)

Section SkinSelectionFacts.
Context `{Geometry}.

(** X14. [generateSupportSkins] goes on only when exactly two components of
    the side faces have an area above 5 (any other number ends it early); the
    pair it keeps are these two components, and the one called top does not
    start lower than the one called bottom. *)
Theorem top_and_bottom_ordered (supportSurfCpy : list Mesh) :
  let large := filter (fun surf => np.gt (area surf) 5) supportSurfCpy in
  match top_and_bottom supportSurfCpy with
  | Some (top, bottom) =>
      Permutation [top; bottom] large
      /\ pz (fst (bounds bottom)) <= pz (fst (bounds top))
  | None => List.length large <> 2%nat
  end.
Proof.
  unfold top_and_bottom.
  destruct (filter _ supportSurfCpy) as [|a [|b [|c rest]]]; simpl; try lia.
  destruct (np.gt (pz (fst (bounds b))) (pz (fst (bounds a)))) eqn:E.
  - split; [apply perm_swap|].
    apply np_gt_iff in E. apply Qlt_le_weak. exact E.
  - split; [apply Permutation_refl|].
    apply Qnot_lt_le. intro Hlt. apply np_gt_iff in Hlt. congruence.
Qed.

End SkinSelectionFacts.

(** A loop whose every iteration appends a list that depends on the item
    only. *)
Lemma for_each_flat_map {A B : Type} (g : A -> list B)
      (body : list B -> A -> result (list B)) (xs : list A) :
  (forall s x, In x xs -> body s x = Ok (s ++ g x)) ->
  forall s, for_each body xs s = Ok (s ++ flat_map g xs).
Proof.
  induction xs as [|x xs IH]; intros Hbody s; simpl.
  - rewrite app_nil_r. reflexivity.
  - rewrite (Hbody s x (or_introl eq_refl)). simpl.
    rewrite IH by (intros; apply Hbody; right; assumption).
    rewrite app_assoc. reflexivity.
Qed.

Lemma In_flat_map_seq {A B : Type} (xs : list A) (g : nat * A -> list B) (b : B) :
  In b (flat_map g (combine (seq 0 (List.length xs)) xs))
  <-> exists k x, nth_error xs k = Some x /\ In b (g (k, x)).
Proof.
  rewrite in_flat_map. split.
  - intros ([k x] & Hin & Hb). exists k, x. split; [|exact Hb].
    apply In_nth_error in Hin as [n Hn].
    apply nth_error_combine in Hn as [Hk Hx].
    assert (n < List.length xs)%nat by (apply nth_error_Some; congruence).
    rewrite nth_error_seq in Hk.
    destruct (Nat.ltb_spec n (List.length xs)); [|lia].
    injection Hk as <-. exact Hx.
  - intros (k & x & Hx & Hb). exists (k, x). split; [|exact Hb].
    apply nth_error_In with (n := k). apply nth_error_combine. split; [|exact Hx].
    assert (k < List.length xs)%nat by (apply nth_error_Some; congruence).
    rewrite nth_error_seq.
    destruct (Nat.ltb_spec k (List.length xs)); [reflexivity | lia].
Qed.

(** For a positive bottom length the test of the pairing is a relative
    tolerance of ten percent. *)
Lemma lengths_match_iff (pathLen botPathLen : Q) :
  0 < botPathLen ->
  lengths_match pathLen botPathLen = true
  <-> (9 # 10) * botPathLen < pathLen /\ pathLen < (11 # 10) * botPathLen.
Proof.
  intro Hpos. unfold lengths_match.
  destruct (Qeq_bool botPathLen 0) eqn:E.
  - apply Qeq_bool_eq in E. rewrite E in Hpos. discriminate.
  - rewrite np_lt_iff.
    assert (Hdiv : Qabs (pathLen - botPathLen) / botPathLen < 1 # 10
                   <-> Qabs (pathLen - botPathLen) < (1 # 10) * botPathLen).
    { split; intro Hlt.
      - apply Qmult_lt_r with (z := / botPathLen); [apply Qinv_lt_0_compat; exact Hpos|].
        setoid_replace ((1 # 10) * botPathLen * / botPathLen) with (1 # 10)
          by (field; intro Hz; rewrite Hz in Hpos; discriminate).
        exact Hlt.
      - apply Qmult_lt_r with (z := / botPathLen) in Hlt;
          [|apply Qinv_lt_0_compat; exact Hpos].
        setoid_replace ((1 # 10) * botPathLen * / botPathLen) with (1 # 10) in Hlt
          by (field; intro Hz; rewrite Hz in Hpos; discriminate).
        exact Hlt. }
    rewrite Hdiv. split.
    + intro Habs. apply Qabs_Qlt_condition in Habs. lra.
    + intros [Hlo Hhi]. apply Qabs_Qlt_condition. lra.
Qed.

(** X15. [generateSupportSkins] pairs top loop i with bottom loop j exactly
    when the length of the top loop lies within ten percent of the (positive)
    length of the bottom loop; a top loop may so be paired with several
    bottom loops. *)
Theorem pair_paths_within_tolerance
        (topPathLengths bottomPathLengths : list Q)
        (topPaths bottomPaths : list (list nat)) (topLen botLen : list Q) :
  Forall2 (fun path l => path_length_sum topPathLengths path = Ok l) topPaths topLen ->
  Forall2 (fun path l => path_length_sum bottomPathLengths path = Ok l)
          bottomPaths botLen ->
  Forall (fun l => 0 < l) botLen ->
  exists pairs,
    pair_paths topPathLengths bottomPathLengths topPaths bottomPaths = Ok pairs
    /\ forall i j,
        In (i, j) pairs
        <-> exists lt lb,
            nth_error topLen i = Some lt /\ nth_error botLen j = Some lb
            /\ (9 # 10) * lb < lt /\ lt < (11 # 10) * lb.
Proof.
  intros Htop Hbot Hpos.
  set (inner := fun (i : nat) (pathLen : Q) (item : nat * list nat) =>
                  match path_length_sum bottomPathLengths (snd item) with
                  | Ok lb => if lengths_match pathLen lb then [(i, fst item)] else []
                  | Raise _ => []
                  end).
  set (outer := fun (item : nat * list nat) =>
                  match path_length_sum topPathLengths (snd item) with
                  | Ok lt => flat_map (inner (fst item) lt)
                               (combine (seq 0 (List.length bottomPaths)) bottomPaths)
                  | Raise _ => []
                  end).
  assert (Hsum : forall (lens : list Q) paths ls,
             Forall2 (fun path l => path_length_sum lens path = Ok l) paths ls ->
             forall k path, nth_error paths k = Some path ->
                            exists l, nth_error ls k = Some l
                                      /\ path_length_sum lens path = Ok l).
  { intros lens paths ls HF. induction HF as [|p l ps ls' Hp HF IH]; intros k path Hk.
    - destruct k; discriminate.
    - destruct k as [|k]; simpl in Hk.
      + injection Hk as <-. exists l. split; [reflexivity | exact Hp].
      + apply IH. exact Hk. }
  assert (Hinner : forall i lt s,
             for_each (pair_inner bottomPathLengths i lt)
                      (combine (seq 0 (List.length bottomPaths)) bottomPaths) s
             = Ok (s ++ flat_map (inner i lt)
                          (combine (seq 0 (List.length bottomPaths)) bottomPaths))).
  { intros i lt. apply for_each_flat_map. intros s [j bottomPath] Hin.
    apply In_nth_error in Hin as [n Hn]. apply nth_error_combine in Hn as [_ Hn].
    destruct (Hsum _ _ _ Hbot _ _ Hn) as (lb & _ & Hlb).
    unfold pair_inner, inner. simpl. rewrite Hlb. simpl.
    destruct (lengths_match lt lb); [reflexivity | rewrite app_nil_r; reflexivity]. }
  assert (Hrun : pair_paths topPathLengths bottomPathLengths topPaths bottomPaths
                 = Ok (flat_map outer (combine (seq 0 (List.length topPaths)) topPaths))).
  { unfold pair_paths. rewrite for_each_flat_map with (g := outer); [reflexivity|].
    intros s [i topPath] Hin.
    apply In_nth_error in Hin as [n Hn]. apply nth_error_combine in Hn as [_ Hn].
    destruct (Hsum _ _ _ Htop _ _ Hn) as (lt & _ & Hlt).
    unfold outer. simpl. rewrite Hlt. simpl. apply Hinner. }
  eexists. split; [exact Hrun|]. intros i j.
  assert (Hlen : forall (lens : list Q) paths ls,
             Forall2 (fun path l => path_length_sum lens path = Ok l) paths ls ->
             forall k l, nth_error ls k = Some l ->
                         exists path, nth_error paths k = Some path
                                      /\ path_length_sum lens path = Ok l).
  { intros lens paths ls HF. induction HF as [|p l ps ls' Hp HF IH]; intros k l0 Hk.
    - destruct k; discriminate.
    - destruct k as [|k]; simpl in Hk.
      + injection Hk as <-. exists p. split; [reflexivity | exact Hp].
      + apply IH. exact Hk. }
  rewrite In_flat_map_seq. split.
  - intros (i' & topPath & Hi & Hin). unfold outer in Hin. simpl in Hin.
    destruct (Hsum _ _ _ Htop _ _ Hi) as (lt & Hlt & Hsumt). rewrite Hsumt in Hin.
    apply In_flat_map_seq in Hin as (j' & bottomPath & Hj & Hin).
    unfold inner in Hin. simpl in Hin.
    destruct (Hsum _ _ _ Hbot _ _ Hj) as (lb & Hlb & Hsumb). rewrite Hsumb in Hin.
    destruct (lengths_match lt lb) eqn:Em; [|contradiction].
    destruct Hin as [Heq|[]]. injection Heq as <- <-.
    exists lt, lb. repeat split; try assumption;
      apply lengths_match_iff in Em; try apply Em;
      rewrite Forall_forall in Hpos; apply Hpos; eapply nth_error_In; exact Hlb.
  - intros (lt & lb & Hlt & Hlb & Hlo & Hhi).
    destruct (Hlen _ _ _ Htop _ _ Hlt) as (topPath & Hi & Hsumt).
    destruct (Hlen _ _ _ Hbot _ _ Hlb) as (bottomPath & Hj & Hsumb).
    exists i, topPath. split; [exact Hi|]. unfold outer. simpl. rewrite Hsumt.
    apply In_flat_map_seq. exists j, bottomPath. split; [exact Hj|].
    unfold inner. simpl. rewrite Hsumb.
    assert (Em : lengths_match lt lb = true).
    { apply lengths_match_iff; [|split; assumption].
      rewrite Forall_forall in Hpos. apply Hpos. eapply nth_error_In. exact Hlb. }
    rewrite Em. left. reflexivity.
Qed.

(** The theorem at two top loops (lengths 10 and 30, the first made of two
    entities) and two bottom loops (lengths 29 and 10.5). *)
Lemma pair_paths_within_tolerance_witness :
  pair_paths [4; 30; 6] [29; 21 # 2] [[0; 2]; [1]]%nat [[0]; [1]]%nat
  = Ok [(0, 1); (1, 0)]%nat.
Proof.
  destruct (pair_paths_within_tolerance
              [4; 30; 6] [29; 21 # 2] [[0; 2]; [1]]%nat [[0]; [1]]%nat
              [4 + (6 + 0); 30 + 0] [29 + 0; (21 # 2) + 0])
    as (pairs & Hrun & _).
  - repeat constructor.
  - repeat constructor.
  - repeat constructor.
  - reflexivity.
Defined.

(** ** generateSliceGeometry: the positions of the teeth *)

Lemma insert_unique_In (x : Q) (i : nat) (acc : list (Q * nat)) (p : Q * nat) :
  In p (insert_unique x i acc) -> p = (x, i) \/ In p acc.
Proof.
  induction acc as [|[y j] acc IH]; simpl.
  - intros [<-|[]]. left. reflexivity.
  - destruct (x ?= y); simpl.
    + intro Hin. right. exact Hin.
    + intros [<-|Hin]; [left; reflexivity | right; exact Hin].
    + intros [<-|Hin]; [right; left; reflexivity|].
      destruct (IH Hin) as [->|Hacc]; [left; reflexivity | right; right; exact Hacc].
Qed.

Lemma insert_unique_keeps (x : Q) (i : nat) (acc : list (Q * nat)) (p : Q * nat) :
  In p acc -> In p (insert_unique x i acc).
Proof.
  induction acc as [|[y j] acc IH]; simpl; [contradiction|].
  destruct (x ?= y); simpl; intros [<-|Hin]; auto.
Qed.

Lemma insert_unique_has (x : Q) (i : nat) (acc : list (Q * nat)) :
  exists y j, In (y, j) (insert_unique x i acc) /\ y == x.
Proof.
  induction acc as [|[y j] acc IH]; simpl.
  - exists x, i. split; [left; reflexivity | reflexivity].
  - destruct (x ?= y) eqn:E.
    + exists y, j. split; [left; reflexivity|].
      apply Qeq_alt in E. symmetry. exact E.
    + exists x, i. split; [left; reflexivity | reflexivity].
    + destruct IH as (z & k & Hin & Hz). exists z, k. split; [right; exact Hin | exact Hz].
Qed.

Lemma insert_unique_sorted (x : Q) (i : nat) (acc : list (Q * nat)) :
  StronglySorted by_value acc -> StronglySorted by_value (insert_unique x i acc).
Proof.
  induction acc as [|[y j] acc IH]; simpl; intro Hs.
  - repeat constructor.
  - inversion Hs as [|? ? Hs' Hall]; subst.
    destruct (x ?= y) eqn:E.
    + exact Hs.
    + apply Qlt_alt in E. constructor; [exact Hs|].
      constructor; [exact E|].
      rewrite Forall_forall in *. intros q Hq. unfold by_value in *. simpl in *.
      eapply Qlt_trans; [exact E | apply (Hall q Hq)].
    + apply Qgt_alt in E. constructor; [apply IH; exact Hs'|].
      rewrite Forall_forall in *. intros q Hq.
      apply insert_unique_In in Hq as [->|Hq]; [exact E | apply Hall; exact Hq].
Qed.

(** A value already listed is not listed again. *)
Lemma insert_unique_known (x : Q) (i : nat) (acc : list (Q * nat)) :
  StronglySorted by_value acc ->
  (exists z k, In (z, k) acc /\ z == x) -> insert_unique x i acc = acc.
Proof.
  induction acc as [|[y j] acc IH]; intros Hs (z & k & Hin & Hz); [contradiction|].
  inversion Hs as [|? ? Hs' Hall]; subst. simpl.
  destruct (x ?= y) eqn:E.
  - reflexivity.
  - apply Qlt_alt in E. exfalso. destruct Hin as [Heq|Hin].
    + injection Heq as <- <-. rewrite Hz in E. exact (Qlt_irrefl _ E).
    + rewrite Forall_forall in Hall. specialize (Hall _ Hin).
      unfold by_value in Hall. simpl in Hall. rewrite Hz in Hall.
      exact (Qlt_irrefl _ (Qlt_trans _ _ _ E Hall)).
  - apply Qgt_alt in E. f_equal. apply IH; [exact Hs'|].
    destruct Hin as [Heq|Hin].
    + injection Heq as <- <-. rewrite Hz in E. exfalso. exact (Qlt_irrefl _ E).
    + exists z, k. split; assumption.
Qed.

Lemma unique_upto_step (a : list Q) (k : nat) (acc : list (Q * nat)) (x : Q) :
  unique_upto a k acc -> nth_error a k = Some x ->
  unique_upto a (S k) (insert_unique x k acc).
Proof.
  intros [Hs Hfirst Hall] Hk. split.
  - apply insert_unique_sorted. exact Hs.
  - intros y i Hin. pose proof Hin as Hin0.
    apply insert_unique_In in Hin as [Heq|Hin].
    + injection Heq as -> ->. split; [lia|]. split; [exact Hk|].
      intros j y Hj Hy Heq.
      destruct (Hall j y Hj Hy) as (z & i & Hz & Hzy).
      rewrite insert_unique_known in Hin0; [|exact Hs|].
      * destruct (Hfirst _ _ Hin0) as (Hkk & _). lia.
      * exists z, i. split; [exact Hz|]. rewrite Hzy. exact Heq.
    + destruct (Hfirst _ _ Hin) as (Hi & Hnth & Hmin). split; [lia|]. split; assumption.
  - intros j y Hj Hy. destruct (Nat.eq_dec j k) as [->|Hne].
    + rewrite Hk in Hy. injection Hy as <-. apply insert_unique_has.
    + destruct (Hall j y ltac:(lia) Hy) as (z & i & Hz & Hzy).
      exists z, i. split; [apply insert_unique_keeps; exact Hz | exact Hzy].
Qed.

Lemma unique_fold (a pre rest : list Q) (acc : list (Q * nat)) :
  a = pre ++ rest -> unique_upto a (List.length pre) acc ->
  unique_upto a (List.length a)
    (fold_left (fun acc xi => insert_unique (snd xi) (fst xi) acc)
               (combine (seq (List.length pre) (List.length rest)) rest) acc).
Proof.
  revert pre acc. induction rest as [|x rest IH]; intros pre acc Ha Hacc; simpl.
  - subst a. rewrite app_nil_r in *. exact Hacc.
  - specialize (IH (pre ++ [x]) (insert_unique x (List.length pre) acc)).
    rewrite length_app, Nat.add_1_r in IH. apply IH.
    + rewrite <- app_assoc. exact Ha.
    + apply unique_upto_step; [exact Hacc|].
      subst a. rewrite nth_error_app2, Nat.sub_diag by lia. reflexivity.
Qed.

(** [np.unique(a, return_index=True)]: strictly increasing values, each with
    the index of its first occurrence, and every value of [a] among them. *)
Lemma np_unique_index_spec (a : list Q) :
  unique_upto a (List.length a) (np_unique_index a).
Proof.
  apply (unique_fold a [] a [] eq_refl). split.
  - constructor.
  - intros x i [].
  - intros j y Hj. simpl in Hj. lia.
Qed.

Lemma np_clip_bounds (x hi : Q) : 0 <= hi -> 0 <= np_clip x 0 hi /\ np_clip x 0 hi <= hi.
Proof.
  intro Hhi. unfold np_clip.
  destruct (np.lt x 0) eqn:E1.
  - destruct (np.lt hi 0) eqn:E2.
    + apply np_lt_iff in E2. lra.
    + lra.
  - assert (Hx : 0 <= x).
    { apply Qnot_lt_le. intro Hlt. apply np_lt_iff in Hlt. congruence. }
    destruct (np.lt hi x) eqn:E2.
    + lra.
    + split; [exact Hx|].
      apply Qnot_lt_le. intro Hlt. apply np_lt_iff in Hlt. congruence.
Qed.

Lemma np_clip_low (x hi : Q) : 0 <= hi -> x <= 0 -> np_clip x 0 hi == 0.
Proof.
  intros Hhi Hx. unfold np_clip.
  destruct (np.lt x 0) eqn:E1.
  - destruct (np.lt hi 0) eqn:E2; [apply np_lt_iff in E2; lra | reflexivity].
  - assert (H0 : 0 <= x).
    { apply Qnot_lt_le. intro Hlt. apply np_lt_iff in Hlt. congruence. }
    destruct (np.lt hi x) eqn:E2; [apply np_lt_iff in E2; lra | lra].
Qed.

Lemma np_clip_high (x hi : Q) : 0 <= hi -> hi <= x -> np_clip x 0 hi == hi.
Proof.
  intros Hhi Hx. unfold np_clip.
  destruct (np.lt x 0) eqn:E1.
  - apply np_lt_iff in E1. destruct (np.lt hi 0) eqn:E2; [reflexivity | lra].
  - destruct (np.lt hi x) eqn:E2; [reflexivity|].
    assert (x <= hi).
    { apply Qnot_lt_le. intro Hlt. apply np_lt_iff in Hlt. congruence. }
    lra.
Qed.

Lemma sorted_hd_le (l : list Q) (x : Q) :
  StronglySorted Qlt l -> In x l -> hd 0 l <= x.
Proof.
  intros Hs Hin. destruct l as [|y l]; [contradiction|]. simpl.
  destruct Hin as [->|Hin]; [apply Qle_refl|].
  inversion Hs as [|? ? _ Hall]; subst. rewrite Forall_forall in Hall.
  apply Qlt_le_weak. apply Hall. exact Hin.
Qed.

Lemma sorted_le_last (l : list Q) (x : Q) :
  StronglySorted Qlt l -> In x l -> x <= last l 0.
Proof.
  revert x. induction l as [|y l IH]; intros x Hs Hin; [contradiction|].
  inversion Hs as [|? ? Hs' Hall]; subst. rewrite Forall_forall in Hall.
  destruct l as [|z l].
  - destruct Hin as [->|[]]. apply Qle_refl.
  - change (last (y :: z :: l) 0) with (last (z :: l) 0).
    destruct Hin as [->|Hin].
    + apply Qle_trans with z; [apply Qlt_le_weak, Hall; left; reflexivity|].
      apply IH; [exact Hs' | left; reflexivity].
    + apply IH; assumption.
Qed.

Lemma sorted_by_value_fst (acc : list (Q * nat)) :
  StronglySorted by_value acc -> StronglySorted Qlt (map fst acc).
Proof.
  induction 1 as [|p acc Hs IH Hall]; simpl; constructor; [exact IH|].
  rewrite Forall_forall in *. intros x Hx.
  apply in_map_iff in Hx as (q & <- & Hq). apply (Hall q Hq).
Qed.

Section ToothFacts.
Context `{Geometry} `{PathSampling}.

Lemma toothProfile_period (self : GridBlockSupport.t) :
  fst (last (GridBlockSupport.toothProfile self) (0, 0))
  = GridBlockSupport._supportTeethBottomLength self
    + GridBlockSupport._supportTeethBaseInterval self.
Proof. reflexivity. Qed.

(** The number of cycles for a positive length and period. *)
Lemma tooth_cycles_positive (length period : Q) :
  0 < period -> 0 < length ->
  tooth_cycles length period = inr (Qceiling (length / period))
  /\ (1 <= Qceiling (length / period))%Z
  /\ inject_Z (Qceiling (length / period) - 1) * period < length
  /\ length <= inject_Z (Qceiling (length / period)) * period.
Proof.
  intros Hp Hl. unfold tooth_cycles.
  assert (Hne : ~ period == 0) by (intro Hz; rewrite Hz in Hp; discriminate).
  destruct (Qeq_bool period 0) eqn:E; [apply Qeq_bool_eq in E; contradiction|].
  split; [reflexivity|].
  set (q := length / period).
  assert (Hq : q * period == length) by (unfold q; field; exact Hne).
  pose proof (Qle_ceiling q) as Hle. pose proof (Qceiling_lt q) as Hlt.
  assert (Hqpos : 0 < q).
  { unfold q. apply Qlt_shift_div_l; [exact Hp | lra]. }
  split; [|split].
  - assert (Hz : 0 < inject_Z (Qceiling q)) by lra.
    rewrite <- (Zlt_Qlt 0) in Hz. lia.
  - rewrite <- Hq. apply Qmult_lt_r; assumption.
  - rewrite <- Hq. apply Qmult_le_r; assumption.
Qed.

Lemma tooth_cycles_one (length period : Q) :
  0 < period -> 0 < length ->
  (Qceiling (length / period) = 1)%Z <-> length <= period.
Proof.
  intros Hp Hl.
  destruct (tooth_cycles_positive length period Hp Hl) as (_ & Hge & _ & Hhi).
  split.
  - intro Hone. rewrite Hone in Hhi. change (inject_Z 1) with 1 in Hhi. lra.
  - intro Hle. assert (Hc : (Qceiling (length / period) <= 1)%Z).
    { change 1%Z with (Qceiling 1). apply Qceiling_resp_le.
      apply Qle_shift_div_r; [exact Hp | lra]. }
    lia.
Qed.

Lemma tile_pattern_vstack (repPattern : list Pt2) (period : Q) (n : Z) :
  (1 <= n)%Z ->
  vstack (tile_pattern repPattern period n)
  = Some (concat (tile_pattern repPattern period n)).
Proof.
  intro Hn. unfold tile_pattern.
  destruct (Z.to_nat n) as [|m] eqn:E; [lia|]. reflexivity.
Qed.

(** The cases of one iteration of the loop over the masked runs. *)
Lemma tooth_step_cases
        (self : GridBlockSupport.t) (seg : list Pt2) (st : tooth_paths) :
  let period := GridBlockSupport._supportTeethBottomLength self
                + GridBlockSupport._supportTeethBaseInterval self in
  let L := path_length seg in
  let upper := np.lt (snd (last seg (0, 0))) (snd (hd (0, 0) seg)) in
  let enabled := if upper then GridBlockSupport._useUpperSupportTeeth self
                 else GridBlockSupport._useLowerSupportTeeth self in
  0 < period -> 0 < L ->
  exists final,
    tooth_step self seg st
    = inr (mkToothPaths (newPaths st ++ [final])
                        (if upper then upperPaths st ++ [final] else upperPaths st)
                        (if upper then lowerPaths st else lowerPaths st ++ [final]))
    /\ (L <= period \/ enabled = false -> final = seg)
    /\ (period < L -> enabled = true ->
        final = teeth seg (if upper then - (1) else 1)
                      (concat (tile_pattern (GridBlockSupport.toothProfile self) period
                                            (Qceiling (L / period))))).
Proof.
  intros period L upper enabled Hp Hl.
  destruct (tooth_cycles_positive L period Hp Hl) as (Hcyc & Hge & _ & _).
  pose proof (tooth_cycles_one L period Hp Hl) as Hone.
  unfold tooth_step. rewrite toothProfile_period.
  fold period. fold L. rewrite Hcyc.
  rewrite (tile_pattern_vstack _ _ _ Hge).
  unfold direction. fold upper.
  set (n := Qceiling (L / period)) in *.
  set (patternList := concat (tile_pattern (GridBlockSupport.toothProfile self) period n)).
  destruct upper eqn:Eu; subst enabled;
    change (np.gt (- (1)) 0) with false; change (np.lt (- (1)) 0) with true;
    change (np.gt 1 0) with true; change (np.lt 1 0) with false;
    rewrite ?andb_false_r, ?andb_true_r.
  - destruct (GridBlockSupport._useUpperSupportTeeth self) eqn:Ef; simpl negb; cbv iota.
    + destruct (n =? 1)%Z eqn:En; eexists; (split; [reflexivity|]); split.
      * intros _. reflexivity.
      * intros Hlt _. apply Z.eqb_eq in En. apply Hone in En. lra.
      * intros [Hle|Hoff]; [|discriminate].
        apply Hone in Hle. apply Z.eqb_neq in En. contradiction.
      * intros _ _. reflexivity.
    + eexists; (split; [reflexivity|]); split.
      * intros _. reflexivity.
      * intros _ Hon. discriminate.
  - destruct (GridBlockSupport._useLowerSupportTeeth self) eqn:Ef; simpl negb; cbv iota.
    + destruct (n =? 1)%Z eqn:En; eexists; (split; [reflexivity|]); split.
      * intros _. reflexivity.
      * intros Hlt _. apply Z.eqb_eq in En. apply Hone in En. lra.
      * intros [Hle|Hoff]; [|discriminate].
        apply Hone in Hle. apply Z.eqb_neq in En. contradiction.
      * intros _ _. reflexivity.
    + eexists; (split; [reflexivity|]); split.
      * intros _. reflexivity.
      * intros _ Hon. discriminate.
Qed.

(** X16. Along one upper or lower edge of a slice (length L, tooth period
    c + d, both positive) [generateSliceGeometry] never fails; the edge goes
    to the upper paths when its last point lies below its first along the
    second axis, to the lower paths otherwise; and it is kept straight when it
    is no longer than one period or the teeth of its side are switched off,
    and is replaced by the teeth over ceil(L / (c + d)) periods otherwise. *)
Theorem tooth_step_straight_or_teeth
        (self : GridBlockSupport.t) (seg : list Pt2) (st : tooth_paths) :
  let period := GridBlockSupport._supportTeethBottomLength self
                + GridBlockSupport._supportTeethBaseInterval self in
  let L := path_length seg in
  let upper := np.lt (snd (last seg (0, 0))) (snd (hd (0, 0) seg)) in
  let enabled := if upper then GridBlockSupport._useUpperSupportTeeth self
                 else GridBlockSupport._useLowerSupportTeeth self in
  0 < period -> 0 < L ->
  exists final,
    tooth_step self seg st
    = inr (mkToothPaths (newPaths st ++ [final])
                        (if upper then upperPaths st ++ [final] else upperPaths st)
                        (if upper then lowerPaths st else lowerPaths st ++ [final]))
    /\ (L <= period \/ enabled = false -> final = seg)
    /\ (period < L -> enabled = true ->
        final = teeth seg (if upper then - (1) else 1)
                      (concat (tile_pattern (GridBlockSupport.toothProfile self) period
                                            (Qceiling (L / period))))).
Proof. apply tooth_step_cases. Qed.

Lemma sample_positions_spec (seg : list Pt2) (patternList : list Pt2) :
  let L := path_length seg in
  let positions := sample_positions seg patternList in
  StronglySorted Qlt (map fst positions)
  /\ Forall (fun xi : Q * nat =>
               exists p, nth_error patternList (snd xi) = Some p
                         /\ fst xi = np_clip (fst p) 0 L
                         /\ forall j q, (j < snd xi)%nat ->
                                        nth_error patternList j = Some q ->
                                        ~ np_clip (fst q) 0 L == fst xi)
            positions
  /\ forall p, In p patternList ->
               exists x, In x (map fst positions) /\ x == np_clip (fst p) 0 L.
Proof.
  intros L positions.
  pose proof (np_unique_index_spec
                (map (fun p : Pt2 => np_clip (fst p) 0 L) patternList))
    as [Hs Hfirst Hall].
  fold (sample_positions seg patternList) in Hs, Hfirst, Hall.
  fold positions in Hs, Hfirst, Hall.
  split; [apply sorted_by_value_fst; exact Hs|]. split.
  - rewrite Forall_forall. intros [x i] Hin. simpl.
    destruct (Hfirst _ _ Hin) as (_ & Hnth & Hmin).
    rewrite nth_error_map in Hnth.
    destruct (nth_error patternList i) as [p|] eqn:Ep; [|discriminate].
    injection Hnth as <-. exists p. split; [reflexivity|]. split; [reflexivity|].
    intros j q Hj Hq. apply (Hmin j); [exact Hj|].
    rewrite nth_error_map, Hq. reflexivity.
  - intros p Hp. apply In_nth_error in Hp as [j Hj].
    destruct (Hall j (np_clip (fst p) 0 L)) as (x & i & Hin & Hx).
    + rewrite length_map. apply nth_error_Some. congruence.
    + rewrite nth_error_map, Hj. reflexivity.
    + exists x. split; [|exact Hx].
      apply in_map_iff. exists (x, i). split; [reflexivity | exact Hin].
Qed.

(** X17. On an edge of positive length L with teeth over ceil(L / (c + d))
    periods (c + d positive), the positions at which the edge is sampled run
    strictly increasing from 0 to L, whatever the order of the vertices of the
    profile; each is the clipped position of the pattern vertex whose height
    is used there, the first vertex of the pattern at that position. *)
Theorem teeth_sampled_along_edge (self : GridBlockSupport.t) (seg : list Pt2) :
  let period := GridBlockSupport._supportTeethBottomLength self
                + GridBlockSupport._supportTeethBaseInterval self in
  let L := path_length seg in
  let patternList := concat (tile_pattern (GridBlockSupport.toothProfile self) period
                                          (Qceiling (L / period))) in
  let positions := sample_positions seg patternList in
  0 < period -> 0 < L ->
  StronglySorted Qlt (map fst positions)
  /\ hd 0 (map fst positions) == 0
  /\ last (map fst positions) 0 == L
  /\ Forall (fun xi : Q * nat =>
               exists p, nth_error patternList (snd xi) = Some p
                         /\ fst xi = np_clip (fst p) 0 L
                         /\ forall j q, (j < snd xi)%nat ->
                                        nth_error patternList j = Some q ->
                                        ~ np_clip (fst q) 0 L == fst xi)
            positions.
Proof.
  intros period L patternList positions Hp Hl.
  destruct (sample_positions_spec seg patternList) as (Hs & Hfirst & Hall).
  fold L in Hfirst, Hall. fold positions in Hs, Hfirst, Hall.
  destruct (tooth_cycles_positive L period Hp Hl) as (_ & Hge & _ & Hhi).
  set (n := Qceiling (L / period)) in *.
  assert (HL : 0 <= L) by lra.
  assert (Hin : forall x, In x (map fst positions) -> 0 <= x /\ x <= L).
  { intros x Hx. apply in_map_iff in Hx as (xi & <- & Hxi).
    rewrite Forall_forall in Hfirst.
    destruct (Hfirst _ Hxi) as (p & _ & -> & _). apply np_clip_bounds. exact HL. }
  (* the first vertex of the first period and the last vertex of the last *)
  destruct (Z.to_nat n) as [|m] eqn:En; [lia|].
  assert (Hcopy : forall i p, (i <= m)%nat ->
            In p (GridBlockSupport.toothProfile self) ->
            In (fst p + period * inject_Z (Z.of_nat i), snd p) patternList).
  { intros i p Hi Hpin. unfold patternList, tile_pattern. apply in_concat.
    eexists. split.
    - apply in_map_iff. exists i. split; [reflexivity|].
      apply in_seq. fold n. lia.
    - apply in_map_iff. exists p. split; [reflexivity | exact Hpin]. }
  assert (Hfst : exists y, In (0, y) (GridBlockSupport.toothProfile self)).
  { eexists. left. reflexivity. }
  assert (Hlst : exists y, In (period, y) (GridBlockSupport.toothProfile self)).
  { eexists. do 4 right. left. reflexivity. }
  destruct Hfst as (y0 & Hy0). destruct Hlst as (y1 & Hy1).
  destruct (Hall _ (Hcopy 0%nat _ (Nat.le_0_l m) Hy0)) as (x0 & Hx0 & Hx0v).
  destruct (Hall _ (Hcopy m _ (Nat.le_refl m) Hy1)) as (x1 & Hx1 & Hx1v).
  simpl fst in Hx0v, Hx1v.
  rewrite np_clip_low in Hx0v;
    [|exact HL|idtac].
  2:{ change (inject_Z 0) with 0. lra. }
  rewrite np_clip_high in Hx1v; [|exact HL|].
  2:{ assert (Hm : inject_Z (Z.of_nat m) == inject_Z n - 1).
      { replace (Z.of_nat m) with (n - 1)%Z by lia.
        unfold Zminus. rewrite inject_Z_plus. reflexivity. }
      rewrite Hm. lra. }
  split; [exact Hs|]. split; [|split; [|exact Hfirst]].
  - apply Qle_antisym.
    + apply Qle_trans with x0; [apply sorted_hd_le; assumption|].
      rewrite Hx0v. apply Qle_refl.
    + apply Hin. destruct (map fst positions); [contradiction | left; reflexivity].
  - apply Qle_antisym.
    + apply Hin. destruct (map fst positions) as [|z l]; [contradiction|].
      clear. revert z. induction l as [|w l IH]; intro z; [left; reflexivity|].
      right. apply IH.
    + apply Qle_trans with x1; [|apply sorted_le_last; assumption].
      rewrite Hx1v. apply Qle_refl.
Qed.

End ToothFacts.

(** The theorem at the upper edge of the rectangle, 20 long, with the default
    teeth. *)
Lemma tooth_step_straight_or_teeth_witness :
  exists final,
    @tooth_step Runs.G1 axis_sampling plain_grid_block upper_edge (mkToothPaths [] [] [])
    = inr (mkToothPaths [final] [final] [])
    /\ final = @teeth axis_sampling upper_edge (- (1))
                 (concat (tile_pattern (GridBlockSupport.toothProfile plain_grid_block)
                                       ((15 # 10) + (2 # 10)) 12)).
Proof.
  destruct (@tooth_step_straight_or_teeth Runs.G1 axis_sampling plain_grid_block
              upper_edge (mkToothPaths [] [] []))
    as (final & Hrun & _ & Hteeth); [reflexivity | reflexivity |].
  exists final. split; [exact Hrun|].
  apply Hteeth; reflexivity.
Defined.

(** The theorem at the same edge. *)
Lemma teeth_sampled_along_edge_witness :
  let positions :=
    map fst (@sample_positions axis_sampling upper_edge
               (concat (tile_pattern (GridBlockSupport.toothProfile plain_grid_block)
                                     ((15 # 10) + (2 # 10)) 12))) in
  StronglySorted Qlt positions /\ hd 0 positions == 0 /\ last positions 0 == 20.
Proof.
  destruct (@teeth_sampled_along_edge Runs.G1 axis_sampling plain_grid_block upper_edge)
    as (Hs & Hhd & Hlast & _); [reflexivity | reflexivity |].
  repeat split; assumption.
Defined.

(** ** generateSliceGeometry: the runs of edges *)

Lemma np_diff_bool_cons (x y : bool) (a : list bool) :
  np_diff_bool (x :: y :: a) = xorb y x :: np_diff_bool (y :: a).
Proof. reflexivity. Qed.

Lemma np_diff_bool_nth (a : list bool) (k : nat) :
  nth k (np_diff_bool a) false = true
  <-> (S k < List.length a)%nat /\ nth k a false <> nth (S k) a false.
Proof.
  revert k. induction a as [|x a IH]; intro k.
  - simpl. destruct k; split; try discriminate; intros [Hk _]; inversion Hk.
  - destruct a as [|y a].
    + simpl. destruct k; split; try discriminate; intros [Hk _]; simpl in Hk; lia.
    + rewrite np_diff_bool_cons. destruct k as [|k].
      * simpl. split.
        -- intro Hx. split; [lia|]. destruct x, y; simpl in Hx; congruence.
        -- intros [_ Hne]. destruct x, y; simpl; congruence.
      * change (nth (S k) (xorb y x :: np_diff_bool (y :: a)) false)
          with (nth k (np_diff_bool (y :: a)) false).
        rewrite IH. simpl. split; intros [Hk Hne]; (split; [lia | exact Hne]).
Qed.

Lemma argwhere_from (s : nat) (a : list bool) :
  let found := map fst (filter snd (combine (seq s (List.length a)) a)) in
  StronglySorted lt found
  /\ forall k, In k found <-> (s <= k)%nat /\ nth (k - s) a false = true.
Proof.
  revert s. induction a as [|b a IH]; intro s.
  - split; [constructor|]. intro k. split; [contradiction|].
    intros [_ Hk]. destruct (k - s)%nat; discriminate.
  - destruct (IH (S s)) as [Hs Hin]. cbv zeta in Hs, Hin.
    set (found := map fst (filter snd (combine (seq (S s) (List.length a)) a))) in *.
    assert (Hk : forall k, (S s <= k)%nat ->
                           nth (k - s) (b :: a) false = nth (k - S s) a false).
    { intros k Hle. replace (k - s)%nat with (S (k - S s)) by lia. reflexivity. }
    assert (Hcons : map fst (filter snd (combine (seq s (List.length (b :: a))) (b :: a)))
                    = if b then s :: found else found).
    { cbn [List.length seq combine filter snd]. destruct b; reflexivity. }
    cbv zeta. rewrite Hcons. destruct b.
    + split.
      * constructor; [exact Hs|]. rewrite Forall_forall. intros k Hkin.
        apply Hin in Hkin. lia.
      * intro k. split.
        -- intros [<-|Hkin]; [rewrite Nat.sub_diag; split; [lia | reflexivity]|].
           apply Hin in Hkin as [Hle Hnth]. split; [lia|]. rewrite Hk by lia. exact Hnth.
        -- intros [Hle Hnth]. destruct (Nat.eq_dec s k) as [->|Hne]; [left; reflexivity|].
           right. apply Hin. split; [lia|]. rewrite <- Hk by lia. exact Hnth.
    + split; [exact Hs|]. intro k. rewrite Hin. split.
      * intros [Hle Hnth]. split; [lia|]. rewrite Hk by lia. exact Hnth.
      * intros [Hle Hnth]. destruct (Nat.eq_dec s k) as [->|Hne].
        -- rewrite Nat.sub_diag in Hnth. discriminate.
        -- split; [lia|]. rewrite <- Hk by lia. exact Hnth.
Qed.

Lemma np_argwhere_spec (a : list bool) :
  StronglySorted lt (np_argwhere a)
  /\ forall k, In k (np_argwhere a) <-> nth k a false = true.
Proof.
  destruct (argwhere_from 0 a) as [Hs Hin]. split; [exact Hs|].
  intro k. unfold np_argwhere. rewrite Hin, Nat.sub_0_r. split; [tauto|].
  intro Hk. split; [lia | exact Hk].
Qed.

Lemma cuts_spec (idx : list bool) :
  let cuts := map S (np_argwhere (np_diff_bool idx)) in
  StronglySorted lt cuts /\ forall c, In c cuts <-> changes_at idx c.
Proof.
  destruct (np_argwhere_spec (np_diff_bool idx)) as [Hs Hin]. split.
  - clear Hin. induction Hs as [|k l Hs IH Hall]; simpl; constructor; [exact IH|].
    rewrite Forall_forall in *. intros c Hc.
    apply in_map_iff in Hc as (j & <- & Hj). specialize (Hall j Hj). lia.
  - intro c. rewrite in_map_iff. split.
    + intros (k & <- & Hk). apply Hin in Hk. apply np_diff_bool_nth in Hk.
      exists k. tauto.
    + intros (k & -> & Hk). exists k. split; [reflexivity|].
      apply Hin. apply np_diff_bool_nth. exact Hk.
Qed.

(** No change between [st] and [e]: the mask is constant there. *)
Lemma constant_between (idx : list bool) (st e : nat) :
  (forall k, (st <= k)%nat -> (S k < e)%nat -> nth k idx false = nth (S k) idx false) ->
  forall i j, (st <= i < e)%nat -> (st <= j < e)%nat ->
              nth i idx false = nth j idx false.
Proof.
  intro Hstep.
  assert (Hst : forall i, (st <= i < e)%nat -> nth st idx false = nth i idx false).
  { induction i as [|i IH]; intro Hi.
    - replace st with 0%nat by lia. reflexivity.
    - destruct (Nat.eq_dec st (S i)) as [->|Hne]; [reflexivity|].
      rewrite IH by lia. apply Hstep; lia. }
  intros i j Hi Hj. rewrite <- (Hst i Hi), <- (Hst j Hj). reflexivity.
Qed.

Lemma firstn_seq_le (n s len : nat) :
  (n <= len)%nat -> firstn n (seq s len) = seq s n.
Proof.
  revert s len. induction n as [|n IH]; intros s len Hle; [reflexivity|].
  destruct len as [|len]; [lia|]. simpl. f_equal. apply IH. lia.
Qed.

Lemma np_split_from_runs (idx : list bool) (cuts : list nat) :
  forall st,
    StronglySorted lt cuts ->
    Forall (fun c => (st < c < List.length idx)%nat) cuts ->
    (forall k, (st <= k)%nat -> (S k < List.length idx)%nat ->
               (In (S k) cuts <-> nth k idx false <> nth (S k) idx false)) ->
    runs_from idx st (np_split_from (seq 0 (List.length idx)) st cuts).
Proof.
  set (m := List.length idx).
  induction cuts as [|e rest IH]; intros st Hs Hrange Hcut.
  - simpl. rewrite skipn_seq. simpl. split.
    + simpl. rewrite app_nil_r. reflexivity.
    + intros run i j [<-|[]] Hi Hj. apply in_seq in Hi, Hj.
      apply (constant_between idx st m); try lia.
      intros k Hk Hk'. destruct (Bool.bool_dec (nth k idx false) (nth (S k) idx false))
        as [Heq|Hne]; [exact Heq|].
      apply (Hcut k Hk Hk') in Hne. contradiction.
    + intros r run1 run2 H1 H2. destruct r; discriminate.
    + intro Hst. simpl. destruct (m - st)%nat eqn:E; [lia|]. simpl.
      split; [reflexivity | discriminate].
  - inversion Hs as [|? ? Hs' Hall]; subst.
    inversion Hrange as [|? ? He Hrange']; subst.
    rewrite Forall_forall in Hall.
    assert (Hrest : runs_from idx e (np_split_from (seq 0 m) e rest)).
    { apply IH.
      - exact Hs'.
      - rewrite Forall_forall in *. intros c Hc. specialize (Hall c Hc).
        specialize (Hrange' c Hc). lia.
      - intros k Hk Hk'. rewrite <- (Hcut k ltac:(lia) Hk'). simpl. split.
        + intro Hin. right. exact Hin.
        + intros [Heq|Hin]; [lia | exact Hin]. }
    destruct Hrest as [Hconcat Hconst Hmax Hstart].
    assert (Hrun : firstn (e - st) (skipn st (seq 0 m)) = seq st (e - st)).
    { rewrite skipn_seq, firstn_seq_le by lia. reflexivity. }
    simpl. rewrite Hrun. split.
    + cbn [concat]. rewrite Hconcat. fold m.
      replace (m - st)%nat with ((e - st) + (m - e))%nat by lia.
      rewrite seq_app. f_equal. f_equal. lia.
    + intros run i j [<-|Hrunin] Hi Hj; [|apply (Hconst run); assumption].
      apply in_seq in Hi, Hj. apply (constant_between idx st e); try lia.
      intros k Hk Hk'.
      destruct (Bool.bool_dec (nth k idx false) (nth (S k) idx false)) as [Heq|Hne];
        [exact Heq|].
      apply (Hcut k Hk ltac:(lia)) in Hne. destruct Hne as [Heq|Hin]; [lia|].
      specialize (Hall _ Hin). lia.
    + intros r run1 run2 H1 H2. destruct r as [|r].
      * simpl in H1, H2. injection H1 as <-.
        destruct (Hstart ltac:(lia)) as [Hhd Hne].
        destruct (np_split_from (seq 0 m) e rest) as [|run rest']; [discriminate|].
        simpl in H2, Hhd, Hne. injection H2 as <-.
        split; [|split; [exact Hne|]].
        -- destruct (e - st)%nat eqn:E; [lia | discriminate].
        -- rewrite Hhd.
           assert (Hlast : last (seq st (e - st)) 0%nat = (e - 1)%nat).
           { replace (e - st)%nat with (S (e - st - 1)) by lia.
             rewrite seq_S, last_last. lia. }
           rewrite Hlast.
           assert (Hin : In (S (e - 1)) (e :: rest)) by (left; lia).
           apply (Hcut (e - 1)%nat ltac:(lia) ltac:(lia)) in Hin.
           replace e with (S (e - 1)) at 2 by lia. exact Hin.
      * simpl in H1, H2. apply (Hmax r); assumption.
    + intros _. simpl. destruct (e - st)%nat eqn:E; [lia|]. simpl.
      split; [reflexivity | discriminate].
Qed.

(** The runs of a mask. *)
Lemma edge_runs_spec (idx : list bool) :
  let runs := edge_runs idx in
  concat runs = seq 0 (List.length idx)
  /\ (forall run i j, In run runs -> In i run -> In j run ->
                      nth i idx false = nth j idx false)
  /\ (forall r run1 run2,
         nth_error runs r = Some run1 -> nth_error runs (S r) = Some run2 ->
         run1 <> [] /\ run2 <> []
         /\ nth (last run1 0%nat) idx false <> nth (hd 0%nat run2) idx false)
  /\ (forall r, In r (masked_runs idx runs)
                <-> exists run, nth_error runs r = Some run /\ run <> []
                                /\ Forall (fun k => nth k idx false = true) run).
Proof.
  intro runs.
  destruct (cuts_spec idx) as [Hs Hcuts].
  assert (Hruns : runs_from idx 0 runs).
  { apply np_split_from_runs.
    - exact Hs.
    - rewrite Forall_forall. intros c Hc. apply Hcuts in Hc as (k & -> & Hk & _). lia.
    - intros k _ Hk. rewrite Hcuts. split.
      + intros (k' & Heq & _ & Hne). injection Heq as <-. exact Hne.
      + intro Hne. exists k. auto. }
  destruct Hruns as [Hconcat Hconst Hmax _].
  rewrite Nat.sub_0_r in Hconcat.
  split; [exact Hconcat|]. split; [exact Hconst|]. split; [exact Hmax|].
  intro r. unfold masked_runs.
  destruct (np_argwhere_spec (map (existsb (fun k => nth k idx false)) runs)) as [_ Hin].
  rewrite Hin. split.
  - intro Hr.
    destruct (nth_error runs r) as [run|] eqn:Er.
    + assert (Hnth : nth r (map (existsb (fun k => nth k idx false)) runs) false
                     = existsb (fun k => nth k idx false) run).
      { apply nth_error_nth. rewrite nth_error_map, Er. reflexivity. }
      rewrite Hnth in Hr. apply existsb_exists in Hr as (k & Hk & Hval).
      exists run. split; [reflexivity|]. split.
      * intros ->. contradiction.
      * rewrite Forall_forall. intros j Hj. rewrite <- Hval.
        apply (Hconst run); [eapply nth_error_In; exact Er | assumption | assumption].
    + apply nth_error_None in Er. rewrite nth_overflow in Hr; [discriminate|].
      rewrite length_map. exact Er.
  - intros (run & Er & Hne & Hall).
    assert (Hnth : nth r (map (existsb (fun k => nth k idx false)) runs) false
                   = existsb (fun k => nth k idx false) run).
    { apply nth_error_nth. rewrite nth_error_map, Er. reflexivity. }
    rewrite Hnth. destruct run as [|k run]; [contradiction|].
    inversion Hall as [|? ? Hk _]; subst. simpl. rewrite Hk. reflexivity.
Qed.

(** X18. [generateSliceGeometry] splits the edges of a path into runs of
    neighbouring edges: the runs, in order, cover every edge once; within a
    run either every edge changes the second coordinate by more than 1e-4 or
    none does; neighbouring runs differ in this (the runs are maximal and not
    empty); and the runs that get teeth are exactly those of the first
    kind. *)
Theorem edge_runs_partition (path : list Pt2) :
  let idx := edge_mask (path_edges path) in
  let runs := edge_runs idx in
  concat runs = seq 0 (List.length idx)
  /\ (forall run i j, In run runs -> In i run -> In j run ->
                      nth i idx false = nth j idx false)
  /\ (forall r run1 run2,
         nth_error runs r = Some run1 -> nth_error runs (S r) = Some run2 ->
         run1 <> [] /\ run2 <> []
         /\ nth (last run1 0%nat) idx false <> nth (hd 0%nat run2) idx false)
  /\ (forall r, In r (masked_runs idx runs)
                <-> exists run, nth_error runs r = Some run /\ run <> []
                                /\ Forall (fun k => nth k idx false = true) run).
Proof. intro idx. apply edge_runs_spec. Qed.

Lemma np_argwhere_all_false (a : list bool) :
  Forall (fun b => b = false) a -> np_argwhere a = [].
Proof.
  intro Hall. destruct (np_argwhere_spec a) as [_ Hin].
  destruct (np_argwhere a) as [|k l]; [reflexivity|]. exfalso.
  assert (Hk : nth k a false = true) by (apply Hin; left; reflexivity).
  destruct (nth_in_or_default k a false) as [Hin'|Hd]; [|congruence].
  rewrite Forall_forall in Hall. rewrite (Hall _ Hin') in Hk. discriminate.
Qed.

Section OutlineFacts.
Context `{Geometry} `{PathSampling}.

(** X19. A path none of whose edges changes the second coordinate by more
    than 1e-4 (an empty path, a single point, a section collapsed onto a
    line) has no edge to put teeth on, and stacking its outline fails with
    numpy's ValueError. *)
Theorem toothed_outline_needs_an_edge (self : GridBlockSupport.t) (path : list Pt2) :
  Forall (fun e : Pt2 * Pt2 => Qabs (snd (snd e) - snd (fst e)) <= 1 # 10000)
         (path_edges path) ->
  toothed_outline self path = inl ValueError.
Proof.
  intro Hflat.
  assert (Hmask : Forall (fun b => b = false) (edge_mask (path_edges path))).
  { unfold edge_mask. rewrite Forall_forall in *. intros b Hb.
    apply in_map_iff in Hb as (e & <- & He). specialize (Hflat e He).
    destruct (np.gt _ _) eqn:E; [|reflexivity].
    apply np_gt_iff in E. lra. }
  assert (Hnone : masked_segments path = []).
  { unfold masked_segments, masked_runs. rewrite np_argwhere_all_false; [reflexivity|].
    rewrite Forall_forall. intros b Hb. apply in_map_iff in Hb as (run & <- & _).
    destruct (existsb _ run) eqn:E; [|reflexivity].
    apply existsb_exists in E as (k & _ & Hk).
    destruct (nth_in_or_default k (edge_mask (path_edges path)) false) as [Hin|Hd];
      [|congruence].
    rewrite Forall_forall in Hmask. rewrite (Hmask _ Hin) in Hk. discriminate. }
  unfold toothed_outline. rewrite Hnone. reflexivity.
Qed.

End OutlineFacts.

(** The theorem at a path collapsed onto the first axis. *)
Lemma toothed_outline_needs_an_edge_witness :
  @toothed_outline Runs.G1 axis_sampling plain_grid_block collapsed_path
  = inl ValueError.
Proof.
  apply (@toothed_outline_needs_an_edge Runs.G1 axis_sampling plain_grid_block
           collapsed_path).
  repeat (constructor; [vm_compute; discriminate|]). constructor.
Defined.

Section OutlineLoop.
Context `{Geometry} `{PathSampling}.

Lemma tooth_loop_returns (self : GridBlockSupport.t) (segs : list (list Pt2)) :
  0 < GridBlockSupport._supportTeethBottomLength self
      + GridBlockSupport._supportTeethBaseInterval self ->
  Forall (fun seg => 0 < path_length seg) segs ->
  forall st,
  exists finals,
    Forall2 (chosen_for self) segs finals
    /\ tooth_loop self segs st
       = inr (mkToothPaths (newPaths st ++ finals)
                           (upperPaths st ++ of_side true segs finals)
                           (lowerPaths st ++ of_side false segs finals)).
Proof.
  intros Hp Hpos. induction Hpos as [|seg segs Hl Hpos IH]; intro st.
  - exists []. split; [constructor|]. simpl. unfold of_side. simpl.
    rewrite !app_nil_r. destruct st; reflexivity.
  - destruct (tooth_step_cases self seg st Hp Hl) as (final & Hstep & Hchosen).
    simpl tooth_loop. rewrite Hstep.
    match goal with
    | |- context [tooth_loop self segs ?s] => destruct (IH s) as (finals & HF & Hrun)
    end.
    rewrite Hrun. exists (final :: finals). split.
    + constructor; [exact Hchosen | exact HF].
    + cbn [newPaths upperPaths lowerPaths]. unfold of_side. cbn [combine filter fst].
      fold (is_upper seg).
      destruct (is_upper seg); cbn [Bool.eqb map snd]; rewrite <- ?app_assoc; reflexivity.
Qed.

(** X20. When the tooth period c + d is positive and every run of sloped
    edges of a path has a positive length, with at least one such run,
    [generateSliceGeometry] builds the outline of the path without failing:
    one path per run, in order, each either the run itself or its teeth by
    the rule above; the outline is these paths joined and closed by its first
    point, and the upper and lower paths are the paths of the runs of each
    side. *)
Theorem toothed_outline_returns (self : GridBlockSupport.t) (path : list Pt2) :
  0 < GridBlockSupport._supportTeethBottomLength self
      + GridBlockSupport._supportTeethBaseInterval self ->
  Forall (fun seg => 0 < path_length seg) (masked_segments path) ->
  masked_segments path <> [] ->
  exists st,
    toothed_outline self path
    = inr (concat (newPaths st) ++ firstn 1 (concat (newPaths st)), st)
    /\ Forall2 (chosen_for self) (masked_segments path) (newPaths st)
    /\ upperPaths st = of_side true (masked_segments path) (newPaths st)
    /\ lowerPaths st = of_side false (masked_segments path) (newPaths st).
Proof.
  intros Hp Hpos Hne.
  destruct (tooth_loop_returns self (masked_segments path) Hp Hpos (mkToothPaths [] [] []))
    as (finals & HF & Hrun).
  cbn [newPaths upperPaths lowerPaths app] in Hrun.
  destruct finals as [|final finals].
  - inversion HF as [Hnil|]. symmetry in Hnil. contradiction.
  - exists (mkToothPaths (final :: finals)
                          (of_side true (masked_segments path) (final :: finals))
                          (of_side false (masked_segments path) (final :: finals))).
    unfold toothed_outline. rewrite Hrun.
    cbn [newPaths upperPaths lowerPaths vstack].
    split; [reflexivity|]. split; [exact HF|]. split; reflexivity.
Qed.

End OutlineLoop.

(** The theorem at the rectangle: the lower edge is kept (lower teeth are off
    by default), the upper edge gets teeth. *)
Lemma toothed_outline_returns_witness :
  exists upper,
    @toothed_outline Runs.G1 axis_sampling plain_grid_block slice_rectangle
    = inr (concat [[(0, 0); (0, 20)]; upper] ++ [(0, 0)],
           mkToothPaths [[(0, 0); (0, 20)]; upper] [upper] [[(0, 0); (0, 20)]]).
Proof.
  destruct (@toothed_outline_returns Runs.G1 axis_sampling plain_grid_block
              slice_rectangle)
    as (st & Hrun & HF & Hup & Hlow).
  - reflexivity.
  - repeat constructor.
  - discriminate.
  - change (@masked_segments slice_rectangle)
      with [[(0, 0); (0, 20)]; [(10, 20); (10, 0)]] in HF, Hup, Hlow.
    destruct st as [new up low]. cbn [newPaths upperPaths lowerPaths] in *.
    inversion HF as [|seg1 final1 segs1 finals1 H1 HF1]; subst.
    inversion HF1 as [|seg2 final2 segs2 finals2 H2 HF2]; subst.
    inversion HF2; subst.
    destruct H1 as [Hkeep _].
    rewrite (Hkeep (or_intror eq_refl)) in *.
    exists final2. rewrite Hrun. reflexivity.
Defined.

(** ** generateMeshGrid *)

Section MeshGridFacts.
Local Open Scope R_scope.

Lemma Rceil_spec (x : R) : IZR (Rceil x) - 1 < x <= IZR (Rceil x).
Proof.
  unfold Rceil. destruct (archimed (- x)) as [Hgt Hle].
  rewrite minus_IZR. lra.
Qed.

Lemma Rceil_unique (x : R) (z : Z) : IZR z - 1 < x <= IZR z -> Rceil x = z.
Proof.
  intros [Hlo Hhi]. destruct (Rceil_spec x) as [Hlo' Hhi'].
  assert (H1 : (Rceil x < z + 1)%Z).
  { apply lt_IZR. rewrite plus_IZR. lra. }
  assert (H2 : (z < Rceil x + 1)%Z).
  { apply lt_IZR. rewrite plus_IZR. lra. }
  lia.
Qed.

Lemma Rceil_IZR (z : Z) : Rceil (IZR z) = z.
Proof. apply Rceil_unique. lra. Qed.

Lemma Int_part_half (j : nat) : IZR (Int_part (0 + INR j * (1 / 2))) = INR (j / 2).
Proof.
  rewrite (INR_IZR_INZ (j / 2)). f_equal.
  pose proof (Nat.div_mod_eq j 2) as Hj.
  pose proof (Nat.mod_upper_bound j 2 ltac:(lia)) as Hr.
  assert (Hreal : INR j = 2 * INR (j / 2) + INR (j mod 2)).
  { rewrite Hj at 1. rewrite plus_INR, mult_INR. simpl. lra. }
  assert (Hmod : 0 <= INR (j mod 2) <= 1).
  { split; [apply pos_INR|]. change 1 with (INR 1). apply le_INR. lia. }
  unfold Int_part. symmetry.
  assert (Hup : (Z.of_nat (j / 2) + 1)%Z = up (0 + INR j * (1 / 2))).
  { apply tech_up; rewrite plus_IZR, <- INR_IZR_INZ; lra. }
  lia.
Qed.

Lemma nth_error_tile2 (a : list R) (j : nat) :
  nth_error (tile2 a) j = nth_error a (j / 2).
Proof.
  revert j. induction a as [|v a IH]; intro j.
  - change (tile2 []) with (@nil R). rewrite !nth_error_nil. reflexivity.
  - destruct j as [|[|j]]; try reflexivity.
    change (tile2 (v :: a)) with (v :: v :: tile2 a). cbn [nth_error].
    rewrite IH.
    replace (S (S j) / 2)%nat with (S (j / 2)).
    + reflexivity.
    + change (S (S j)) with (2 + j)%nat.
      replace (2 + j)%nat with (j + 1 * 2)%nat by lia.
      rewrite Nat.div_add by lia. lia.
Qed.

Lemma length_tile2 (a : list R) : List.length (tile2 a) = (2 * List.length a)%nat.
Proof. induction a as [|v a IH]; simpl in *; [reflexivity | lia]. Qed.

Lemma length_Rarange (start stop step : R) (n : Z) :
  (stop - start) / step = IZR n ->
  List.length (Rarange start stop step) = Z.to_nat n.
Proof.
  intro Hn. unfold Rarange. rewrite length_map, length_seq, Hn, Rceil_IZR. reflexivity.
Qed.

Lemma nth_error_Rarange (start stop step : R) (n : Z) (i : nat) :
  (stop - start) / step = IZR n -> (i < Z.to_nat n)%nat ->
  nth_error (Rarange start stop step) i = Some (start + INR i * step).
Proof.
  intros Hn Hi. unfold Rarange. rewrite Hn, Rceil_IZR, nth_error_map, nth_error_seq.
  destruct (Nat.ltb_spec i (Z.to_nat n)); [reflexivity | lia].
Qed.

Lemma half_diagonal_radius (bounds : R * R * R * R) (s : R) :
  0 < s ->
  let k := Rceil (half_diagonal bounds / s) in
  (0 <= k)%Z
  /\ half_diagonal bounds <= IZR k * s
  /\ IZR k * s < half_diagonal bounds + s.
Proof.
  intros Hs k.
  destruct (Rceil_spec (half_diagonal bounds / s)) as [Hlo Hhi]. fold k in Hlo, Hhi.
  assert (Hd : 0 <= half_diagonal bounds).
  { unfold half_diagonal. destruct bounds as [[[minx miny] maxx] maxy]. apply sqrt_pos. }
  assert (Hq : half_diagonal bounds = half_diagonal bounds / s * s) by (field; lra).
  assert (Hq0 : 0 <= half_diagonal bounds / s).
  { apply Rmult_le_pos; [exact Hd|]. left. apply Rinv_0_lt_compat. exact Hs. }
  assert (H1 : half_diagonal bounds / s * s <= IZR k * s)
    by (apply Rmult_le_compat_r; lra).
  assert (H2 : (IZR k - 1) * s < half_diagonal bounds / s * s)
    by (apply Rmult_lt_compat_r; lra).
  rewrite <- Hq in H1, H2.
  split; [|split].
  - apply le_IZR. lra.
  - exact H1.
  - lra.
Qed.

(** The points of the grid, line by line. *)
Lemma generateMeshGrid_lines (bounds : R * R * R * R) (s hatchAngle : R) :
  0 < s ->
  let coords := generateMeshGrid bounds s hatchAngle in
  let radius := IZR (Rceil (half_diagonal bounds / s)) * s in
  let lines := Z.to_nat (hatch_count bounds s) in
  let theta := np.deg2rad hatchAngle in
  let '(minx, miny, maxx, maxy) := bounds in
  let cx := (minx + maxx) / 2 in
  let cy := (miny + maxy) / 2 in
  half_diagonal bounds <= radius < half_diagonal bounds + s
  /\ List.length coords = (2 * lines)%nat
  /\ forall i, (i < lines)%nat ->
       let xi := - radius + INR i * s in
       nth_error coords (2 * i)
       = Some (cx + (cos theta * xi + sin theta * radius),
               cy + (sin theta * xi - cos theta * radius), INR i)
       /\ nth_error coords (2 * i + 1)
          = Some (cx + (cos theta * xi - sin theta * radius),
                  cy + (sin theta * xi + cos theta * radius), INR i).
Proof.
  intro Hs. destruct bounds as [[[minx miny] maxx] maxy].
  intros coords radius lines theta. cbv beta iota. intros cx cy.
  set (bounds := (minx, miny, maxx, maxy)) in *.
  destruct (half_diagonal_radius bounds s Hs) as (Hk & Hlo & Hhi).
  fold radius in Hlo, Hhi.
  set (k := Rceil (half_diagonal bounds / s)) in *.
  assert (Hlines : lines = Z.to_nat (2 * k)) by reflexivity.
  split; [split; assumption|].
  (* the lists before the rotation *)
  set (xs := Rarange (- radius) radius s).
  set (x := tile2 xs).
  assert (Hcount : (radius - - radius) / s = IZR (2 * k)).
  { unfold radius. rewrite mult_IZR. field. lra. }
  assert (Hxs : List.length xs = lines).
  { unfold xs. rewrite (length_Rarange _ _ _ _ Hcount). symmetry. exact Hlines. }
  assert (Hx : List.length x = (2 * lines)%nat).
  { unfold x. rewrite length_tile2, Hxs. reflexivity. }
  set (y := np_resize [- radius; radius] (List.length x)).
  set (z := map astype_int64 (Rarange 0 (INR (List.length x) / 2) (1 / 2))).
  assert (Hzcount : (INR (List.length x) / 2 - 0) / (1 / 2)
                    = IZR (Z.of_nat (List.length x))).
  { rewrite <- INR_IZR_INZ. field. }
  assert (Hcoords : coords
            = map (fun p : R * R * R =>
                     let '(vx, vy, vz) := p in
                     (cos theta * vx + - sin theta * vy + 0 * vz + cx,
                      sin theta * vx + cos theta * vy + 0 * vz + cy,
                      0 * vx + 0 * vy + 1 * vz + 0))
                  (combine (combine x y) z)).
  { reflexivity. }
  assert (Hy : List.length y = (2 * lines)%nat).
  { unfold y, np_resize. rewrite length_map, length_seq. exact Hx. }
  assert (Hz : List.length z = (2 * lines)%nat).
  { unfold z. rewrite length_map, (length_Rarange _ _ _ _ Hzcount), Nat2Z.id. exact Hx. }
  split.
  - rewrite Hcoords, length_map, !length_combine, Hx, Hy, Hz. lia.
  - assert (Hnth : forall j, (j < 2 * lines)%nat ->
              nth_error (combine (combine x y) z) j
              = Some (- radius + INR (j / 2) * s,
                      (if (j mod 2 =? 0)%nat then - radius else radius),
                      INR (j / 2))).
    { intros j Hj. apply nth_error_combine. split; [apply nth_error_combine; split|].
      - unfold x. rewrite nth_error_tile2. unfold xs.
        apply (nth_error_Rarange _ _ _ _ _ Hcount).
        rewrite <- Hlines. apply Nat.Div0.div_lt_upper_bound. lia.
      - unfold y, np_resize. rewrite nth_error_map, nth_error_seq, Hx.
        destruct (Nat.ltb_spec j (2 * lines)); [|lia]. cbn [option_map Nat.add].
        f_equal. cbn [List.length].
        pose proof (Nat.mod_upper_bound j 2 ltac:(lia)) as Hr.
        destruct (j mod 2)%nat as [|[|r]]; [reflexivity | reflexivity | lia].
      - unfold z. rewrite nth_error_map.
        rewrite (nth_error_Rarange _ _ _ _ _ Hzcount) by (rewrite Nat2Z.id, Hx; exact Hj).
        cbn [option_map]. unfold astype_int64. rewrite Int_part_half. reflexivity. }
    intros i Hi xi.
    assert (Hd0 : ((2 * i) / 2 = i)%nat).
    { rewrite Nat.mul_comm. apply Nat.div_mul. lia. }
    assert (Hd1 : ((2 * i + 1) / 2 = i)%nat).
    { rewrite Nat.mul_comm, Nat.add_comm, Nat.div_add by lia. reflexivity. }
    assert (Hm0 : ((2 * i) mod 2 = 0)%nat).
    { rewrite Nat.mul_comm. apply Nat.Div0.mod_mul. }
    assert (Hm1 : ((2 * i + 1) mod 2 = 1)%nat).
    { rewrite Nat.mul_comm, Nat.add_comm, Nat.Div0.mod_add. reflexivity. }
    split.
    + rewrite Hcoords, nth_error_map, (Hnth (2 * i)%nat) by lia.
      rewrite Hd0, Hm0. cbn [option_map Nat.eqb]. fold xi.
      f_equal. f_equal; [f_equal|]; ring.
    + rewrite Hcoords, nth_error_map, (Hnth (2 * i + 1)%nat) by lia.
      rewrite Hd1, Hm1. cbn [option_map Nat.eqb]. fold xi.
      f_equal. f_equal; [f_equal|]; ring.
Qed.


Lemma deg2rad_supplement (a : R) : np.deg2rad (180 - a) = PI - np.deg2rad a.
Proof. unfold np.deg2rad. field. Qed.

Lemma cos_supplement (x : R) : cos (PI - x) = - cos x.
Proof. rewrite cos_minus, cos_PI, sin_PI. ring. Qed.

Lemma sin_supplement (x : R) : sin (PI - x) = sin x.
Proof. rewrite sin_minus, cos_PI, sin_PI. ring. Qed.

(** X22. The two families of hatches of the truss, at the truss angle and at
    180 degrees minus it, hold the same number of lines, and line i of the
    second family is line i of the first mirrored in the axis through the
    centre of the box along the second coordinate, with its end points
    exchanged; both carry the number i. *)
Theorem truss_families_mirrored (gridSpacing0 trussAngle : Q) (bounds : R * R * R * R) :
  0 < Q2R gridSpacing0 * sin (np.deg2rad (Q2R trussAngle)) ->
  let hatchesA := fst (truss_hatches gridSpacing0 trussAngle bounds) in
  let hatchesB := snd (truss_hatches gridSpacing0 trussAngle bounds) in
  let '(minx, miny, maxx, maxy) := bounds in
  let cx := (minx + maxx) / 2 in
  let mirror := fun p : R * R * R => (2 * cx - fst (fst p), snd (fst p), snd p) in
  List.length hatchesB = List.length hatchesA
  /\ forall i a0 a1,
       nth_error hatchesA (2 * i) = Some a0 ->
       nth_error hatchesA (2 * i + 1) = Some a1 ->
       nth_error hatchesB (2 * i) = Some (mirror a1)
       /\ nth_error hatchesB (2 * i + 1) = Some (mirror a0).
Proof.
  intro Hdiag.
  set (diag := Q2R gridSpacing0 * sin (np.deg2rad (Q2R trussAngle))) in *.
  pose proof (generateMeshGrid_lines bounds diag (Q2R trussAngle) Hdiag) as HA.
  pose proof (generateMeshGrid_lines bounds diag (180 - Q2R trussAngle) Hdiag) as HB.
  destruct bounds as [[[minx miny] maxx] maxy]. cbv beta iota zeta in HA, HB.
  destruct HA as (_ & HlenA & HA). destruct HB as (_ & HlenB & HB).
  set (radius := IZR (Rceil (half_diagonal (minx, miny, maxx, maxy) / diag)) * diag) in *.
  clearbody radius.
  intros hatchesA hatchesB. cbv beta iota. intros cx mirror.
  assert (HeqA : hatchesA = generateMeshGrid (minx, miny, maxx, maxy) diag (Q2R trussAngle))
    by reflexivity.
  assert (HeqB : hatchesB
                 = generateMeshGrid (minx, miny, maxx, maxy) diag (180 - Q2R trussAngle))
    by reflexivity.
  rewrite HeqA, HeqB. clear HeqA HeqB hatchesA hatchesB.
  split; [rewrite HlenA, HlenB; reflexivity|].
  intros i a0 a1 H0 H1.
  set (lines := Z.to_nat (hatch_count (minx, miny, maxx, maxy) diag)) in *.
  assert (Hi : (i < lines)%nat).
  { assert (Hlt : (2 * i < 2 * lines)%nat).
    { rewrite <- HlenA. apply nth_error_Some. congruence. }
    lia. }
  destruct (HA i Hi) as [HA0 HA1]. destruct (HB i Hi) as [HB0 HB1].
  rewrite HA0 in H0. rewrite HA1 in H1. injection H0 as <-. injection H1 as <-.
  rewrite HB0, HB1, deg2rad_supplement, cos_supplement, sin_supplement.
  unfold mirror, cx. cbn [fst snd].
  split; apply f_equal; (apply f_equal2; [apply f_equal2|reflexivity]).
  all: field.
Qed.

End MeshGridFacts.

(** ** generateSupportSkins: the start of the bottom loop *)

Section BottomLoopFacts.
Local Open Scope R_scope.

Lemma argmin_from_spec (a : list R) :
  forall (pre : list R) (best : nat) (least : R),
    nth_error (pre ++ a) best = Some least ->
    (best < List.length pre)%nat ->
    (forall j v, (j < List.length pre)%nat -> nth_error (pre ++ a) j = Some v ->
                 least <= v) ->
    (forall j v, (j < best)%nat -> nth_error (pre ++ a) j = Some v -> least < v) ->
    let r := argmin_from best least (List.length pre) a in
    exists m, nth_error (pre ++ a) r = Some m
              /\ (forall j v, nth_error (pre ++ a) j = Some v -> m <= v)
              /\ (forall j v, (j < r)%nat -> nth_error (pre ++ a) j = Some v -> m < v).
Proof.
  induction a as [|v rest IH]; intros pre best least Hbest Hlt Hle Hfirst.
  - simpl. exists least. split; [exact Hbest|]. split; [|exact Hfirst].
    intros j w Hj. apply (Hle j w); [|exact Hj].
    apply nth_error_Some. rewrite app_nil_r in Hj. congruence.
  - cbn [argmin_from].
    assert (Hv : nth_error (pre ++ v :: rest) (List.length pre) = Some v).
    { rewrite nth_error_app2, Nat.sub_diag by lia. reflexivity. }
    assert (Happ : pre ++ v :: rest = (pre ++ [v]) ++ rest)
      by (rewrite <- app_assoc; reflexivity).
    specialize (IH (pre ++ [v])). rewrite length_app, Nat.add_1_r, <- Happ in IH.
    destruct (BaseSupportGenerator.Rltb v least) eqn:E.
    + apply Rltb_iff in E. apply IH.
      * exact Hv.
      * lia.
      * intros j w Hj Hw. destruct (Nat.eq_dec j (List.length pre)) as [->|Hne].
        -- rewrite Hv in Hw. injection Hw as <-. lra.
        -- specialize (Hle j w ltac:(lia) Hw). lra.
      * intros j w Hj Hw. specialize (Hle j w Hj Hw). lra.
    + assert (Hge : least <= v).
      { apply Rnot_lt_le. intro Hlt'. apply Rltb_iff in Hlt'. congruence. }
      apply IH.
      * exact Hbest.
      * lia.
      * intros j w Hj Hw. destruct (Nat.eq_dec j (List.length pre)) as [->|Hne].
        -- rewrite Hv in Hw. injection Hw as <-. exact Hge.
        -- apply (Hle j w); [lia | exact Hw].
      * exact Hfirst.
Qed.

Lemma np_argmin_spec (a : list R) :
  a <> [] ->
  exists r m, np_argmin a = Some r /\ nth_error a r = Some m
              /\ (forall j v, nth_error a j = Some v -> m <= v)
              /\ (forall j v, (j < r)%nat -> nth_error a j = Some v -> m < v).
Proof.
  destruct a as [|v rest]; [congruence|]. intros _.
  destruct (argmin_from_spec rest [v] 0%nat v) as (m & Hm & Hle & Hfirst).
  - reflexivity.
  - simpl. lia.
  - intros j w Hj Hw. simpl in Hj. destruct j; [|lia].
    simpl in Hw. injection Hw as <-. lra.
  - intros j w Hj. lia.
  - exists (argmin_from 0 v 1 rest), m. split; [reflexivity|].
    split; [exact Hm|]. split; assumption.
Qed.

Lemma nth_error_roll {A : Type} (k : nat) (a : list A) (i : nat) :
  (k < List.length a)%nat -> (i < List.length a)%nat ->
  nth_error (np_roll_by k a) i = nth_error a ((i + k) mod List.length a).
Proof.
  intros Hk Hi. unfold np_roll_by. set (n := List.length a) in *.
  destruct (Nat.lt_ge_cases i (n - k)) as [Hlt|Hge].
  - rewrite nth_error_app1 by (rewrite length_skipn; exact Hlt).
    rewrite nth_error_skipn, Nat.mod_small by lia. f_equal. lia.
  - rewrite nth_error_app2 by (rewrite length_skipn; exact Hge).
    rewrite length_skipn, nth_error_firstn. fold n.
    destruct (Nat.ltb_spec (i - (n - k)) k); [|lia].
    f_equal. apply (Nat.mod_unique (i + k) n 1); lia.
Qed.

(** X23. [generateSupportSkins] turns the bottom loop, heights along, so
    that it starts at its point nearest to the start of the top loop (the
    first such point when several are as near): the loop is rotated by one
    offset, never reordered, and its height list is rotated by the same
    offset. *)
Theorem align_bottom_nearest_start
        (topStartPos : R * R) (bottomXY : list (R * R)) (bottomZ : list R) :
  bottomXY <> [] -> List.length bottomZ = List.length bottomXY ->
  let n := List.length bottomXY in
  let dist := distances_to topStartPos bottomXY in
  exists startId xy z least,
    align_bottom topStartPos bottomXY bottomZ = Some (xy, z)
    /\ (startId < n)%nat
    /\ (forall i, (i < n)%nat ->
                  nth_error xy i = nth_error bottomXY ((i + startId) mod n)
                  /\ nth_error z i = nth_error bottomZ ((i + startId) mod n))
    /\ nth_error dist startId = Some least
    /\ (forall j d, nth_error dist j = Some d -> least <= d)
    /\ (forall j d, (j < startId)%nat -> nth_error dist j = Some d -> least < d).
Proof.
  intros Hne Hlen n dist.
  destruct (np_argmin_spec dist) as (r & m & Harg & Hm & Hle & Hfirst).
  { unfold dist, distances_to. destruct bottomXY; [congruence | discriminate]. }
  assert (Hr : (r < n)%nat).
  { unfold n. replace (List.length bottomXY) with (List.length dist)
      by (unfold dist, distances_to; apply length_map).
    apply nth_error_Some. congruence. }
  exists r, (np_roll_by r bottomXY), (np_roll_by r bottomZ), m.
  split; [unfold align_bottom; fold dist; rewrite Harg; reflexivity|].
  split; [exact Hr|]. split; [|split; [exact Hm | split; assumption]].
  intros i Hi. split.
  - apply nth_error_roll; assumption.
  - rewrite nth_error_roll by (rewrite Hlen; assumption). rewrite Hlen. reflexivity.
Qed.

End BottomLoopFacts.


(** The theorem at the default grid spacing 3 and truss angle 45. *)
Lemma truss_families_mirrored_witness :
  List.length (snd (truss_hatches 3 45 (0, 0, 6, 8)%R))
  = List.length (fst (truss_hatches 3 45 (0, 0, 6, 8)%R)).
Proof.
  assert (Hdiag : (0 < Q2R 3 * sin (np.deg2rad (Q2R 45)))%R).
  { apply Rmult_lt_0_compat; [unfold Q2R; simpl; lra|].
    apply sin_gt_0.
    - unfold np.deg2rad. apply Rmult_lt_0_compat; [unfold Q2R; simpl; lra|].
      apply Rdiv_lt_0_compat; [apply PI_RGT_0 | lra].
    - unfold np.deg2rad. pose proof PI_RGT_0. unfold Q2R. simpl. lra. }
  exact (proj1 (truss_families_mirrored 3 45 (0, 0, 6, 8)%R Hdiag)).
Defined.

(** The theorem at a square loop whose third corner is nearest. *)
Lemma align_bottom_nearest_start_witness :
  exists startId xy z,
    align_bottom (9, 9)%R [(0, 0); (10, 0); (10, 10); (0, 10)]%R [1; 2; 3; 4]%R
    = Some (xy, z)
    /\ (startId < 4)%nat.
Proof.
  destruct (align_bottom_nearest_start
              (9, 9)%R [(0, 0); (10, 0); (10, 10); (0, 10)]%R [1; 2; 3; 4]%R)
    as (startId & xy & z & least & Hrun & Hlt & _).
  - discriminate.
  - reflexivity.
  - exists startId, xy, z. split; [exact Hrun | exact Hlt].
Defined.
